(** * DiamondPad: staking tiers and allocation pools

    A shallow embedding of [staking/tiers.ts] (the [StakingTierManager]) and
    [staking/allocation.ts] (the [AllocationManager]), together with the
    properties of the two modules.

    Conventions of the embedding.

    - A JavaScript [number] is a rational ([Q]).  [Math.floor] is [Qfloor],
      [Math.min]/[Math.max] are [Qmin]/[Qmax].  Where the rounding of a
      product, a quotient or a sum decides a whole number of tokens or of
      tickets, or the validity of a date, the operation is the IEEE 754
      binary64 one: the exact result rounded to the nearest number with a
      53-bit significand, ties to even ([round64], [fadd], [fsub], [fmul],
      [fdiv]).  These are the operations of [shsToMultiplier],
      [getEffectiveWeight] and [getLotteryBoost], of [stake] (the sum of the
      balances and the end of the lock), of the ticket count of
      [submitRequest] and of the three distributions (the total weight, the
      share and the tokens of the share in [executeGuaranteedPool]; the caps
      and the values of the awards in all three).
      The exponent is not bounded, so [round64] is the binary64 rounding for
      every result whose magnitude lies in the normal range, from [2^-1022]
      to below [2^1024].  The other methods are written with the exact
      operations of [Q], which are the binary64 ones whenever the exact
      result is a binary64 number, as it is for sums, differences and
      products of whole numbers below [2^53].  [NaN] and the infinities are
      not numbers of the model: a statement that depends on a division by a
      variable (the token price, the total weight) assumes that the divisor
      is not zero.
    - A [Date] is a time value within the range of [TimeClip], an integer
      number of milliseconds ([ValidDate]), or the Invalid Date
      ([InvalidDate]).  The clock ([Date.now()], [new Date()]) is an explicit
      argument [now] of every operation that reads it.  The dates of a
      vesting schedule, which the code only computes and stores, are kept as
      their time values.
    - The two [Map]s of the managers are [gmap]s keyed by [string]; every
      method takes the store and returns the new store.
    - A method that can [throw] returns a [completion]: the returned value or
      the message of the thrown [Error]. *)

From Stdlib Require Import ZArith QArith Qround Qminmax Qabs Qpower Lqa Lia List.
From stdpp Require Import gmap strings list fin_maps.

Local Open Scope Q_scope.

(** ** Numbers *)

(** [a < b] on numbers, as a boolean. *)
Definition Qlt_bool (a b : Q) : bool := negb (Qle_bool b a).

(** [Math.floor] with a number as result. *)
Definition floorQ (q : Q) : Q := inject_Z (Qfloor q).

(** [2^k], for an exponent of either sign. *)
Definition pow2 (k : Z) : Q := Qpower 2 k.

(** The binary exponent of a positive number: [2^e <= x < 2^(e+1)]. *)
Definition ilog2 (x : Q) : Z :=
  let e := (Z.log2 (Qnum x) - Z.log2 (Zpos (Qden x)))%Z in
  if Qle_bool (pow2 e) x then e else (e - 1)%Z.

(** The nearest integer, a tie going to the even one. *)
Definition roundHalfEven (s : Q) : Z :=
  let f := Qfloor s in
  let r := s - inject_Z f in
  if Qlt_bool r (1 # 2) then f
  else if Qlt_bool (1 # 2) r then (f + 1)%Z
  else if Z.even f then f else (f + 1)%Z.

(** A positive number rounded to a significand of 53 bits: the number is
    scaled into [2^52, 2^53), rounded to an integer, and scaled back. *)
Definition roundPositive (x : Q) : Q :=
  let k := (52 - ilog2 x)%Z in
  Qred (inject_Z (roundHalfEven (x * pow2 k)) * pow2 (- k)).

(** The binary64 number nearest to a real number (round to nearest, ties to
    even). *)
Definition round64 (x : Q) : Q :=
  if Qeq_bool x 0 then 0
  else if Qle_bool 0 x then roundPositive x
  else - roundPositive (- x).

(** [a + b], [a - b], [a * b] and [a / b] on binary64 numbers. *)
Definition fadd (a b : Q) : Q := round64 (a + b).
Definition fsub (a b : Q) : Q := round64 (a - b).
Definition fmul (a b : Q) : Q := round64 (a * b).
Definition fdiv (a b : Q) : Q := round64 (a / b).

(** The largest relative error of a rounding, [2^-53]. *)
Definition HALF_ULP : Q := 1 # (2 ^ 53).

(** ** Dates *)

(** Milliseconds in a day, [24 * 60 * 60 * 1000]. *)
Definition MS_PER_DAY : Z := (24 * 60 * 60 * 1000)%Z.

(** A [Date] object: its time value in milliseconds, or the Invalid Date
    (time value [NaN]). *)
Inductive Date : Type :=
| ValidDate (time : Z)
| InvalidDate.

#[global] Instance Date_eq_dec : EqDecision Date.
Proof. solve_decision. Defined.

(** The largest time value of a [Date], 100,000,000 days from the epoch. *)
Definition MAX_TIME : Q := 8640000000000000.

(** [ToIntegerOrInfinity]: truncation toward 0. *)
Definition Qtrunc (q : Q) : Z :=
  if Qle_bool 0 q then Qfloor q else Qceiling q.

(** [new Date(time)] for a number: [TimeClip] makes the date invalid when
    [abs(time)] exceeds [MAX_TIME] and truncates the time otherwise. *)
Definition makeDate (time : Q) : Date :=
  if Qle_bool (Qabs time) MAX_TIME then ValidDate (Qtrunc time) else InvalidDate.

(** [date > new Date()]: the comparison of the time values, false for the
    Invalid Date. *)
Definition isAfter (date : Date) (now : Z) : bool :=
  match date with
  | ValidDate time => (now <? time)%Z
  | InvalidDate => false
  end.

(** The outcome of a call that may throw. *)
Inductive completion (A : Type) : Type :=
| Returned (a : A)
| Thrown (message : string).
Arguments Returned {A} a.
Arguments Thrown {A} message.

(** ** Staking tiers ([tiers.ts]) *)

Inductive StakingTier : Type := diamond | gold | silver | bronze | public.

#[global] Instance StakingTier_eq_dec : EqDecision StakingTier.
Proof. solve_decision. Defined.

Module TierConfig.
Record t : Type := mk {
  minStake : Q;
  lockDays : Q;
  allocationWeight : Q;
  guaranteedAllocation : bool;
  lotteryBoost : Q;
  feeDiscount : Q;
  priorityAccess : bool;
  maxAllocationPercent : Q
}.
End TierConfig.

Definition TIER_CONFIG (t : StakingTier) : TierConfig.t :=
  match t with
  | diamond => TierConfig.mk 100000 180 10 true 5 (6 # 10) true 5
  | gold => TierConfig.mk 50000 90 5 true 3 (4 # 10) true 3
  | silver => TierConfig.mk 20000 60 (25 # 10) false 2 (25 # 100) false 2
  | bronze => TierConfig.mk 5000 30 1 false (15 # 10) (1 # 10) false 1
  | public => TierConfig.mk 0 0 (25 # 100) false 1 0 false (5 # 10)
  end.

Definition EARLY_UNSTAKE_PENALTY : Q := 1 # 10.
Definition SHS_MIN_MULTIPLIER : Q := 5 # 10.
Definition SHS_MAX_MULTIPLIER : Q := 2.

Module StakerPosition.
Record t : Type := mk {
  wallet : string;
  stakedAmount : Q;
  stakedAt : Date;
  lockEndDate : Date;
  tier : StakingTier;
  strongHolderScore : Q;
  effectiveWeight : Q;
  totalAllocationsReceived : Q;
  totalAllocationsValue : Q;
  loyaltyStreak : Q
}.
End StakerPosition.

Module StakeRequest.
Record t : Type := mk { wallet : string; amount : Q; lockDays : Q }.
End StakeRequest.

Module UnstakeRequest.
Record t : Type := mk { wallet : string; amount : Q; early : bool }.
End UnstakeRequest.

(** The result object of [unstake]. *)
Module UnstakeResult.
Record t : Type := mk {
  amountReturned : Q;
  penaltyApplied : Q;
  newPosition : option StakerPosition.t
}.
End UnstakeResult.

(** The argument of [calculateSHS]. *)
Module HoldHistory.
Record t : Type := mk {
  holdDuration : Q;
  launchesParticipated : Q;
  launchesHeldLong : Q;
  quickFlips : Q;
  lpProvided : bool;
  governanceVotes : Q
}.
End HoldHistory.

(** An element of the result of [getTierStats]. *)
Module TierStats.
Record t : Type := mk {
  tier : StakingTier;
  count : nat;
  totalStaked : Q;
  avgSHS : Q
}.
End TierStats.

(** The private [stakers] map of [StakingTierManager]. *)
Abbreviation Stakers := (gmap string StakerPosition.t).

Module StakingTierManager.
Import StakerPosition.

Definition getTierForStake (amount lockDays : Q) : StakingTier :=
  if Qle_bool (TierConfig.minStake (TIER_CONFIG diamond)) amount
     && Qle_bool (TierConfig.lockDays (TIER_CONFIG diamond)) lockDays then diamond
  else if Qle_bool (TierConfig.minStake (TIER_CONFIG gold)) amount
     && Qle_bool (TierConfig.lockDays (TIER_CONFIG gold)) lockDays then gold
  else if Qle_bool (TierConfig.minStake (TIER_CONFIG silver)) amount
     && Qle_bool (TierConfig.lockDays (TIER_CONFIG silver)) lockDays then silver
  else if Qle_bool (TierConfig.minStake (TIER_CONFIG bronze)) amount
     && Qle_bool (TierConfig.lockDays (TIER_CONFIG bronze)) lockDays then bronze
  else public.

Definition calculateSHS (history : HoldHistory.t) : Q :=
  let score := 50 in
  let holdFactor := Qmin (HoldHistory.holdDuration history / 90) 1 * 40 in
  let score := score + holdFactor in
  let loyaltyRatio :=
    HoldHistory.launchesHeldLong history
    / Qmax (HoldHistory.launchesParticipated history) 1 in
  let score := score + loyaltyRatio * 20 in
  let flipRatio :=
    HoldHistory.quickFlips history
    / Qmax (HoldHistory.launchesParticipated history) 1 in
  let score := score - flipRatio * 30 in
  let score := if HoldHistory.lpProvided history then score + 10 else score in
  let score := score + Qmin (HoldHistory.governanceVotes history) 5 in
  Qmax 0 (Qmin 100 score).

Definition shsToMultiplier (shs : Q) : Q :=
  let normalized := fdiv shs 100 in
  fadd SHS_MIN_MULTIPLIER
       (fmul normalized (fsub SHS_MAX_MULTIPLIER SHS_MIN_MULTIPLIER)).

Definition getEffectiveWeight (tier : StakingTier) (shs : Q) : Q :=
  let tierConfig := TIER_CONFIG tier in
  let shsMultiplier := shsToMultiplier shs in
  fmul (TierConfig.allocationWeight tierConfig) shsMultiplier.

(** [position.effectiveWeight = ...] *)
Definition set_effectiveWeight (w : Q) (p : StakerPosition.t) : StakerPosition.t :=
  mk (wallet p) (stakedAmount p) (stakedAt p) (lockEndDate p) (tier p)
     (strongHolderScore p) w (totalAllocationsReceived p)
     (totalAllocationsValue p) (loyaltyStreak p).

(** [Date.now() + lockDays * 24 * 60 * 60 * 1000], the time at which a lock
    of [lockDays] days that starts now ends; the products are taken from
    the left. *)
Definition lockEndTime (now : Z) (lockDays : Q) : Q :=
  fadd (inject_Z now) (fmul (fmul (fmul (fmul lockDays 24) 60) 60) 1000).

(** [new Date(Math.max(lockEndDate.getTime(), time))]: the time value of the
    Invalid Date is [NaN], and so is then the maximum. *)
Definition laterDate (lockEndDate : Date) (time : Q) : Date :=
  match lockEndDate with
  | ValidDate lockEnd => makeDate (Qmax (inject_Z lockEnd) time)
  | InvalidDate => InvalidDate
  end.

(** [async stake(request)].  The promise always resolves. *)
Definition stake (now : Z) (request : StakeRequest.t) (stakers : Stakers)
  : completion StakerPosition.t * Stakers :=
  let tier0 :=
    getTierForStake (StakeRequest.amount request) (StakeRequest.lockDays request) in
  let position :=
    match stakers !! StakeRequest.wallet request with
    | Some position =>
        let stakedAmount' :=
          fadd (stakedAmount position) (StakeRequest.amount request) in
        let lockEndDate' :=
          laterDate (lockEndDate position)
                    (lockEndTime now (StakeRequest.lockDays request)) in
        mk (wallet position) stakedAmount' (stakedAt position) lockEndDate'
           (getTierForStake stakedAmount' (StakeRequest.lockDays request))
           (strongHolderScore position) (effectiveWeight position)
           (totalAllocationsReceived position)
           (totalAllocationsValue position) (loyaltyStreak position)
    | None =>
        let shs := 50 in
        mk (StakeRequest.wallet request) (StakeRequest.amount request)
           (ValidDate now)
           (makeDate (lockEndTime now (StakeRequest.lockDays request)))
           tier0 shs (getEffectiveWeight tier0 shs) 0 0 0
    end in
  let position :=
    set_effectiveWeight
      (getEffectiveWeight (tier position) (strongHolderScore position))
      position in
  (Returned position, <[StakeRequest.wallet request := position]> stakers).

(** [async unstake(request)].  A [throw] rejects the promise. *)
Definition unstake (now : Z) (request : UnstakeRequest.t) (stakers : Stakers)
  : completion UnstakeResult.t * Stakers :=
  match stakers !! UnstakeRequest.wallet request with
  | None => (Thrown "No staking position found", stakers)
  | Some position =>
      if Qlt_bool (stakedAmount position) (UnstakeRequest.amount request)
      then (Thrown "Insufficient staked balance", stakers)
      else
        let '(penalty, amountReturned) :=
          if UnstakeRequest.early request && isAfter (lockEndDate position) now
          then
            let penalty := UnstakeRequest.amount request * EARLY_UNSTAKE_PENALTY in
            (penalty, UnstakeRequest.amount request - penalty)
          else (0, UnstakeRequest.amount request) in
        let stakedAmount' := stakedAmount position - UnstakeRequest.amount request in
        if Qle_bool stakedAmount' 0
        then
          (Returned (UnstakeResult.mk amountReturned penalty None),
           delete (UnstakeRequest.wallet request) stakers)
        else
          (* [remainingLockDays] is [NaN] for the Invalid Date: no threshold
             of [getTierForStake] is met then *)
          let tier' :=
            match lockEndDate position with
            | ValidDate lockEnd =>
                let remainingLockDays :=
                  Z.max 0 ((lockEnd - now) / MS_PER_DAY) in
                getTierForStake stakedAmount' (inject_Z remainingLockDays)
            | InvalidDate => public
            end in
          let position' :=
            mk (wallet position) stakedAmount' (stakedAt position)
               (lockEndDate position) tier' (strongHolderScore position)
               (getEffectiveWeight tier' (strongHolderScore position))
               (totalAllocationsReceived position)
               (totalAllocationsValue position) (loyaltyStreak position) in
          (Returned (UnstakeResult.mk amountReturned penalty (Some position')),
           <[UnstakeRequest.wallet request := position']> stakers)
  end.

Definition getPosition (wallet : string) (stakers : Stakers)
  : option StakerPosition.t :=
  stakers !! wallet.

Definition updateSHS (wallet : string) (newSHS : Q) (stakers : Stakers) : Stakers :=
  match stakers !! wallet with
  | Some position =>
      let position' :=
        mk (StakerPosition.wallet position) (stakedAmount position)
           (stakedAt position) (lockEndDate position) (tier position) newSHS
           (getEffectiveWeight (tier position) newSHS)
           (totalAllocationsReceived position)
           (totalAllocationsValue position) (loyaltyStreak position) in
      <[wallet := position']> stakers
  | None => stakers
  end.

Definition hasGuaranteedAllocation (wallet : string) (stakers : Stakers) : bool :=
  match stakers !! wallet with
  | None => false
  | Some position => TierConfig.guaranteedAllocation (TIER_CONFIG (tier position))
  end.

Definition getLotteryBoost (wallet : string) (stakers : Stakers) : Q :=
  match stakers !! wallet with
  | None => TierConfig.lotteryBoost (TIER_CONFIG public)
  | Some position =>
      fmul (TierConfig.lotteryBoost (TIER_CONFIG (tier position)))
           (shsToMultiplier (strongHolderScore position))
  end.

(** [Array.from(this.stakers.values())].  A [gmap] lists its values in the
    order of the keys, a JavaScript [Map] in the order of insertion; the
    statements about the two functions below do not depend on the order. *)
Definition stakerValues (stakers : Stakers) : list StakerPosition.t :=
  map snd (map_to_list stakers).

Definition getStakersByTier (tier : StakingTier) (stakers : Stakers)
  : list StakerPosition.t :=
  List.filter (fun s => bool_decide (StakerPosition.tier s = tier))
              (stakerValues stakers).

Definition getTierStats (stakers : Stakers) : list TierStats.t :=
  let tiers := [diamond; gold; silver; bronze; public] in
  map (fun tier =>
         let stakers := getStakersByTier tier stakers in
         TierStats.mk tier (length stakers)
           (fold_left (fun sum s => sum + stakedAmount s) stakers 0)
           (if (0 <? length stakers)%nat
            then fold_left (fun sum s => sum + strongHolderScore s) stakers 0
                 / inject_Z (Z.of_nat (length stakers))
            else 0))
      tiers.
End StakingTierManager.

(** ** Allocation pools ([allocation.ts]) *)

Inductive AllocationPool : Type :=
| guaranteed | weighted_lottery | public_lottery | fcfs | flipper
| liquidity | trader_rewards.

#[global] Instance AllocationPool_eq_dec : EqDecision AllocationPool.
Proof. solve_decision. Defined.

(** [Object.entries(POOL_CONFIG)], in the order the keys are written. *)
Definition ALL_POOLS : list AllocationPool :=
  [guaranteed; weighted_lottery; public_lottery; fcfs; flipper; liquidity;
   trader_rewards].

Module Mechanism.
Inductive t : Type := prorata | lottery | fcfs | auto.
End Mechanism.

Module PoolStatus.
Inductive t : Type := pending | open | closed | distributed.
#[global] Instance eq_dec : EqDecision t.
Proof. solve_decision. Defined.
End PoolStatus.

Module EntryStatus.
Inductive t : Type := pending | won | lost | filled.
#[global] Instance eq_dec : EqDecision t.
Proof. solve_decision. Defined.
End EntryStatus.

Module PoolConfig.
Record t : Type := mk {
  name : string;
  percent : Q;
  requiresStaking : bool;
  minTier : option StakingTier;
  maxPerWallet : Q;
  mechanism : Mechanism.t;
  vestingDays : Q;
  exitFee : Q
}.
End PoolConfig.

Module Release.
Record t : Type := mk { date : Z; amount : Q; released : bool }.
End Release.

Module VestingSchedule.
Record t : Type := mk {
  totalTokens : Q;
  releasedTokens : Q;
  cliffDays : Q;
  vestingDays : Q;
  startDate : Z;
  releases : list Release.t
}.
End VestingSchedule.

Module AllocationEntry.
Record t : Type := mk {
  wallet : string;
  pool : AllocationPool;
  requestedAmount : Q;
  allocatedTokens : Q;
  allocatedValueUSD : Q;
  weight : Q;
  lotteryTickets : Q;
  vestingSchedule : option VestingSchedule.t;
  status : EntryStatus.t
}.
End AllocationEntry.

Module PoolAllocation.
Record t : Type := mk {
  pool : AllocationPool;
  totalTokens : Q;
  totalValueUSD : Q;
  allocated : Q;
  remaining : Q;
  participants : list AllocationEntry.t;
  status : PoolStatus.t
}.
End PoolAllocation.

Module LaunchAllocation.
Record t : Type := mk {
  launchId : string;
  totalTokens : Q;
  tokenPrice : Q;
  pools : AllocationPool -> PoolAllocation.t;
  participantCount : Q;
  oversubscribed : bool;
  oversubscriptionRatio : Q
}.
End LaunchAllocation.

Module AllocationRequest.
Record t : Type := mk {
  wallet : string;
  launchId : string;
  pool : AllocationPool;
  amountUSD : Q
}.
End AllocationRequest.

(** The result object of [getUserAllocation]. *)
Module UserAllocation.
Record t : Type := mk {
  totalTokens : Q;
  totalValueUSD : Q;
  allocations : list AllocationEntry.t
}.
End UserAllocation.

(** The result object of [submitRequest]. *)
Module SubmitResult.
Record t : Type := mk {
  success : bool;
  error : option string;
  entry : option AllocationEntry.t
}.
End SubmitResult.

Definition POOL_CONFIG (p : AllocationPool) : PoolConfig.t :=
  match p with
  | guaranteed =>
      PoolConfig.mk "Guaranteed Allocation" 30 true (Some gold) 25000
        Mechanism.prorata 0 0
  | weighted_lottery =>
      PoolConfig.mk "Weighted Lottery" 25 true (Some bronze) 5000
        Mechanism.lottery 0 0
  | public_lottery =>
      PoolConfig.mk "Public Lottery" 10 false None 500 Mechanism.lottery 0 0
  | fcfs =>
      PoolConfig.mk "First Come First Serve" 5 false None 100 Mechanism.fcfs 0 0
  | flipper =>
      PoolConfig.mk "Flipper Pool" 5 false None 200 Mechanism.lottery 0 (5 # 100)
  | liquidity =>
      PoolConfig.mk "Liquidity Reserve" 15 false None 0 Mechanism.auto 365 0
  | trader_rewards =>
      PoolConfig.mk "Trader Rewards" 10 false None 0 Mechanism.auto 30 0
  end.

(** A row of [VESTING_TIERS]; [maxUSD = None] stands for [Infinity]. *)
Module VestingTier.
Record t : Type := mk {
  maxUSD : option Q;
  cliffDays : Q;
  vestingDays : Q;
  tgePercent : Q
}.
End VestingTier.

Definition VESTING_TIERS : list VestingTier.t :=
  [VestingTier.mk (Some 500) 0 0 100;
   VestingTier.mk (Some 2000) 0 30 50;
   VestingTier.mk (Some 10000) 7 60 25;
   VestingTier.mk None 14 90 20].

(** The two private maps of [AllocationManager]. *)
Module ManagerState.
Record t : Type := mk {
  launches : gmap string LaunchAllocation.t;
  requests : gmap string (list AllocationRequest.t)
}.
End ManagerState.

(** [launch.pools[pool] = pa]: the launch object is updated in place. *)
Definition set_pool (pool : AllocationPool) (pa : PoolAllocation.t)
    (launch : LaunchAllocation.t) : LaunchAllocation.t :=
  LaunchAllocation.mk (LaunchAllocation.launchId launch)
    (LaunchAllocation.totalTokens launch) (LaunchAllocation.tokenPrice launch)
    (fun q => if decide (q = pool) then pa else LaunchAllocation.pools launch q)
    (LaunchAllocation.participantCount launch)
    (LaunchAllocation.oversubscribed launch)
    (LaunchAllocation.oversubscriptionRatio launch).

Definition set_pool_status (s : PoolStatus.t) (pa : PoolAllocation.t)
  : PoolAllocation.t :=
  PoolAllocation.mk (PoolAllocation.pool pa) (PoolAllocation.totalTokens pa)
    (PoolAllocation.totalValueUSD pa) (PoolAllocation.allocated pa)
    (PoolAllocation.remaining pa) (PoolAllocation.participants pa) s.

Definition set_launches (ls : gmap string LaunchAllocation.t)
    (st : ManagerState.t) : ManagerState.t :=
  ManagerState.mk ls (ManagerState.requests st).

(** The name of a tier, as interpolated in an error message. *)
Definition tier_name (t : StakingTier) : string :=
  match t with
  | diamond => "diamond" | gold => "gold" | silver => "silver"
  | bronze => "bronze" | public => "public"
  end.

(** [tierOrder.indexOf(tier)] for
    [tierOrder = ['public', 'bronze', 'silver', 'gold', 'diamond']]. *)
Definition tierOrder_indexOf (t : StakingTier) : Z :=
  match t with
  | public => 0 | bronze => 1 | silver => 2 | gold => 3 | diamond => 4
  end%Z.

Module AllocationManager.

Definition initializeLaunch (launchId : string) (totalTokens tokenPrice : Q)
    (st : ManagerState.t) : LaunchAllocation.t * ManagerState.t :=
  let pools := fun pool =>
    let config := POOL_CONFIG pool in
    let poolTokens := floorQ (totalTokens * (PoolConfig.percent config / 100)) in
    PoolAllocation.mk pool poolTokens (poolTokens * tokenPrice) 0 poolTokens []
      PoolStatus.pending in
  let launch :=
    LaunchAllocation.mk launchId totalTokens tokenPrice pools 0 false 1 in
  (launch,
   ManagerState.mk (<[launchId := launch]> (ManagerState.launches st))
                   (<[launchId := []]> (ManagerState.requests st))).

(** [validateRequest]: [None] is [{ valid: true }], [Some error] is
    [{ valid: false, error }]. *)
Definition validateRequest (stakers : Stakers) (request : AllocationRequest.t)
    (poolConfig : PoolConfig.t) : option string :=
  if PoolConfig.requiresStaking poolConfig then
    match StakingTierManager.getPosition (AllocationRequest.wallet request) stakers with
    | None => Some "Staking required for this pool"
    | Some position =>
        match PoolConfig.minTier poolConfig with
        | Some minTier =>
            let minIndex := tierOrder_indexOf minTier in
            let userIndex := tierOrder_indexOf (StakerPosition.tier position) in
            if (userIndex <? minIndex)%Z
            then Some ("Minimum tier required: " +:+ tier_name minTier
                       +:+ ". Your tier: "
                       +:+ tier_name (StakerPosition.tier position))
            else None
        | None => None
        end
    end
  else None.

Definition failure (error : string) : SubmitResult.t :=
  SubmitResult.mk false (Some error) None.

(** [submitRequest]; [stakers] is the ledger of the global [stakingManager]. *)
Definition submitRequest (stakers : Stakers) (request : AllocationRequest.t)
    (st : ManagerState.t) : SubmitResult.t * ManagerState.t :=
  match ManagerState.launches st !! AllocationRequest.launchId request with
  | None => (failure "Launch not found", st)
  | Some launch =>
      let poolConfig := POOL_CONFIG (AllocationRequest.pool request) in
      let pool := LaunchAllocation.pools launch (AllocationRequest.pool request) in
      if negb (bool_decide (PoolAllocation.status pool = PoolStatus.open))
      then (failure "Pool not open for requests", st)
      else
        match validateRequest stakers request poolConfig with
        | Some error => (failure error, st)
        | None =>
            let amountUSD :=
              if Qlt_bool (PoolConfig.maxPerWallet poolConfig)
                          (AllocationRequest.amountUSD request)
              then PoolConfig.maxPerWallet poolConfig
              else AllocationRequest.amountUSD request in
            let request' :=
              AllocationRequest.mk (AllocationRequest.wallet request)
                (AllocationRequest.launchId request)
                (AllocationRequest.pool request) amountUSD in
            let position :=
              StakingTierManager.getPosition (AllocationRequest.wallet request)
                stakers in
            let weight :=
              match position with
              | Some p =>
                  if Qeq_bool (StakerPosition.effectiveWeight p) 0
                  then TierConfig.allocationWeight (TIER_CONFIG public)
                  else StakerPosition.effectiveWeight p
              | None => TierConfig.allocationWeight (TIER_CONFIG public)
              end in
            let lotteryBoost :=
              StakingTierManager.getLotteryBoost
                (AllocationRequest.wallet request) stakers in
            let entry :=
              AllocationEntry.mk (AllocationRequest.wallet request)
                (AllocationRequest.pool request) amountUSD 0 0 weight
                (floorQ (fmul amountUSD lotteryBoost)) None EntryStatus.pending in
            let pool' :=
              PoolAllocation.mk (PoolAllocation.pool pool)
                (PoolAllocation.totalTokens pool)
                (PoolAllocation.totalValueUSD pool)
                (PoolAllocation.allocated pool) (PoolAllocation.remaining pool)
                (PoolAllocation.participants pool ++ [entry])
                (PoolAllocation.status pool) in
            let launch' := set_pool (AllocationRequest.pool request) pool' launch in
            let requests :=
              default [] (ManagerState.requests st
                            !! AllocationRequest.launchId request) in
            (SubmitResult.mk true None (Some entry),
             ManagerState.mk
               (<[AllocationRequest.launchId request := launch']>
                  (ManagerState.launches st))
               (<[AllocationRequest.launchId request := requests ++ [request']]>
                  (ManagerState.requests st)))
        end
  end.

(** [createVestingSchedule(amountUSD, tokens)] *)
Definition createVestingSchedule (now : Z) (amountUSD tokens : Q)
  : VestingSchedule.t :=
  let tier :=
    default (List.last VESTING_TIERS (VestingTier.mk None 14 90 20))
      (List.find
         (fun t => match VestingTier.maxUSD t with
                   | Some maxUSD => Qle_bool amountUSD maxUSD
                   | None => true
                   end)
         VESTING_TIERS) in
  if Qeq_bool (VestingTier.vestingDays tier) 0 then
    VestingSchedule.mk tokens tokens 0 0 now [Release.mk now tokens true]
  else
    let tgeAmount := floorQ (tokens * (VestingTier.tgePercent tier / 100)) in
    let vestingAmount := tokens - tgeAmount in
    let vestingReleases := 4%nat in
    let releaseAmount :=
      floorQ (vestingAmount / inject_Z (Z.of_nat vestingReleases)) in
    let releaseInterval :=
      VestingTier.vestingDays tier / inject_Z (Z.of_nat vestingReleases) in
    let release (i : nat) : Release.t :=
      let daysFromStart :=
        VestingTier.cliffDays tier
        + releaseInterval * (inject_Z (Z.of_nat i) + 1) in
      Release.mk
        (Qtrunc (inject_Z now + daysFromStart * inject_Z MS_PER_DAY))
        (if Nat.eqb i (vestingReleases - 1)
         then vestingAmount
              - releaseAmount * (inject_Z (Z.of_nat vestingReleases) - 1)
         else releaseAmount)
        false in
    VestingSchedule.mk tokens 0 (VestingTier.cliffDays tier)
      (VestingTier.vestingDays tier) now
      (Release.mk now tgeAmount false :: map release (seq 0 vestingReleases)).

(** The token count a participant of the guaranteed pool ends with: the
    floored pro-rata share, capped at the requested amount. *)
Definition guaranteedFinalTokens (poolTokens totalWeight tokenPrice : Q)
    (participant : AllocationEntry.t) : Q :=
  let share := fdiv (AllocationEntry.weight participant) totalWeight in
  let allocatedTokens := floorQ (fmul poolTokens share) in
  Qmin allocatedTokens
       (floorQ (fdiv (AllocationEntry.requestedAmount participant) tokenPrice)).

(** The body of the loop over the participants of the guaranteed pool. *)
Definition fillGuaranteed (now : Z) (poolTokens totalWeight tokenPrice : Q)
    (participant : AllocationEntry.t) : AllocationEntry.t :=
  let finalTokens :=
    guaranteedFinalTokens poolTokens totalWeight tokenPrice participant in
  let finalUSD := fmul finalTokens tokenPrice in
  AllocationEntry.mk (AllocationEntry.wallet participant)
    (AllocationEntry.pool participant)
    (AllocationEntry.requestedAmount participant) finalTokens finalUSD
    (AllocationEntry.weight participant)
    (AllocationEntry.lotteryTickets participant)
    (Some (createVestingSchedule now finalUSD finalTokens))
    EntryStatus.filled.

(** [for (const participant of pool.participants) { ... }]: the updated
    participants and the running [pool.allocated]. *)
Fixpoint distributeGuaranteed (now : Z) (poolTokens totalWeight tokenPrice : Q)
    (participants : list AllocationEntry.t) (allocated : Q)
  : list AllocationEntry.t * Q :=
  match participants with
  | [] => ([], allocated)
  | participant :: rest =>
      let participant' :=
        fillGuaranteed now poolTokens totalWeight tokenPrice participant in
      let '(rest', allocated') :=
        distributeGuaranteed now poolTokens totalWeight tokenPrice rest
          (allocated + AllocationEntry.allocatedTokens participant') in
      (participant' :: rest', allocated')
  end.

(** [executeGuaranteedPool] on the launch object. *)
Definition executeGuaranteedPoolOn (now : Z) (launch : LaunchAllocation.t)
  : LaunchAllocation.t :=
  let pool := LaunchAllocation.pools launch guaranteed in
  match PoolAllocation.participants pool with
  | [] => launch
  | _ :: _ =>
      let totalWeight :=
        fold_left (fun sum p => fadd sum (AllocationEntry.weight p))
                  (PoolAllocation.participants pool) 0 in
      let '(participants', allocated') :=
        distributeGuaranteed now (PoolAllocation.totalTokens pool) totalWeight
          (LaunchAllocation.tokenPrice launch)
          (PoolAllocation.participants pool) (PoolAllocation.allocated pool) in
      set_pool guaranteed
        (PoolAllocation.mk (PoolAllocation.pool pool)
           (PoolAllocation.totalTokens pool) (PoolAllocation.totalValueUSD pool)
           allocated' (PoolAllocation.totalTokens pool - allocated')
           participants' PoolStatus.distributed)
        launch
  end.

Definition executeGuaranteedPool (now : Z) (launchId : string)
    (st : ManagerState.t) : ManagerState.t :=
  match ManagerState.launches st !! launchId with
  | None => st
  | Some launch =>
      set_launches
        (<[launchId := executeGuaranteedPoolOn now launch]>
           (ManagerState.launches st)) st
  end.

(** The ticket list of a lottery: each wallet pushed [lotteryTickets] times
    ([for (let i = 0; i < participant.lotteryTickets; i++)]). *)
Definition buildTickets (participants : list AllocationEntry.t) : list string :=
  flat_map
    (fun participant =>
       repeat (AllocationEntry.wallet participant)
              (Z.to_nat (Qceiling (AllocationEntry.lotteryTickets participant))))
    participants.

(** [[tickets[i], tickets[j]] = [tickets[j], tickets[i]]], both in range. *)
Definition swapTickets (i j : nat) (tickets : list string) : list string :=
  match tickets !! i, tickets !! j with
  | Some ti, Some tj => <[j := ti]> (<[i := tj]> tickets)
  | _, _ => tickets
  end.

(** The Fisher-Yates loop from index [i] down to 1.  [random k] is the value
    of the [k]-th call of [Math.random()] in this execution. *)
Fixpoint shuffleFrom (random : nat -> Q) (i k : nat) (tickets : list string)
  : list string :=
  match i with
  | O => tickets
  | S i' =>
      let j := Z.to_nat (Qfloor (random k * (inject_Z (Z.of_nat i) + 1))) in
      shuffleFrom random i' (S k) (swapTickets i j tickets)
  end.

Definition shuffleTickets (random : nat -> Q) (tickets : list string)
  : list string :=
  shuffleFrom random (length tickets - 1) 0 tickets.

(** The variables the drawing loop updates. *)
Module Draw.
Record t : Type := mk {
  participants : list AllocationEntry.t;
  allocated : Q;
  remainingTokens : Q;
  winners : gset string
}.
End Draw.

(** One winner of a lottery pool. *)
Definition winLottery (now : Z) (poolConfig : PoolConfig.t) (tokenPrice : Q)
    (remainingTokens : Q) (participant : AllocationEntry.t) : AllocationEntry.t :=
  let maxTokens := floorQ (fdiv (PoolConfig.maxPerWallet poolConfig) tokenPrice) in
  let requestedTokens :=
    floorQ (fdiv (AllocationEntry.requestedAmount participant) tokenPrice) in
  let allocatedTokens := Qmin (Qmin maxTokens requestedTokens) remainingTokens in
  let allocatedValueUSD := fmul allocatedTokens tokenPrice in
  AllocationEntry.mk (AllocationEntry.wallet participant)
    (AllocationEntry.pool participant)
    (AllocationEntry.requestedAmount participant) allocatedTokens
    allocatedValueUSD (AllocationEntry.weight participant)
    (AllocationEntry.lotteryTickets participant)
    (Some (createVestingSchedule now allocatedValueUSD allocatedTokens))
    EntryStatus.won.

(** [for (const wallet of tickets) { ... }] *)
Fixpoint drawWinners (now : Z) (poolConfig : PoolConfig.t) (tokenPrice : Q)
    (tickets : list string) (d : Draw.t) : Draw.t :=
  match tickets with
  | [] => d
  | wallet :: rest =>
      if Qle_bool (Draw.remainingTokens d) 0 then d
      else if bool_decide (wallet ∈ Draw.winners d)
      then drawWinners now poolConfig tokenPrice rest d
      else
        match list_find (fun p => AllocationEntry.wallet p = wallet)
                        (Draw.participants d) with
        | None => drawWinners now poolConfig tokenPrice rest d
        | Some (idx, participant) =>
            let participant' :=
              winLottery now poolConfig tokenPrice (Draw.remainingTokens d)
                participant in
            let allocatedTokens := AllocationEntry.allocatedTokens participant' in
            drawWinners now poolConfig tokenPrice rest
              (Draw.mk (<[idx := participant']> (Draw.participants d))
                 (Draw.allocated d + allocatedTokens)
                 (Draw.remainingTokens d - allocatedTokens)
                 ({[wallet]} ∪ Draw.winners d))
        end
  end.

(** [if (participant.status === 'pending') participant.status = 'lost'] *)
Definition markLost (participant : AllocationEntry.t) : AllocationEntry.t :=
  if bool_decide (AllocationEntry.status participant = EntryStatus.pending)
  then
    AllocationEntry.mk (AllocationEntry.wallet participant)
      (AllocationEntry.pool participant)
      (AllocationEntry.requestedAmount participant)
      (AllocationEntry.allocatedTokens participant)
      (AllocationEntry.allocatedValueUSD participant)
      (AllocationEntry.weight participant)
      (AllocationEntry.lotteryTickets participant)
      (AllocationEntry.vestingSchedule participant) EntryStatus.lost
  else participant.

(** [executeLotteryPool] on the launch object. *)
Definition executeLotteryPoolOn (now : Z) (random : nat -> Q)
    (pool : AllocationPool) (launch : LaunchAllocation.t) : LaunchAllocation.t :=
  let poolData := LaunchAllocation.pools launch pool in
  match PoolAllocation.participants poolData with
  | [] => launch
  | _ :: _ =>
      let tickets :=
        shuffleTickets random (buildTickets (PoolAllocation.participants poolData)) in
      let d :=
        drawWinners now (POOL_CONFIG pool) (LaunchAllocation.tokenPrice launch)
          tickets
          (Draw.mk (PoolAllocation.participants poolData)
             (PoolAllocation.allocated poolData)
             (PoolAllocation.totalTokens poolData) ∅) in
      set_pool pool
        (PoolAllocation.mk (PoolAllocation.pool poolData)
           (PoolAllocation.totalTokens poolData)
           (PoolAllocation.totalValueUSD poolData) (Draw.allocated d)
           (Draw.remainingTokens d) (map markLost (Draw.participants d))
           PoolStatus.distributed)
        launch
  end.

Definition executeLotteryPool (now : Z) (random : nat -> Q) (launchId : string)
    (pool : AllocationPool) (st : ManagerState.t) : ManagerState.t :=
  match ManagerState.launches st !! launchId with
  | None => st
  | Some launch =>
      set_launches
        (<[launchId := executeLotteryPoolOn now random pool launch]>
           (ManagerState.launches st)) st
  end.

(** One served request of the FCFS pool (no vesting schedule is attached). *)
Definition fillFCFS (allocatedTokens tokenPrice : Q)
    (participant : AllocationEntry.t) : AllocationEntry.t :=
  AllocationEntry.mk (AllocationEntry.wallet participant)
    (AllocationEntry.pool participant)
    (AllocationEntry.requestedAmount participant) allocatedTokens
    (fmul allocatedTokens tokenPrice) (AllocationEntry.weight participant)
    (AllocationEntry.lotteryTickets participant)
    (AllocationEntry.vestingSchedule participant) EntryStatus.filled.

(** [for (const request of fcfsRequests) { ... }]; the [winners] component
    of the loop state is not used by this pool. *)
Fixpoint serveFCFS (poolConfig : PoolConfig.t) (tokenPrice : Q)
    (fcfsRequests : list AllocationRequest.t) (d : Draw.t) : Draw.t :=
  match fcfsRequests with
  | [] => d
  | request :: rest =>
      if Qle_bool (Draw.remainingTokens d) 0 then d
      else
        match list_find
                (fun p => AllocationEntry.wallet p = AllocationRequest.wallet request)
                (Draw.participants d) with
        | None => serveFCFS poolConfig tokenPrice rest d
        | Some (idx, participant) =>
            let maxTokens :=
              floorQ (fdiv (PoolConfig.maxPerWallet poolConfig) tokenPrice) in
            let allocatedTokens := Qmin maxTokens (Draw.remainingTokens d) in
            serveFCFS poolConfig tokenPrice rest
              (Draw.mk
                 (<[idx := fillFCFS allocatedTokens tokenPrice participant]>
                    (Draw.participants d))
                 (Draw.allocated d + allocatedTokens)
                 (Draw.remainingTokens d - allocatedTokens)
                 (Draw.winners d))
        end
  end.

(** [executeFCFSPool] on the launch object, [requests] being the request log
    of the launch; the comparator of the [sort] is constantly 0, so the
    filtered requests stay in submission order. *)
Definition executeFCFSPoolOn (requests : list AllocationRequest.t)
    (launch : LaunchAllocation.t) : LaunchAllocation.t :=
  let pool := LaunchAllocation.pools launch fcfs in
  let poolConfig := POOL_CONFIG fcfs in
  let fcfsRequests :=
    List.filter (fun r => bool_decide (AllocationRequest.pool r = fcfs)) requests in
  let d :=
    serveFCFS poolConfig (LaunchAllocation.tokenPrice launch) fcfsRequests
      (Draw.mk (PoolAllocation.participants pool)
         (PoolAllocation.allocated pool) (PoolAllocation.totalTokens pool) ∅) in
  set_pool fcfs
    (PoolAllocation.mk (PoolAllocation.pool pool)
       (PoolAllocation.totalTokens pool) (PoolAllocation.totalValueUSD pool)
       (Draw.allocated d) (Draw.remainingTokens d)
       (map markLost (Draw.participants d)) PoolStatus.distributed)
    launch.

Definition executeFCFSPool (launchId : string) (st : ManagerState.t)
  : ManagerState.t :=
  match ManagerState.launches st !! launchId with
  | None => st
  | Some launch =>
      let requests := default [] (ManagerState.requests st !! launchId) in
      set_launches
        (<[launchId := executeFCFSPoolOn requests launch]>
           (ManagerState.launches st)) st
  end.

(** [x.status === 'filled' || x.status === 'won'] *)
Definition isAwarded (x : AllocationEntry.t) : bool :=
  bool_decide (AllocationEntry.status x = EntryStatus.filled)
  || bool_decide (AllocationEntry.status x = EntryStatus.won).

Definition set_participantCount (n : Q) (launch : LaunchAllocation.t)
  : LaunchAllocation.t :=
  LaunchAllocation.mk (LaunchAllocation.launchId launch)
    (LaunchAllocation.totalTokens launch) (LaunchAllocation.tokenPrice launch)
    (LaunchAllocation.pools launch) n (LaunchAllocation.oversubscribed launch)
    (LaunchAllocation.oversubscriptionRatio launch).

(** [executeAllPools].  [randomW], [randomP] and [randomF] are the samples of
    [Math.random()] read by the three lotteries, in the order they run. *)
Definition executeAllPools (now : Z) (randomW randomP randomF : nat -> Q)
    (launchId : string) (st : ManagerState.t) : ManagerState.t :=
  let st := executeGuaranteedPool now launchId st in
  let st := executeLotteryPool now randomW launchId weighted_lottery st in
  let st := executeLotteryPool now randomP launchId public_lottery st in
  let st := executeLotteryPool now randomF launchId flipper st in
  let st := executeFCFSPool launchId st in
  match ManagerState.launches st !! launchId with
  | Some launch =>
      let participantCount :=
        fold_left
          (fun sum pool =>
             sum
             + inject_Z
                 (Z.of_nat
                    (length
                       (List.filter isAwarded
                          (PoolAllocation.participants
                             (LaunchAllocation.pools launch pool))))))
          ALL_POOLS 0 in
      set_launches
        (<[launchId := set_participantCount participantCount launch]>
           (ManagerState.launches st)) st
  | None => st
  end.

Definition openPool (launchId : string) (pool : AllocationPool)
    (st : ManagerState.t) : ManagerState.t :=
  match ManagerState.launches st !! launchId with
  | Some launch =>
      set_launches
        (<[launchId :=
             set_pool pool
               (set_pool_status PoolStatus.open (LaunchAllocation.pools launch pool))
               launch]> (ManagerState.launches st)) st
  | None => st
  end.

Definition closePool (launchId : string) (pool : AllocationPool)
    (st : ManagerState.t) : ManagerState.t :=
  match ManagerState.launches st !! launchId with
  | Some launch =>
      set_launches
        (<[launchId :=
             set_pool pool
               (set_pool_status PoolStatus.closed (LaunchAllocation.pools launch pool))
               launch]> (ManagerState.launches st)) st
  | None => st
  end.

(** The body of the loop of [getUserAllocation] over the pools. *)
Definition addUserAllocation (wallet : string) (launch : LaunchAllocation.t)
    (acc : UserAllocation.t) (pool : AllocationPool) : UserAllocation.t :=
  match List.find (fun p => bool_decide (AllocationEntry.wallet p = wallet))
                  (PoolAllocation.participants (LaunchAllocation.pools launch pool))
  with
  | Some entry =>
      if isAwarded entry
      then UserAllocation.mk
             (UserAllocation.totalTokens acc + AllocationEntry.allocatedTokens entry)
             (UserAllocation.totalValueUSD acc
              + AllocationEntry.allocatedValueUSD entry)
             (UserAllocation.allocations acc ++ [entry])
      else acc
  | None => acc
  end.

Definition getUserAllocation (launchId wallet : string) (st : ManagerState.t)
  : UserAllocation.t :=
  match ManagerState.launches st !! launchId with
  | None => UserAllocation.mk 0 0 []
  | Some launch =>
      fold_left (addUserAllocation wallet launch) ALL_POOLS
                (UserAllocation.mk 0 0 [])
  end.

Definition getLaunchStatus (launchId : string) (st : ManagerState.t)
  : option LaunchAllocation.t :=
  ManagerState.launches st !! launchId.
End AllocationManager.

(** ** Predicates and scenarios used by the properties *)

(** The rank of a tier in the ordering public < bronze < silver < gold < diamond. *)
Definition tier_le (t1 t2 : StakingTier) : Prop :=
  (tierOrder_indexOf t1 <= tierOrder_indexOf t2)%Z.

(** The score of a position lies in [0, 100]. *)
Definition shs_in_range (p : StakerPosition.t) : Prop :=
  0 <= StakerPosition.strongHolderScore p <= 100.

(** Every position of the ledger has its score in [0, 100]. *)
Definition shs_bounded (stakers : Stakers) : Prop :=
  map_Forall (fun _ p => shs_in_range p) stakers.

(** A ledger with the single wallet ["A"], 100 tokens locked for 30 days at
    time 0. *)
Definition ledger_A_100 : Stakers :=
  snd (StakingTierManager.stake 0 (StakeRequest.mk "A" 100 30) ∅).

(** The [Date] that [stake] computes for a lock of [lockDays] from [now]. *)
Definition lockEndFrom (now : Z) (lockDays : Q) : Date :=
  makeDate (StakingTierManager.lockEndTime now lockDays).

(** The sum of a list of numbers. *)
Definition Qsum (l : list Q) : Q := fold_right Qplus 0 l.

(** The sum of the release amounts of a schedule. *)
Definition sumReleases (schedule : VestingSchedule.t) : Q :=
  Qsum (map Release.amount (VestingSchedule.releases schedule)).

(** The TGE percentage of the row of [VESTING_TIERS] that applies above $500. *)
Definition tgePercentAbove500 (amountUSD : Q) : Q :=
  if Qle_bool amountUSD 2000 then 50
  else if Qle_bool amountUSD 10000 then 25 else 20.

(** The total weight of a list of participants, as [executeGuaranteedPool]
    computes it ([reduce((sum, p) => sum + p.weight, 0)]). *)
Definition totalWeightOf (participants : list AllocationEntry.t) : Q :=
  fold_left (fun sum p => fadd sum (AllocationEntry.weight p)) participants 0.

(** A pool of a launch of the manager, if the launch exists. *)
Definition poolOf (launchId : string) (pool : AllocationPool)
    (st : ManagerState.t) : option PoolAllocation.t :=
  (fun launch => LaunchAllocation.pools launch pool)
    <$> (ManagerState.launches st !! launchId).


(** The manager before any launch. *)
Definition noLaunches : ManagerState.t := ManagerState.mk ∅ ∅.

(** Scenario: a gold staker with score 100 and a diamond staker with score
    0, so that their weights are 10 and 5; a launch of 1,000,000 tokens at
    $0.0625 (300,000 tokens in the guaranteed pool); both request $25,000,
    the price of 400,000 tokens, from the guaranteed pool. *)
Definition weights_10_5_stakers : Stakers :=
  let s := snd (StakingTierManager.stake 0 (StakeRequest.mk "A" 50000 90) ∅) in
  let s := snd (StakingTierManager.stake 0 (StakeRequest.mk "B" 100000 180) s) in
  let s := StakingTierManager.updateSHS "A" 100 s in
  StakingTierManager.updateSHS "B" 0 s.

Definition weights_10_5_requested : ManagerState.t :=
  let st := snd (AllocationManager.initializeLaunch "L" 1000000 (1 # 16) noLaunches) in
  let st := AllocationManager.openPool "L" guaranteed st in
  let st :=
    snd (AllocationManager.submitRequest weights_10_5_stakers
           (AllocationRequest.mk "A" "L" guaranteed 25000) st) in
  let st :=
    snd (AllocationManager.submitRequest weights_10_5_stakers
           (AllocationRequest.mk "B" "L" guaranteed 25000) st) in
  AllocationManager.closePool "L" guaranteed st.

(** Scenario: two diamond stakers, the second with score 75 (weights 12.5
    and 16.25), request $25,000 each from the guaranteed pool of a launch of
    77 tokens at $1 (23 tokens in the pool).  The exact shares are 10 and 13
    tokens. *)
Definition rounded_share_stakers : Stakers :=
  let s := snd (StakingTierManager.stake 0 (StakeRequest.mk "A" 100000 180) ∅) in
  let s := snd (StakingTierManager.stake 0 (StakeRequest.mk "B" 100000 180) s) in
  StakingTierManager.updateSHS "B" 75 s.

Definition rounded_share_request : ManagerState.t :=
  let st := snd (AllocationManager.initializeLaunch "L" 77 1 noLaunches) in
  let st := AllocationManager.openPool "L" guaranteed st in
  let st :=
    snd (AllocationManager.submitRequest rounded_share_stakers
           (AllocationRequest.mk "A" "L" guaranteed 25000) st) in
  let st :=
    snd (AllocationManager.submitRequest rounded_share_stakers
           (AllocationRequest.mk "B" "L" guaranteed 25000) st) in
  AllocationManager.closePool "L" guaranteed st.

(** Scenario: one diamond staker requests from the guaranteed pool of a
    launch of 1,000 tokens at $1 (300 tokens in the pool). *)
Definition single_staker : Stakers :=
  snd (StakingTierManager.stake 0 (StakeRequest.mk "A" 100000 180) ∅).

Definition single_request : ManagerState.t :=
  let st := snd (AllocationManager.initializeLaunch "L" 1000 1 noLaunches) in
  let st := AllocationManager.openPool "L" guaranteed st in
  let st :=
    snd (AllocationManager.submitRequest single_staker
           (AllocationRequest.mk "A" "L" guaranteed 25000) st) in
  AllocationManager.closePool "L" guaranteed st.

(** A participant of the guaranteed pool who gets less than the exact
    pro-rata share [poolTokens * weight / sum of the weights]: the floored
    share was capped by the requested tokens, or the floored share that the
    code computes is below the exact share (the floor dropped a fraction, or
    a rounding took the product below a whole number). *)
Definition cappedOrFloored (poolTokens tokenPrice : Q)
    (participants : list AllocationEntry.t) (p : AllocationEntry.t) : Prop :=
  let share :=
    floorQ (fmul poolTokens
                 (fdiv (AllocationEntry.weight p) (totalWeightOf participants))) in
  floorQ (fdiv (AllocationEntry.requestedAmount p) tokenPrice) < share
  \/ share
     < poolTokens
       * (AllocationEntry.weight p / Qsum (map AllocationEntry.weight participants)).

(** A call of one of the three distribution methods on a launch. *)
Inductive Distribution : Type :=
| GuaranteedRun (now : Z)
| LotteryRun (now : Z) (random : nat -> Q) (pool : AllocationPool)
| FCFSRun.

(** The pool that a distribution call writes. *)
Definition distributedPool (d : Distribution) : AllocationPool :=
  match d with
  | GuaranteedRun _ => guaranteed
  | LotteryRun _ _ pool => pool
  | FCFSRun => fcfs
  end.

Definition runDistribution (launchId : string) (st : ManagerState.t)
    (d : Distribution) : ManagerState.t :=
  match d with
  | GuaranteedRun now => AllocationManager.executeGuaranteedPool now launchId st
  | LotteryRun now random pool =>
      AllocationManager.executeLotteryPool now random launchId pool st
  | FCFSRun => AllocationManager.executeFCFSPool launchId st
  end.

(** A sequence of distribution calls on a launch, in order. *)
Definition runDistributions (launchId : string) (ds : list Distribution)
    (st : ManagerState.t) : ManagerState.t :=
  fold_left (runDistribution launchId) ds st.

(** The same call on the launch object, [requests] being the request log. *)
Definition runDistributionOn (requests : list AllocationRequest.t)
    (launch : LaunchAllocation.t) (d : Distribution) : LaunchAllocation.t :=
  match d with
  | GuaranteedRun now => AllocationManager.executeGuaranteedPoolOn now launch
  | LotteryRun now random pool =>
      AllocationManager.executeLotteryPoolOn now random pool launch
  | FCFSRun => AllocationManager.executeFCFSPoolOn requests launch
  end.

(** How many calls of a sequence distribute a given pool. *)
Definition timesDistributed (pool : AllocationPool) (ds : list Distribution)
  : nat :=
  length (List.filter (fun d => bool_decide (distributedPool d = pool)) ds).



(** Scenario: a diamond and a gold staker (weights 12.5 and 6.25) request
    $25,000 each from the guaranteed pool of a launch of 335 tokens at $1
    (100 tokens in the pool). *)
Definition two_stakers : Stakers :=
  let s := snd (StakingTierManager.stake 0 (StakeRequest.mk "A" 100000 180) ∅) in
  snd (StakingTierManager.stake 0 (StakeRequest.mk "B" 50000 90) s).

Definition floor_loss_request : ManagerState.t :=
  let st := snd (AllocationManager.initializeLaunch "L" 335 1 noLaunches) in
  let st := AllocationManager.openPool "L" guaranteed st in
  let st :=
    snd (AllocationManager.submitRequest two_stakers
           (AllocationRequest.mk "A" "L" guaranteed 25000) st) in
  let st :=
    snd (AllocationManager.submitRequest two_stakers
           (AllocationRequest.mk "B" "L" guaranteed 25000) st) in
  AllocationManager.closePool "L" guaranteed st.

(** Every position of the ledger carries the weight of its tier and score. *)
Definition weight_consistent (stakers : Stakers) : Prop :=
  map_Forall
    (fun _ p =>
       StakerPosition.effectiveWeight p
       = StakingTierManager.getEffectiveWeight (StakerPosition.tier p)
           (StakerPosition.strongHolderScore p))
    stakers.

(** The offsets from the start, in milliseconds, of the five releases of a
    vested schedule. *)
Definition releaseOffsets (amountUSD : Q) : list Z :=
  (if Qle_bool amountUSD 2000
   then [0; 648000000; 1296000000; 1944000000; 2592000000]
   else if Qle_bool amountUSD 10000
   then [0; 1900800000; 3196800000; 4492800000; 5788800000]
   else [0; 3153600000; 5097600000; 7041600000; 8985600000])%Z.

(** What an entry records of its request: the fields that [submitRequest]
    fills in and that no distribution writes. *)
Definition entryRequest (p : AllocationEntry.t)
  : string * AllocationPool * Q * Q * Q :=
  (AllocationEntry.wallet p, AllocationEntry.pool p,
   AllocationEntry.requestedAmount p, AllocationEntry.weight p,
   AllocationEntry.lotteryTickets p).

(** What the distributions keep of a launch: the size of every pool and the
    requests recorded in the guaranteed pool. *)
Definition sameSetting (launch0 launch : LaunchAllocation.t) : Prop :=
  (forall pool,
     PoolAllocation.totalTokens (LaunchAllocation.pools launch pool)
     = PoolAllocation.totalTokens (LaunchAllocation.pools launch0 pool))
  /\ map entryRequest
         (PoolAllocation.participants (LaunchAllocation.pools launch guaranteed))
     = map entryRequest
         (PoolAllocation.participants (LaunchAllocation.pools launch0 guaranteed)).

(** A lottery winner holds at most the cap of the pool and at most the
    tokens it asked for. *)
Definition winnerWithinCaps (maxPerWallet tokenPrice : Q)
    (p : AllocationEntry.t) : Prop :=
  AllocationEntry.status p = EntryStatus.won ->
  AllocationEntry.allocatedTokens p <= floorQ (fdiv maxPerWallet tokenPrice)
  /\ AllocationEntry.allocatedTokens p
     <= floorQ (fdiv (AllocationEntry.requestedAmount p) tokenPrice).

(** Scenario: two wallets without a position ask for $500 and $300 from the
    public lottery of a launch of 1,000 tokens at $1 (100 tokens in the
    pool), and a third asks for $50 from the FCFS pool (50 tokens). *)
Definition lottery_request : ManagerState.t :=
  let st := snd (AllocationManager.initializeLaunch "L" 1000 1 noLaunches) in
  let st := AllocationManager.openPool "L" public_lottery st in
  let st := AllocationManager.openPool "L" fcfs st in
  let st :=
    snd (AllocationManager.submitRequest ∅
           (AllocationRequest.mk "A" "L" public_lottery 500) st) in
  let st :=
    snd (AllocationManager.submitRequest ∅
           (AllocationRequest.mk "B" "L" public_lottery 300) st) in
  let st :=
    snd (AllocationManager.submitRequest ∅
           (AllocationRequest.mk "C" "L" fcfs 50) st) in
  let st := AllocationManager.closePool "L" public_lottery st in
  AllocationManager.closePool "L" fcfs st.

Definition lottery_launch : LaunchAllocation.t :=
  default (fst (AllocationManager.initializeLaunch "L" 1000 1 noLaunches))
          (ManagerState.launches lottery_request !! "L").

(** * Properties of the numbers *)

Section QBool.

Lemma Qle_bool_false (a b : Q) : Qle_bool a b = false -> b < a.
Proof.
  intros H. apply Qnot_le_lt. intros Hle.
  apply Qle_bool_iff in Hle. congruence.
Qed.

Lemma Qlt_bool_true (a b : Q) : Qlt_bool a b = true <-> a < b.
Proof.
  unfold Qlt_bool. split.
  - intros H. apply Qle_bool_false. now destruct (Qle_bool b a).
  - intros H. destruct (Qle_bool b a) eqn:E; [| reflexivity].
    apply Qle_bool_iff in E. lra.
Qed.

Lemma Qlt_bool_false (a b : Q) : Qlt_bool a b = false <-> b <= a.
Proof.
  unfold Qlt_bool. split.
  - intros H. apply Qle_bool_iff. now destruct (Qle_bool b a).
  - intros H. apply Qle_bool_iff in H. now rewrite H.
Qed.

Lemma Qle_bool_lt (a b : Q) : b < a -> Qle_bool a b = false.
Proof.
  intros H. destruct (Qle_bool a b) eqn:E; [| reflexivity].
  apply Qle_bool_iff in E. lra.
Qed.

End QBool.

(** Turns the boolean tests of the goal into hypotheses on rationals. *)
Ltac case_Qle :=
  match goal with
  | |- context [Qle_bool ?a ?b] =>
      let E := fresh "E" in
      destruct (Qle_bool a b) eqn:E;
      [apply Qle_bool_iff in E | apply Qle_bool_false in E];
      cbn [andb]
  end.

(** ** The binary64 rounding *)

Section Pow2.

Lemma pow2_pos (k : Z) : 0 < pow2 k.
Proof. apply Qpower_0_lt. reflexivity. Qed.

Lemma pow2_add (a b : Z) : pow2 (a + b) == pow2 a * pow2 b.
Proof. apply Qpower_plus. discriminate. Qed.

Lemma pow2_cancel (k : Z) : pow2 k * pow2 (- k) == 1.
Proof. rewrite <- pow2_add, Z.add_opp_diag_r. reflexivity. Qed.

Lemma pow2_succ (k : Z) : pow2 (k + 1) == 2 * pow2 k.
Proof. rewrite pow2_add. change (pow2 1) with 2. ring. Qed.

Lemma pow2_le (a b : Z) : (a <= b)%Z -> pow2 a <= pow2 b.
Proof. intros H. apply Qpower_le_compat_l; [exact H | discriminate]. Qed.

Lemma pow2_lt_inv (a b : Z) : pow2 a < pow2 b -> (a < b)%Z.
Proof. intros H. apply (Qpower_lt_compat_l_inv 2); [exact H | reflexivity]. Qed.

Lemma pow2_inject (n : Z) : (0 <= n)%Z -> inject_Z (2 ^ n) == pow2 n.
Proof. intros H. apply (Zpower_Qpower 2 n H). Qed.

End Pow2.

Section Exponent.

Lemma log2_bounds (n : Z) :
  (0 < n)%Z ->
  pow2 (Z.log2 n) <= inject_Z n /\ inject_Z n < 2 * pow2 (Z.log2 n).
Proof.
  intros Hn.
  destruct (Z.log2_spec n Hn) as [Hl Hu].
  pose proof (Z.log2_nonneg n) as H0.
  split.
  - rewrite <- pow2_inject by exact H0. rewrite <- Zle_Qle. exact Hl.
  - rewrite <- pow2_succ. rewrite <- pow2_inject by lia.
    rewrite <- Zlt_Qlt. exact Hu.
Qed.

Lemma ilog2_spec (x : Q) :
  0 < x -> pow2 (ilog2 x) <= x /\ x < pow2 (ilog2 x + 1).
Proof.
  intros Hx. destruct x as [n d].
  assert (Hn : (0 < n)%Z).
  { unfold Qlt in Hx. simpl in Hx. lia. }
  unfold ilog2. cbn [Qnum Qden].
  set (ln := Z.log2 n). set (ld := Z.log2 (Z.pos d)).
  destruct (log2_bounds n Hn) as [Hn1 Hn2].
  destruct (log2_bounds (Z.pos d) eq_refl) as [Hd1 Hd2].
  fold ln in Hn1, Hn2. fold ld in Hd1, Hd2.
  assert (Hxd : (n # d) * inject_Z (Z.pos d) == inject_Z n).
  { rewrite (Qmake_Qdiv n d). field. discriminate. }
  assert (HE : pow2 (ln - ld) * pow2 ld == pow2 ln).
  { rewrite <- pow2_add. replace (ln - ld + ld)%Z with ln by lia. reflexivity. }
  pose proof (pow2_pos ld) as HP. pose proof (pow2_pos ln) as HN.
  pose proof (pow2_pos (ln - ld)) as HEpos.
  destruct (Qle_bool (pow2 (ln - ld)) (n # d)) eqn:Htest.
  - apply Qle_bool_iff in Htest. split; [exact Htest|].
    rewrite pow2_succ.
    apply Qnot_le_lt. intros Hc.
    assert (H1 : 2 * pow2 (ln - ld) * pow2 ld <= (n # d) * pow2 ld).
    { apply Qmult_le_compat_r; [exact Hc | apply Qlt_le_weak, HP]. }
    assert (H2 : (n # d) * pow2 ld <= (n # d) * inject_Z (Z.pos d)).
    { rewrite !(Qmult_comm (n # d)).
      apply Qmult_le_compat_r; [exact Hd1 | apply Qlt_le_weak, Hx]. }
    lra.
  - apply Qle_bool_false in Htest. split.
    + assert (H2 : (n # d) * inject_Z (Z.pos d) <= (n # d) * (2 * pow2 ld)).
      { rewrite !(Qmult_comm (n # d)).
        apply Qmult_le_compat_r; [apply Qlt_le_weak, Hd2 | apply Qlt_le_weak, Hx]. }
      assert (H3 : pow2 (ln - ld - 1) * 2 == pow2 (ln - ld)).
      { replace (ln - ld)%Z with (ln - ld - 1 + 1)%Z at 2 by lia.
        rewrite pow2_succ. ring. }
      apply Qnot_lt_le. intros Hc.
      assert (H4 : (n # d) * (2 * pow2 ld) < pow2 (ln - ld - 1) * (2 * pow2 ld)).
      { apply Qmult_lt_compat_r; [lra | exact Hc]. }
      assert (H5 : pow2 (ln - ld - 1) * (2 * pow2 ld) == pow2 ln).
      { rewrite <- HE, <- H3. ring. }
      lra.
    + replace (ln - ld - 1 + 1)%Z with (ln - ld)%Z by lia. exact Htest.
Qed.

Lemma ilog2_monotone (x y : Q) :
  0 < x -> x <= y -> (ilog2 x <= ilog2 y)%Z.
Proof.
  intros Hx Hxy.
  destruct (ilog2_spec x Hx) as [Hx1 _].
  destruct (ilog2_spec y) as [_ Hy2]; [lra|].
  assert (H : pow2 (ilog2 x) < pow2 (ilog2 y + 1)) by lra.
  apply pow2_lt_inv in H. lia.
Qed.

End Exponent.

Section Nearest.

Lemma roundHalfEven_bounds (s : Q) :
  s - (1 # 2) <= inject_Z (roundHalfEven s)
  /\ inject_Z (roundHalfEven s) <= s + (1 # 2).
Proof.
  unfold roundHalfEven.
  pose proof (Qfloor_le s) as Hl. pose proof (Qlt_floor s) as Hu.
  rewrite inject_Z_plus in Hu. change (inject_Z 1) with 1 in Hu.
  destruct (Qlt_bool (s - inject_Z (Qfloor s)) (1 # 2)) eqn:E1.
  - apply Qlt_bool_true in E1. split; lra.
  - apply Qlt_bool_false in E1.
    destruct (Qlt_bool (1 # 2) (s - inject_Z (Qfloor s))) eqn:E2.
    + apply Qlt_bool_true in E2. rewrite inject_Z_plus.
      change (inject_Z 1) with 1. split; lra.
    + apply Qlt_bool_false in E2.
      destruct (Z.even (Qfloor s)).
      * split; lra.
      * rewrite inject_Z_plus. change (inject_Z 1) with 1. split; lra.
Qed.

Lemma roundHalfEven_monotone (s t : Q) :
  s <= t -> (roundHalfEven s <= roundHalfEven t)%Z.
Proof.
  intros Hst.
  pose proof (Qfloor_resp_le _ _ Hst) as Hf.
  pose proof (Qfloor_le s) as Hls. pose proof (Qlt_floor s) as Hus.
  pose proof (Qfloor_le t) as Hlt. pose proof (Qlt_floor t) as Hut.
  rewrite inject_Z_plus in Hus, Hut. change (inject_Z 1) with 1 in Hus, Hut.
  assert (Hs : (Qfloor s <= roundHalfEven s <= Qfloor s + 1)%Z).
  { unfold roundHalfEven.
    repeat match goal with |- context [if ?b then _ else _] => destruct b end; lia. }
  assert (Ht : (Qfloor t <= roundHalfEven t <= Qfloor t + 1)%Z).
  { unfold roundHalfEven.
    repeat match goal with |- context [if ?b then _ else _] => destruct b end; lia. }
  destruct (Z.eq_dec (Qfloor s) (Qfloor t)) as [Heq | Hne]; [|lia].
  unfold roundHalfEven in *. rewrite <- Heq in *.
  destruct (Qlt_bool (s - inject_Z (Qfloor s)) (1 # 2)) eqn:E1.
  - repeat match goal with |- context [if ?b then _ else _] => destruct b end; lia.
  - apply Qlt_bool_false in E1.
    assert (E1' : Qlt_bool (t - inject_Z (Qfloor s)) (1 # 2) = false).
    { apply Qlt_bool_false. lra. }
    rewrite E1'.
    destruct (Qlt_bool (1 # 2) (s - inject_Z (Qfloor s))) eqn:E2.
    + apply Qlt_bool_true in E2.
      assert (E2' : Qlt_bool (1 # 2) (t - inject_Z (Qfloor s)) = true).
      { apply Qlt_bool_true. lra. }
      rewrite E2'. lia.
    + repeat match goal with |- context [if ?b then _ else _] => destruct b end; lia.
Qed.

Lemma roundHalfEven_inject_Z (z : Z) : roundHalfEven (inject_Z z) = z.
Proof.
  unfold roundHalfEven. rewrite Qfloor_Z.
  assert (E : Qlt_bool (inject_Z z - inject_Z z) (1 # 2) = true).
  { apply Qlt_bool_true. lra. }
  rewrite E. reflexivity.
Qed.

End Nearest.

Section Rounding.

Lemma roundPositive_value (x : Q) :
  roundPositive x
  == inject_Z (roundHalfEven (x * pow2 (52 - ilog2 x))) * pow2 (- (52 - ilog2 x)).
Proof. unfold roundPositive. apply Qred_correct. Qed.

Lemma scaled_bounds (x : Q) :
  0 < x ->
  pow2 52 <= x * pow2 (52 - ilog2 x) /\ x * pow2 (52 - ilog2 x) <= pow2 53.
Proof.
  intros Hx. destruct (ilog2_spec x Hx) as [H1 H2].
  pose proof (pow2_pos (52 - ilog2 x)) as Hk.
  assert (E1 : pow2 (ilog2 x) * pow2 (52 - ilog2 x) == pow2 52).
  { rewrite <- pow2_add. replace (ilog2 x + (52 - ilog2 x))%Z with 52%Z by lia.
    reflexivity. }
  assert (E2 : pow2 (ilog2 x + 1) * pow2 (52 - ilog2 x) == pow2 53).
  { rewrite <- pow2_add. replace (ilog2 x + 1 + (52 - ilog2 x))%Z with 53%Z by lia.
    reflexivity. }
  split.
  - rewrite <- E1. apply Qmult_le_compat_r; [exact H1 | apply Qlt_le_weak, Hk].
  - rewrite <- E2. apply Qmult_le_compat_r; [apply Qlt_le_weak, H2 | apply Qlt_le_weak, Hk].
Qed.

(** The relative error of a rounding is at most [2^-53]. *)
Lemma roundPositive_error (x : Q) :
  0 < x ->
  (1 - HALF_ULP) * x <= roundPositive x
  /\ roundPositive x <= (1 + HALF_ULP) * x.
Proof.
  intros Hx. rewrite roundPositive_value.
  set (k := (52 - ilog2 x)%Z).
  destruct (scaled_bounds x Hx) as [Hs _]. fold k in Hs.
  destruct (roundHalfEven_bounds (x * pow2 k)) as [Hm1 Hm2].
  pose proof (pow2_pos (- k)) as Hk.
  pose proof (pow2_cancel k) as Hc.
  set (m := inject_Z (roundHalfEven (x * pow2 k))) in *.
  set (P := pow2 k) in *. set (P' := pow2 (- k)) in *.
  change (pow2 52) with (inject_Z (2 ^ 52)) in Hs.
  assert (Hx' : x == x * P * P') by (rewrite <- Qmult_assoc, Hc; ring).
  assert (H1 : (x * P - (1 # 2)) * P' <= m * P').
  { apply Qmult_le_compat_r; [exact Hm1 | apply Qlt_le_weak, Hk]. }
  assert (H2 : m * P' <= (x * P + (1 # 2)) * P').
  { apply Qmult_le_compat_r; [exact Hm2 | apply Qlt_le_weak, Hk]. }
  assert (H3 : inject_Z (2 ^ 52) * P' <= x * P * P').
  { apply Qmult_le_compat_r; [exact Hs | apply Qlt_le_weak, Hk]. }
  assert (H4 : HALF_ULP * inject_Z (2 ^ 52) == 1 # 2) by reflexivity.
  assert (H5 : (1 # 2) * P' <= HALF_ULP * x).
  { rewrite <- H4. rewrite Hx' at 1.
    rewrite <- !Qmult_assoc. rewrite (Qmult_assoc x P P').
    apply Qmult_le_l; [reflexivity|]. exact H3. }
  split; lra.
Qed.

Lemma roundPositive_range (x : Q) :
  0 < x ->
  pow2 (ilog2 x) <= roundPositive x /\ roundPositive x <= pow2 (ilog2 x + 1).
Proof.
  intros Hx. rewrite roundPositive_value.
  set (k := (52 - ilog2 x)%Z).
  destruct (scaled_bounds x Hx) as [Hs1 Hs2]. fold k in Hs1, Hs2.
  pose proof (pow2_pos (- k)) as Hk.
  change (pow2 52) with (inject_Z (2 ^ 52)) in Hs1.
  change (pow2 53) with (inject_Z (2 ^ 53)) in Hs2.
  apply roundHalfEven_monotone in Hs1, Hs2.
  rewrite roundHalfEven_inject_Z in Hs1, Hs2.
  assert (E1 : pow2 (ilog2 x) == inject_Z (2 ^ 52) * pow2 (- k)).
  { change (inject_Z (2 ^ 52)) with (pow2 52). rewrite <- pow2_add.
    unfold k. replace (52 + - (52 - ilog2 x))%Z with (ilog2 x) by lia. reflexivity. }
  assert (E2 : pow2 (ilog2 x + 1) == inject_Z (2 ^ 53) * pow2 (- k)).
  { change (inject_Z (2 ^ 53)) with (pow2 53). rewrite <- pow2_add.
    unfold k. replace (53 + - (52 - ilog2 x))%Z with (ilog2 x + 1)%Z by lia.
    reflexivity. }
  rewrite E1, E2. split.
  - apply Qmult_le_compat_r; [|apply Qlt_le_weak, Hk]. rewrite <- Zle_Qle. exact Hs1.
  - apply Qmult_le_compat_r; [|apply Qlt_le_weak, Hk]. rewrite <- Zle_Qle. exact Hs2.
Qed.

Lemma roundPositive_pos (x : Q) : 0 < x -> 0 < roundPositive x.
Proof.
  intros Hx. destruct (roundPositive_range x Hx) as [H _].
  pose proof (pow2_pos (ilog2 x)). lra.
Qed.

Lemma roundPositive_monotone (x y : Q) :
  0 < x -> x <= y -> roundPositive x <= roundPositive y.
Proof.
  intros Hx Hxy.
  assert (Hy : 0 < y) by lra.
  pose proof (ilog2_monotone x y Hx Hxy) as He.
  destruct (Z.eq_dec (ilog2 x) (ilog2 y)) as [Heq | Hne].
  - rewrite !roundPositive_value. rewrite Heq.
    pose proof (pow2_pos (52 - ilog2 y)) as Hk.
    pose proof (pow2_pos (- (52 - ilog2 y))) as Hk'.
    apply Qmult_le_compat_r; [|apply Qlt_le_weak, Hk'].
    rewrite <- Zle_Qle. apply roundHalfEven_monotone.
    apply Qmult_le_compat_r; [exact Hxy | apply Qlt_le_weak, Hk].
  - destruct (roundPositive_range x Hx) as [_ H1].
    destruct (roundPositive_range y Hy) as [H2 _].
    assert (H3 : pow2 (ilog2 x + 1) <= pow2 (ilog2 y)) by (apply pow2_le; lia).
    lra.
Qed.

Lemma round64_nonneg (x : Q) : 0 <= x -> 0 <= round64 x.
Proof.
  intros Hx. unfold round64.
  destruct (Qeq_bool x 0) eqn:E0; [lra|].
  apply Qeq_bool_neq in E0.
  assert (Hle : Qle_bool 0 x = true) by (apply Qle_bool_iff; exact Hx).
  rewrite Hle. apply Qlt_le_weak, roundPositive_pos.
  apply Qle_lt_or_eq in Hx. destruct Hx as [H | H]; [exact H|].
  exfalso. apply E0. symmetry. exact H.
Qed.

Lemma round64_pos (x : Q) : 0 < x -> 0 < round64 x.
Proof.
  intros Hx. unfold round64.
  destruct (Qeq_bool x 0) eqn:E0.
  - apply Qeq_bool_eq in E0. lra.
  - assert (Hle : Qle_bool 0 x = true) by (apply Qle_bool_iff; lra).
    rewrite Hle. apply roundPositive_pos, Hx.
Qed.

Lemma round64_nonpos (x : Q) : x <= 0 -> round64 x <= 0.
Proof.
  intros Hx. unfold round64.
  destruct (Qeq_bool x 0) eqn:E0; [lra|].
  apply Qeq_bool_neq in E0.
  destruct (Qle_bool 0 x) eqn:Hle.
  - apply Qle_bool_iff in Hle. exfalso. apply E0. lra.
  - assert (H : 0 < - x).
    { apply Qle_bool_false in Hle. lra. }
    pose proof (roundPositive_pos _ H). lra.
Qed.

Lemma round64_monotone (x y : Q) : x <= y -> round64 x <= round64 y.
Proof.
  intros Hxy.
  destruct (Qlt_le_dec 0 x) as [Hx | Hx].
  - unfold round64.
    destruct (Qeq_bool x 0) eqn:Ex; [apply Qeq_bool_eq in Ex; lra|].
    destruct (Qeq_bool y 0) eqn:Ey; [apply Qeq_bool_eq in Ey; lra|].
    assert (Hlx : Qle_bool 0 x = true) by (apply Qle_bool_iff; lra).
    assert (Hly : Qle_bool 0 y = true) by (apply Qle_bool_iff; lra).
    rewrite Hlx, Hly. apply roundPositive_monotone; assumption.
  - destruct (Qlt_le_dec y 0) as [Hy | Hy].
    + unfold round64.
      destruct (Qeq_bool x 0) eqn:Ex; [apply Qeq_bool_eq in Ex; lra|].
      destruct (Qeq_bool y 0) eqn:Ey; [apply Qeq_bool_eq in Ey; lra|].
      assert (Hlx : Qle_bool 0 x = false) by (apply Qle_bool_lt; lra).
      assert (Hly : Qle_bool 0 y = false) by (apply Qle_bool_lt; lra).
      rewrite Hlx, Hly.
      assert (H : roundPositive (- y) <= roundPositive (- x)).
      { apply roundPositive_monotone; lra. }
      lra.
    + pose proof (round64_nonpos x Hx). pose proof (round64_nonneg y Hy). lra.
Qed.

#[global] Instance round64_comp : Proper (Qeq ==> Qeq) round64.
Proof.
  intros x y Hxy. apply Qle_antisym; apply round64_monotone; lra.
Qed.

(** For a number that is not negative, the rounding is within the relative
    error [2^-53]. *)
Lemma round64_error (x : Q) :
  0 <= x ->
  (1 - HALF_ULP) * x <= round64 x /\ round64 x <= (1 + HALF_ULP) * x.
Proof.
  intros Hx. unfold round64.
  destruct (Qeq_bool x 0) eqn:E0.
  - apply Qeq_bool_eq in E0. rewrite E0. split; lra.
  - apply Qeq_bool_neq in E0.
    assert (Hle : Qle_bool 0 x = true) by (apply Qle_bool_iff; exact Hx).
    rewrite Hle. apply roundPositive_error.
    apply Qle_lt_or_eq in Hx. destruct Hx as [H | H]; [exact H|].
    exfalso. apply E0. symmetry. exact H.
Qed.

End Rounding.

(** * Properties of the staking tiers *)

Section TierClassification.
Import StakingTierManager.

(** The tier reached is at least [t] exactly when both minimums of [t] are
    met; the thresholds of the table are nested. *)
Lemma getTierForStake_rank (amount days : Q) (t : StakingTier) :
  tier_le t (getTierForStake amount days) <->
  TierConfig.minStake (TIER_CONFIG t) <= amount
  /\ TierConfig.lockDays (TIER_CONFIG t) <= days \/ t = public.
Proof.
  unfold tier_le, getTierForStake. cbn [TIER_CONFIG TierConfig.minStake TierConfig.lockDays].
  repeat case_Qle; destruct t; cbn; split;
    try (intros _; (left; split; lra) || (right; reflexivity) || lia);
    try (intros [[? ?] | ?]; (lia || lra || discriminate)); try lia.
Qed.

(** C10. [getTierForStake] is monotone non-decreasing in both arguments for
    the ordering public < bronze < silver < gold < diamond: a larger stake
    and a longer lock never give a lower tier. *)
Theorem getTierForStake_monotone (a1 a2 d1 d2 : Q) :
  a1 <= a2 -> d1 <= d2 ->
  tier_le (getTierForStake a1 d1) (getTierForStake a2 d2).
Proof.
  intros Ha Hd.
  apply getTierForStake_rank.
  assert (H : tier_le (getTierForStake a1 d1) (getTierForStake a1 d1))
    by (unfold tier_le; lia).
  apply getTierForStake_rank in H as [[H1 H2] | H]; [left; split; lra | now right].
Qed.

Lemma getTierForStake_monotone_witness :
  tier_le (getTierForStake 20000 60) (getTierForStake 50000 90).
Proof.
  apply (getTierForStake_monotone 20000 50000 60 90); unfold Qle; simpl; lia.
Defined.

End TierClassification.

Section StrongHolderScore.
Import StakingTierManager.

Lemma calculateSHS_range (history : HoldHistory.t) :
  0 <= calculateSHS history <= 100.
Proof.
  unfold calculateSHS. split.
  - apply Q.le_max_l.
  - apply Q.max_lub; [lra | apply Q.le_min_l].
Qed.

Lemma stake_keeps_shs (now : Z) (request : StakeRequest.t) (stakers : Stakers) :
  shs_bounded stakers -> shs_bounded (snd (stake now request stakers)).
Proof.
  intros Hinv. unfold stake. cbn [snd].
  apply map_Forall_insert_2; [| exact Hinv].
  destruct (stakers !! StakeRequest.wallet request) as [p |] eqn:Hp.
  - apply (map_Forall_lookup_1 _ _ _ _ Hinv) in Hp. exact Hp.
  - unfold shs_in_range. cbn. lra.
Qed.

Lemma unstake_keeps_shs (now : Z) (request : UnstakeRequest.t) (stakers : Stakers) :
  shs_bounded stakers -> shs_bounded (snd (unstake now request stakers)).
Proof.
  intros Hinv. unfold unstake.
  destruct (stakers !! UnstakeRequest.wallet request) as [p |] eqn:Hp; [| exact Hinv].
  destruct (Qlt_bool _ _); [exact Hinv |].
  destruct (UnstakeRequest.early request && isAfter (StakerPosition.lockEndDate p) now);
    destruct (Qle_bool _ 0); cbn [snd];
    solve [ apply map_Forall_delete; exact Hinv
          | apply map_Forall_insert_2; [| exact Hinv];
            apply (map_Forall_lookup_1 _ _ _ _ Hinv) in Hp; exact Hp ].
Qed.

Lemma updateSHS_keeps_shs (wallet : string) (newSHS : Q) (stakers : Stakers) :
  0 <= newSHS <= 100 ->
  shs_bounded stakers -> shs_bounded (updateSHS wallet newSHS stakers).
Proof.
  intros Hnew Hinv. unfold updateSHS.
  destruct (stakers !! wallet) as [p |]; [| exact Hinv].
  apply map_Forall_insert_2; [exact Hnew | exact Hinv].
Qed.

(** [updateSHS] stores the value it is given. *)
Lemma updateSHS_stores (wallet : string) (newSHS : Q) (stakers : Stakers)
    (p : StakerPosition.t) :
  stakers !! wallet = Some p ->
  StakerPosition.strongHolderScore
    <$> (updateSHS wallet newSHS stakers !! wallet) = Some newSHS.
Proof.
  intros Hp. unfold updateSHS. rewrite Hp, lookup_insert_eq. reflexivity.
Qed.

(** [updateSHS] does nothing for a wallet without a position. *)
Lemma updateSHS_absent (wallet : string) (newSHS : Q) (stakers : Stakers) :
  stakers !! wallet = None -> updateSHS wallet newSHS stakers = stakers.
Proof. intros H. unfold updateSHS. now rewrite H. Qed.

(** On a wallet with a position, [updateSHS] keeps the bound only for a
    value of [0, 100]. *)
Lemma updateSHS_bounded_inv (wallet : string) (newSHS : Q) (stakers : Stakers)
    (p : StakerPosition.t) :
  stakers !! wallet = Some p ->
  shs_bounded (updateSHS wallet newSHS stakers) -> 0 <= newSHS <= 100.
Proof.
  intros Hp Hinv.
  assert (H : exists p', updateSHS wallet newSHS stakers !! wallet = Some p'
                         /\ StakerPosition.strongHolderScore p' = newSHS).
  { unfold updateSHS. rewrite Hp, lookup_insert_eq. eexists. split; reflexivity. }
  destruct H as (p' & Hp' & Hs).
  apply (map_Forall_lookup_1 _ _ _ _ Hinv) in Hp'.
  unfold shs_in_range in Hp'. now rewrite Hs in Hp'.
Qed.

(** C6, as the code has it.  [calculateSHS] returns a value in [0, 100] for
    every history; [stake] and [unstake] keep every stored score in
    [0, 100]; [updateSHS] validates nothing: on a wallet that has a position
    it stores the value it is given unchanged, so it keeps the bound exactly
    when the new value itself lies in [0, 100], as a value of [calculateSHS]
    does; on a wallet without a position it changes nothing. *)
Theorem shs_bounds (stakers : Stakers) :
  shs_bounded stakers ->
  (forall history, 0 <= calculateSHS history <= 100)
  /\ (forall now request, shs_bounded (snd (stake now request stakers)))
  /\ (forall now request, shs_bounded (snd (unstake now request stakers)))
  /\ (forall wallet newSHS,
        0 <= newSHS <= 100 -> shs_bounded (updateSHS wallet newSHS stakers))
  /\ (forall wallet newSHS p,
        stakers !! wallet = Some p ->
        StakerPosition.strongHolderScore
          <$> (updateSHS wallet newSHS stakers !! wallet) = Some newSHS
        /\ (shs_bounded (updateSHS wallet newSHS stakers)
            <-> 0 <= newSHS <= 100))
  /\ (forall wallet newSHS,
        stakers !! wallet = None -> updateSHS wallet newSHS stakers = stakers)
  /\ (forall wallet history,
        shs_bounded (updateSHS wallet (calculateSHS history) stakers)).
Proof.
  intros Hinv. split; [| split; [| split; [| split; [| split; [| split]]]]].
  - apply calculateSHS_range.
  - intros; now apply stake_keeps_shs.
  - intros; now apply unstake_keeps_shs.
  - intros; now apply updateSHS_keeps_shs.
  - intros wallet newSHS p Hp. split; [now apply updateSHS_stores with (p := p) |].
    split.
    + now apply updateSHS_bounded_inv with (p := p).
    + intros Hnew. now apply updateSHS_keeps_shs.
  - intros wallet newSHS. apply updateSHS_absent.
  - intros wallet history. apply updateSHS_keeps_shs; [| exact Hinv].
    apply calculateSHS_range.
Qed.

Lemma ledger_A_100_bounded : shs_bounded ledger_A_100.
Proof.
  unfold ledger_A_100. apply stake_keeps_shs. apply map_Forall_empty.
Qed.

Lemma shs_bounds_witness :
  StakerPosition.strongHolderScore
    <$> (updateSHS "A" (calculateSHS (HoldHistory.mk 45 4 2 1 true 7))
           ledger_A_100 !! "A")
  = Some (calculateSHS (HoldHistory.mk 45 4 2 1 true 7))
  /\ shs_bounded (updateSHS "A" (calculateSHS (HoldHistory.mk 45 4 2 1 true 7))
                    ledger_A_100).
Proof.
  assert (Hinv : shs_bounded ledger_A_100).
  { unfold ledger_A_100, stake. cbn [snd].
    apply map_Forall_insert_2; [| apply map_Forall_empty].
    vm_compute. split; discriminate. }
  destruct (proj1 (proj2 (proj2 (proj2 (proj2 (shs_bounds ledger_A_100 Hinv)))))
              "A" (calculateSHS (HoldHistory.mk 45 4 2 1 true 7))
              (StakerPosition.mk "A" 100 (ValidDate 0) (ValidDate 2592000000)
                 public 50 (getEffectiveWeight public 50) 0 0 0))
    as [Hstored Hiff].
  - vm_compute. reflexivity.
  - split; [exact Hstored |]. apply Hiff. vm_compute. split; discriminate.
Defined.

(** C6, as stated, fails: [updateSHS] accepts 150 and the ledger then holds
    a score above 100. *)
Lemma shs_bounds_counterexample :
  shs_bounded ledger_A_100
  /\ StakerPosition.strongHolderScore
       <$> (updateSHS "A" 150 ledger_A_100 !! "A") = Some 150
  /\ ~ shs_bounded (updateSHS "A" 150 ledger_A_100).
Proof.
  split; [apply ledger_A_100_bounded |].
  split; [vm_compute; reflexivity |].
  intros Hinv.
  apply (updateSHS_bounded_inv "A" 150 ledger_A_100
           (StakerPosition.mk "A" 100 (ValidDate 0) (ValidDate 2592000000)
              public 50 (getEffectiveWeight public 50) 0 0 0)) in Hinv.
  - destruct Hinv as [_ H]. vm_compute in H. apply H. reflexivity.
  - vm_compute. reflexivity.
Qed.

End StrongHolderScore.

Section Unstake.
Import StakingTierManager.

Lemma unstake_not_found (now : Z) (request : UnstakeRequest.t) (stakers : Stakers) :
  stakers !! UnstakeRequest.wallet request = None ->
  unstake now request stakers = (Thrown "No staking position found", stakers).
Proof. intros H. unfold unstake. now rewrite H. Qed.

Lemma unstake_insufficient (now : Z) (request : UnstakeRequest.t)
    (stakers : Stakers) (p : StakerPosition.t) :
  stakers !! UnstakeRequest.wallet request = Some p ->
  StakerPosition.stakedAmount p < UnstakeRequest.amount request ->
  unstake now request stakers = (Thrown "Insufficient staked balance", stakers).
Proof.
  intros H Hlt. unfold unstake. rewrite H.
  apply Qlt_bool_true in Hlt. now rewrite Hlt.
Qed.

(** A throwing [unstake] has not written to the ledger, and it throws in the
    two rejected cases only. *)
Lemma unstake_thrown (now : Z) (request : UnstakeRequest.t) (stakers : Stakers)
    (message : string) :
  fst (unstake now request stakers) = Thrown message ->
  snd (unstake now request stakers) = stakers
  /\ (stakers !! UnstakeRequest.wallet request = None
      \/ exists p, stakers !! UnstakeRequest.wallet request = Some p
                   /\ StakerPosition.stakedAmount p < UnstakeRequest.amount request).
Proof.
  unfold unstake.
  destruct (stakers !! UnstakeRequest.wallet request) as [p |] eqn:Hp.
  - destruct (Qlt_bool _ _) eqn:Hlt.
    + intros _. split; [reflexivity |]. right. exists p. split; [reflexivity |].
      now apply Qlt_bool_true.
    + destruct (UnstakeRequest.early request && isAfter (StakerPosition.lockEndDate p) now);
        destruct (Qle_bool _ 0); cbn; discriminate.
  - intros _. split; [reflexivity | now left].
Qed.

(** C7, as the code has it.  [unstake] fails when the wallet has no position
    and when the amount exceeds the staked balance; either failure is an
    [Error] thrown by the method (a rejection of its promise), not a returned
    result value; a rejected [unstake] leaves the ledger as it was. *)
Theorem unstake_error_contract (now : Z) (request : UnstakeRequest.t)
    (stakers : Stakers) :
  (stakers !! UnstakeRequest.wallet request = None ->
   unstake now request stakers = (Thrown "No staking position found", stakers))
  /\ (forall p,
        stakers !! UnstakeRequest.wallet request = Some p ->
        StakerPosition.stakedAmount p < UnstakeRequest.amount request ->
        unstake now request stakers
        = (Thrown "Insufficient staked balance", stakers))
  /\ (forall message,
        fst (unstake now request stakers) = Thrown message ->
        snd (unstake now request stakers) = stakers).
Proof.
  split; [| split].
  - apply unstake_not_found.
  - intros p. apply unstake_insufficient.
  - intros message H. now apply unstake_thrown in H.
Qed.

Lemma unstake_error_contract_witness :
  unstake 1000 (UnstakeRequest.mk "A" 101 false) ledger_A_100
  = (Thrown "Insufficient staked balance", ledger_A_100).
Proof.
  refine (proj1 (proj2 (unstake_error_contract 1000
                          (UnstakeRequest.mk "A" 101 false) ledger_A_100))
            (StakerPosition.mk "A" 100 (ValidDate 0) (ValidDate 2592000000)
               public 50 (getEffectiveWeight public 50) 0 0 0) _ _).
  - vm_compute. reflexivity.
  - vm_compute. reflexivity.
Defined.

(** C7, as stated, fails: the failure of [unstake] on a wallet without a
    position is thrown, no result value is returned. *)
Lemma unstake_error_contract_counterexample :
  fst (unstake 1000 (UnstakeRequest.mk "B" 1 false) ledger_A_100)
  = Thrown "No staking position found"
  /\ ~ exists result,
         fst (unstake 1000 (UnstakeRequest.mk "B" 1 false) ledger_A_100)
         = Returned result.
Proof.
  assert (H : fst (unstake 1000 (UnstakeRequest.mk "B" 1 false) ledger_A_100)
              = Thrown "No staking position found") by (vm_compute; reflexivity).
  split; [exact H |]. intros [result Hr]. rewrite H in Hr. discriminate.
Qed.




End Unstake.

Section DateRounding.

Lemma Qtrunc_inject_Z (z : Z) : Qtrunc (inject_Z z) = z.
Proof.
  unfold Qtrunc. destruct (Qle_bool 0 (inject_Z z));
    [apply Qfloor_Z | apply Qceiling_Z].
Qed.

Lemma Qtrunc_comp (x y : Q) : x == y -> Qtrunc x = Qtrunc y.
Proof.
  intros H. unfold Qtrunc.
  destruct (Qle_bool 0 x) eqn:Hx; destruct (Qle_bool 0 y) eqn:Hy;
    try apply Qle_bool_iff in Hx; try apply Qle_bool_iff in Hy;
    try apply Qle_bool_false in Hx; try apply Qle_bool_false in Hy;
    try lra; [now apply Qfloor_comp | now apply Qceiling_comp].
Qed.

Lemma Qtrunc_le (x y : Q) : x <= y -> (Qtrunc x <= Qtrunc y)%Z.
Proof.
  intros H. unfold Qtrunc.
  destruct (Qle_bool 0 x) eqn:Hx; destruct (Qle_bool 0 y) eqn:Hy;
    try apply Qle_bool_iff in Hx; try apply Qle_bool_iff in Hy;
    try apply Qle_bool_false in Hx; try apply Qle_bool_false in Hy.
  - now apply Qfloor_resp_le.
  - lra.
  - transitivity 0%Z.
    + change 0%Z with (Qceiling 0). apply Qceiling_resp_le. lra.
    + change 0%Z with (Qfloor 0). now apply Qfloor_resp_le.
  - now apply Qceiling_resp_le.
Qed.

(** The date made from the larger of a date and a time value is the later of
    the two dates. *)
Lemma Qtrunc_max (z : Z) (q : Q) :
  Qtrunc (Qmax (inject_Z z) q) = Z.max z (Qtrunc q).
Proof.
  destruct (Q.max_spec (inject_Z z) q) as [[Hlt Heq] | [Hle Heq]].
  - rewrite (Qtrunc_comp _ _ Heq).
    assert (H : (Qtrunc (inject_Z z) <= Qtrunc q)%Z) by (apply Qtrunc_le; lra).
    rewrite Qtrunc_inject_Z in H. lia.
  - rewrite (Qtrunc_comp _ _ Heq), Qtrunc_inject_Z.
    assert (H : (Qtrunc q <= Qtrunc (inject_Z z))%Z) by now apply Qtrunc_le.
    rewrite Qtrunc_inject_Z in H. lia.
Qed.

(** [new Date(time)] within and beyond the range of time values. *)
Lemma makeDate_valid (time : Q) :
  Qabs time <= MAX_TIME -> makeDate time = ValidDate (Qtrunc time).
Proof.
  intros H. unfold makeDate. apply Qle_bool_iff in H. now rewrite H.
Qed.

Lemma makeDate_invalid (time : Q) :
  MAX_TIME < Qabs time -> makeDate time = InvalidDate.
Proof.
  intros H. unfold makeDate. now rewrite (Qle_bool_lt _ _ H).
Qed.

End DateRounding.

Section Stake.
Import StakingTierManager.

(** C9, as the code has it.  [stake] on a wallet that has a position adds
    the amount to the balance, recomputes the tier from the cumulative
    balance and the [lockDays] of the request, and recomputes the effective
    weight from the new tier; [stake] never fails, whatever the request.
    The lock end becomes the [Date] made from the larger of the existing
    lock end and [now + lockDays]: the later of the two dates when that time
    is within the range of time values, and the Invalid Date beyond it; an
    invalid lock end stays invalid. *)
Theorem stake_merge :
  (forall now request stakers p,
     let time := lockEndTime now (StakeRequest.lockDays request) in
     stakers !! StakeRequest.wallet request = Some p ->
     exists p',
       stake now request stakers
       = (Returned p', <[StakeRequest.wallet request := p']> stakers)
       /\ StakerPosition.stakedAmount p'
          = fadd (StakerPosition.stakedAmount p) (StakeRequest.amount request)
       /\ StakerPosition.lockEndDate p'
          = laterDate (StakerPosition.lockEndDate p) time
       /\ (forall lockEnd,
             StakerPosition.lockEndDate p = ValidDate lockEnd ->
             (Qabs (Qmax (inject_Z lockEnd) time) <= MAX_TIME ->
              StakerPosition.lockEndDate p'
              = ValidDate (Z.max lockEnd (Qtrunc time)))
             /\ (MAX_TIME < Qabs (Qmax (inject_Z lockEnd) time) ->
                 StakerPosition.lockEndDate p' = InvalidDate))
       /\ (StakerPosition.lockEndDate p = InvalidDate ->
           StakerPosition.lockEndDate p' = InvalidDate)
       /\ StakerPosition.tier p'
          = getTierForStake
              (fadd (StakerPosition.stakedAmount p) (StakeRequest.amount request))
              (StakeRequest.lockDays request)
       /\ StakerPosition.effectiveWeight p'
          = getEffectiveWeight (StakerPosition.tier p')
              (StakerPosition.strongHolderScore p')
       /\ StakerPosition.strongHolderScore p' = StakerPosition.strongHolderScore p
       /\ StakerPosition.wallet p' = StakerPosition.wallet p
       /\ StakerPosition.stakedAt p' = StakerPosition.stakedAt p)
  /\ (forall now request stakers,
        exists p',
          stake now request stakers
          = (Returned p', <[StakeRequest.wallet request := p']> stakers)).
Proof.
  split.
  - intros now request stakers p time Hp. unfold stake. rewrite Hp.
    eexists. split; [reflexivity |].
    cbn [set_effectiveWeight StakerPosition.wallet StakerPosition.stakedAmount
         StakerPosition.stakedAt StakerPosition.lockEndDate StakerPosition.tier
         StakerPosition.strongHolderScore StakerPosition.effectiveWeight].
    fold time.
    split; [reflexivity |]. split; [reflexivity |].
    split.
    { intros lockEnd ->. cbn [laterDate]. split; intros H.
      - rewrite (makeDate_valid _ H). now rewrite Qtrunc_max.
      - now apply makeDate_invalid. }
    split; [now intros -> |].
    repeat (split; [reflexivity |]). reflexivity.
  - intros now request stakers. unfold stake. eexists. reflexivity.
Qed.

Lemma stake_merge_witness :
  exists p',
    stake 1000 (StakeRequest.mk "A" 4900 30) ledger_A_100
    = (Returned p', <["A" := p']> ledger_A_100)
    /\ StakerPosition.stakedAmount p' = fadd 100 4900
    /\ StakerPosition.lockEndDate p'
       = ValidDate (Z.max 2592000000 (Qtrunc (lockEndTime 1000 30)))
    /\ StakerPosition.tier p' = getTierForStake (fadd 100 4900) 30.
Proof.
  destruct (proj1 stake_merge 1000%Z (StakeRequest.mk "A" 4900 30) ledger_A_100
              (StakerPosition.mk "A" 100 (ValidDate 0) (ValidDate 2592000000)
                 public 50 (getEffectiveWeight public 50) 0 0 0))
    as (p' & Hrun & Hamount & _ & Hdate & _ & Htier & _).
  - vm_compute. reflexivity.
  - exists p'. split; [exact Hrun |]. split; [exact Hamount |].
    split; [| exact Htier].
    apply (proj1 (Hdate 2592000000%Z eq_refl)). vm_compute. discriminate.
Defined.

(** C9, as stated, fails: a top-up with a lock of 1,000,000,000 days, beyond
    the range of time values, does not move the lock end of 30 days to the
    later date; the lock end becomes the Invalid Date, and an early
    [unstake] is then free of the penalty that the lock carried. *)
Lemma stake_merge_counterexample :
  StakerPosition.lockEndDate <$> (ledger_A_100 !! "A")
  = Some (ValidDate 2592000000)
  /\ MAX_TIME < lockEndTime 1000 1000000000
  /\ StakerPosition.lockEndDate
       <$> (snd (stake 1000 (StakeRequest.mk "A" 1 1000000000) ledger_A_100) !! "A")
     = Some InvalidDate
  /\ StakerPosition.lockEndDate
       <$> (snd (stake 1000 (StakeRequest.mk "A" 1 1000000000) ledger_A_100) !! "A")
     <> Some (ValidDate
                (Z.max 2592000000 (Qtrunc (lockEndTime 1000 1000000000))))
  /\ (exists result,
        fst (unstake 2000 (UnstakeRequest.mk "A" 50 true) ledger_A_100)
        = Returned result
        /\ UnstakeResult.penaltyApplied result == 5)
  /\ (exists result,
        fst (unstake 2000 (UnstakeRequest.mk "A" 50 true)
               (snd (stake 1000 (StakeRequest.mk "A" 1 1000000000) ledger_A_100)))
        = Returned result
        /\ UnstakeResult.penaltyApplied result == 0).
Proof.
  split; [vm_compute; reflexivity |].
  split; [vm_compute; reflexivity |].
  split; [vm_compute; reflexivity |].
  split; [vm_compute; discriminate |].
  split; eexists; (split; [vm_compute; reflexivity | reflexivity]).
Qed.

(** The tier of a merged position follows the [lockDays] of the request, not
    the time the position stays locked: a diamond position that tops up one
    token with no lock drops to public while its lock end stays 180 days
    away. *)
Example merged_tier_follows_request_lockDays :
  let stakers := snd (stake 0 (StakeRequest.mk "A" 100000 180) ∅) in
  StakerPosition.tier <$> (stakers !! "A") = Some diamond
  /\ (StakerPosition.tier <$> (snd (stake 0 (StakeRequest.mk "A" 1 0) stakers) !! "A")
      = Some public)
  /\ (StakerPosition.lockEndDate
        <$> (snd (stake 0 (StakeRequest.mk "A" 1 0) stakers) !! "A")
      = Some (ValidDate (180 * MS_PER_DAY))).
Proof. vm_compute. repeat split. Qed.

End Stake.


(** * Properties of the allocation pools *)

Section Vesting.
Import AllocationManager.

Lemma floorQ_le (q : Q) : floorQ q <= q.
Proof. apply Qfloor_le. Qed.

Lemma floorQ_lt (q : Q) : q < floorQ q + 1.
Proof.
  unfold floorQ. pose proof (Qlt_floor q) as H.
  rewrite inject_Z_plus in H. exact H.
Qed.

(** The remainder left by a floored division by 4. *)
Lemma quarter_bounds (x f : Q) :
  f <= x / 4 -> x / 4 < f + 1 -> 0 <= x - 4 * f < 4.
Proof.
  intros H1 H2.
  assert (E : x == 4 * (x / 4)) by field.
  split; lra.
Qed.

Lemma createVestingSchedule_immediate (now : Z) (amountUSD tokens : Q) :
  amountUSD <= 500 ->
  createVestingSchedule now amountUSD tokens
  = VestingSchedule.mk tokens tokens 0 0 now [Release.mk now tokens true].
Proof.
  intros H. apply Qle_bool_iff in H.
  unfold createVestingSchedule. cbn. now rewrite H.
Qed.

Lemma createVestingSchedule_vested (now : Z) (amountUSD tokens : Q) :
  500 < amountUSD ->
  let tgeAmount := floorQ (tokens * (tgePercentAbove500 amountUSD / 100)) in
  let vestingAmount := tokens - tgeAmount in
  let releaseAmount := floorQ (vestingAmount / 4) in
  let schedule := createVestingSchedule now amountUSD tokens in
  map Release.amount (VestingSchedule.releases schedule)
  = [tgeAmount; releaseAmount; releaseAmount; releaseAmount;
     vestingAmount - releaseAmount * (4 - 1)]
  /\ map Release.released (VestingSchedule.releases schedule)
     = [false; false; false; false; false]
  /\ VestingSchedule.releasedTokens schedule = 0.
Proof.
  intros H. unfold createVestingSchedule, tgePercentAbove500. cbn.
  destruct (Qle_bool amountUSD 500) eqn:E500;
    [apply Qle_bool_iff in E500; lra |].
  destruct (Qle_bool amountUSD 2000); [cbn; repeat split |].
  destruct (Qle_bool amountUSD 10000); cbn; repeat split.
Qed.

(** C2.  The releases of every schedule made by [createVestingSchedule] sum
    to [tokens].  Up to $500 the schedule is one release of all the tokens,
    already released.  Above $500 it is the TGE release followed by four
    tranches: three of the floored quarter of the rest, and a last one that
    takes that quarter plus the whole remainder of the division (which lies
    in [0, 4)). *)
Theorem vesting_sum_law (now : Z) (amountUSD tokens : Q) :
  let schedule := createVestingSchedule now amountUSD tokens in
  sumReleases schedule == tokens
  /\ VestingSchedule.totalTokens schedule = tokens
  /\ (amountUSD <= 500 ->
      VestingSchedule.releases schedule = [Release.mk now tokens true]
      /\ VestingSchedule.releasedTokens schedule = tokens)
  /\ (500 < amountUSD ->
      let tgeAmount := floorQ (tokens * (tgePercentAbove500 amountUSD / 100)) in
      let vestingAmount := tokens - tgeAmount in
      let releaseAmount := floorQ (vestingAmount / 4) in
      let remainder := vestingAmount - 4 * releaseAmount in
      Forall2 Qeq (map Release.amount (VestingSchedule.releases schedule))
        [tgeAmount; releaseAmount; releaseAmount; releaseAmount;
         releaseAmount + remainder]
      /\ 0 <= remainder < 4).
Proof.
  cbn zeta.
  destruct (Qlt_le_dec 500 amountUSD) as [Hgt | Hle].
  - pose proof (createVestingSchedule_vested now amountUSD tokens Hgt)
      as (Hamounts & _ & _). cbn zeta in Hamounts.
    split; [| split; [| split]].
    + unfold sumReleases. rewrite Hamounts. cbn. ring.
    + unfold createVestingSchedule.
      now destruct (Qeq_bool _ 0).
    + intros; lra.
    + intros _. rewrite Hamounts. split.
      * repeat (constructor; [reflexivity |]).
        constructor; [ring | constructor].
      * apply quarter_bounds; [apply floorQ_le | apply floorQ_lt].
  - rewrite (createVestingSchedule_immediate now amountUSD tokens Hle).
    split; [| split; [| split]].
    + unfold sumReleases. cbn. ring.
    + reflexivity.
    + intros _. split; reflexivity.
    + intros; lra.
Qed.

Lemma vesting_sum_law_witness :
  VestingSchedule.releases (createVestingSchedule 0 300 1000)
  = [Release.mk 0 1000 true]
  /\ Forall2 Qeq
       (map Release.amount
            (VestingSchedule.releases (createVestingSchedule 0 1500 1003)))
       [501; 125; 125; 125; 127].
Proof.
  split.
  - refine (proj1 (proj1 (proj2 (proj2 (vesting_sum_law 0 300 1000))) _)).
    vm_compute. discriminate.
  - refine (proj1 (proj2 (proj2 (proj2 (vesting_sum_law 0 1500 1003))) _)).
    vm_compute. reflexivity.
Defined.

End Vesting.

Section GuaranteedPool.
Import AllocationManager.

Lemma distributeGuaranteed_fst (now : Z) (poolTokens totalWeight tokenPrice : Q)
    (participants : list AllocationEntry.t) (allocated : Q) :
  fst (distributeGuaranteed now poolTokens totalWeight tokenPrice participants
         allocated)
  = map (fillGuaranteed now poolTokens totalWeight tokenPrice) participants.
Proof.
  revert allocated. induction participants as [| p ps IH]; intros allocated.
  - reflexivity.
  - cbn [distributeGuaranteed map]. specialize (IH
      (allocated
       + AllocationEntry.allocatedTokens
           (fillGuaranteed now poolTokens totalWeight tokenPrice p))).
    destruct (distributeGuaranteed _ _ _ _ ps _) as [rest' allocated'].
    cbn in *. now rewrite IH.
Qed.

Lemma distributeGuaranteed_snd (now : Z) (poolTokens totalWeight tokenPrice : Q)
    (participants : list AllocationEntry.t) (allocated : Q) :
  snd (distributeGuaranteed now poolTokens totalWeight tokenPrice participants
         allocated)
  == allocated
     + Qsum (map (guaranteedFinalTokens poolTokens totalWeight tokenPrice)
                 participants).
Proof.
  revert allocated. induction participants as [| p ps IH]; intros allocated.
  - cbn. ring.
  - cbn [distributeGuaranteed map]. specialize (IH
      (allocated
       + AllocationEntry.allocatedTokens
           (fillGuaranteed now poolTokens totalWeight tokenPrice p))).
    destruct (distributeGuaranteed _ _ _ _ ps _) as [rest' allocated'].
    cbn [fst snd] in *. rewrite IH.
    change (AllocationEntry.allocatedTokens
              (fillGuaranteed now poolTokens totalWeight tokenPrice p))
      with (guaranteedFinalTokens poolTokens totalWeight tokenPrice p).
    cbn [map]. unfold Qsum. cbn [fold_right]. ring.
Qed.

(** The total weight is the binary64 sum of the weights, from the left. *)
Lemma totalWeightOf_fadd (participants : list AllocationEntry.t) :
  totalWeightOf participants
  = fold_left fadd (map AllocationEntry.weight participants) 0.
Proof.
  unfold totalWeightOf. generalize 0.
  induction participants as [| p ps IH]; intros acc; [reflexivity |].
  cbn [fold_left map]. apply IH.
Qed.

Lemma allocatedTokens_fillGuaranteed (now : Z) (poolTokens totalWeight tokenPrice : Q)
    (participants : list AllocationEntry.t) :
  map AllocationEntry.allocatedTokens
      (map (fillGuaranteed now poolTokens totalWeight tokenPrice) participants)
  = map (guaranteedFinalTokens poolTokens totalWeight tokenPrice) participants.
Proof. rewrite map_map. reflexivity. Qed.

(** The guaranteed pool after [executeGuaranteedPool], when it has
    participants. *)
Lemma executeGuaranteedPoolOn_pool (now : Z) (launch : LaunchAllocation.t) :
  let pool := LaunchAllocation.pools launch guaranteed in
  let totalWeight := totalWeightOf (PoolAllocation.participants pool) in
  let allocated' :=
    snd (distributeGuaranteed now (PoolAllocation.totalTokens pool) totalWeight
           (LaunchAllocation.tokenPrice launch)
           (PoolAllocation.participants pool) (PoolAllocation.allocated pool)) in
  PoolAllocation.participants pool <> [] ->
  LaunchAllocation.pools (executeGuaranteedPoolOn now launch) guaranteed
  = PoolAllocation.mk (PoolAllocation.pool pool) (PoolAllocation.totalTokens pool)
      (PoolAllocation.totalValueUSD pool) allocated'
      (PoolAllocation.totalTokens pool - allocated')
      (map (fillGuaranteed now (PoolAllocation.totalTokens pool) totalWeight
              (LaunchAllocation.tokenPrice launch))
           (PoolAllocation.participants pool))
      PoolStatus.distributed.
Proof.
  intros pool totalWeight allocated' Hne. subst allocated' totalWeight.
  unfold executeGuaranteedPoolOn, totalWeightOf. fold pool.
  destruct (PoolAllocation.participants pool) as [| p ps]; [congruence |].
  set (totalWeight := fold_left _ (p :: ps) 0).
  pose proof (distributeGuaranteed_fst now (PoolAllocation.totalTokens pool)
                totalWeight (LaunchAllocation.tokenPrice launch)
                (p :: ps) (PoolAllocation.allocated pool)) as Hfst.
  destruct (distributeGuaranteed _ _ _ _ (p :: ps) _) as [participants' a'].
  cbn [fst snd] in *. subst participants'.
  unfold set_pool. cbn [LaunchAllocation.pools].
  destruct (decide (guaranteed = guaranteed)); [| congruence].
  reflexivity.
Qed.

Lemma executeGuaranteedPoolOn_empty (now : Z) (launch : LaunchAllocation.t) :
  PoolAllocation.participants (LaunchAllocation.pools launch guaranteed) = [] ->
  executeGuaranteedPoolOn now launch = launch.
Proof. intros H. unfold executeGuaranteedPoolOn. now rewrite H. Qed.

Lemma poolOf_executeGuaranteedPool (now : Z) (launchId : string)
    (st : ManagerState.t) (launch : LaunchAllocation.t) (pool : AllocationPool) :
  ManagerState.launches st !! launchId = Some launch ->
  poolOf launchId pool (executeGuaranteedPool now launchId st)
  = Some (LaunchAllocation.pools (executeGuaranteedPoolOn now launch) pool).
Proof.
  intros H. unfold poolOf, executeGuaranteedPool. rewrite H. cbn.
  now rewrite lookup_insert_eq.
Qed.

(** What [executeGuaranteedPool] leaves in the entry [p'] of a participant
    that entered the distribution as [p]. *)
Lemma fillGuaranteed_entry (now : Z) (poolTokens totalWeight tokenPrice : Q)
    (p : AllocationEntry.t) :
  let p' := fillGuaranteed now poolTokens totalWeight tokenPrice p in
  AllocationEntry.allocatedTokens p'
  = Qmin (floorQ (fmul poolTokens (fdiv (AllocationEntry.weight p) totalWeight)))
         (floorQ (fdiv (AllocationEntry.requestedAmount p) tokenPrice))
  /\ AllocationEntry.allocatedValueUSD p'
     = fmul (AllocationEntry.allocatedTokens p') tokenPrice
  /\ AllocationEntry.status p' = EntryStatus.filled
  /\ AllocationEntry.vestingSchedule p'
     = Some (createVestingSchedule now (AllocationEntry.allocatedValueUSD p')
               (AllocationEntry.allocatedTokens p'))
  /\ AllocationEntry.wallet p' = AllocationEntry.wallet p
  /\ AllocationEntry.weight p' = AllocationEntry.weight p
  /\ AllocationEntry.requestedAmount p' = AllocationEntry.requestedAmount p.
Proof. cbn zeta. repeat split. Qed.

(** C3, as the code has it.  [executeGuaranteedPool] gives every participant
    the floor of [poolTokens * (weight / totalWeight)], capped at the floor
    of [requestedAmount / tokenPrice], where [totalWeight] is the sum of the
    weights and the sum, the two quotients and the product are the binary64
    operations, each rounded to nearest; every participant becomes [filled]
    and gets a vesting schedule; the pool counter grows by the sum of these
    awards only, so what a cap leaves over is given to nobody.  (The token
    price is positive and the total weight of the participants is not zero.)
    With weights 10 and 5 on a pool of 300,000 tokens and no cap reached, the
    awards are 200,000 and 100,000. *)
Theorem guaranteed_prorata :
  (forall now launchId st launch,
     let pool := LaunchAllocation.pools launch guaranteed in
     let participants := PoolAllocation.participants pool in
     let totalWeight := totalWeightOf participants in
     let tokenPrice := LaunchAllocation.tokenPrice launch in
     ManagerState.launches st !! launchId = Some launch ->
     0 < tokenPrice ->
     (participants <> [] -> ~ totalWeight == 0) ->
     exists pool',
       poolOf launchId guaranteed (executeGuaranteedPool now launchId st)
       = Some pool'
       /\ Forall2
            (fun p p' =>
               AllocationEntry.allocatedTokens p'
               = Qmin (floorQ (fmul (PoolAllocation.totalTokens pool)
                                    (fdiv (AllocationEntry.weight p) totalWeight)))
                      (floorQ (fdiv (AllocationEntry.requestedAmount p) tokenPrice))
               /\ AllocationEntry.allocatedValueUSD p'
                  = fmul (AllocationEntry.allocatedTokens p') tokenPrice
               /\ AllocationEntry.status p' = EntryStatus.filled
               /\ AllocationEntry.vestingSchedule p'
                  = Some (createVestingSchedule now
                            (AllocationEntry.allocatedValueUSD p')
                            (AllocationEntry.allocatedTokens p'))
               /\ AllocationEntry.wallet p' = AllocationEntry.wallet p
               /\ AllocationEntry.weight p' = AllocationEntry.weight p
               /\ AllocationEntry.requestedAmount p'
                  = AllocationEntry.requestedAmount p)
            participants (PoolAllocation.participants pool')
       /\ PoolAllocation.allocated pool'
          == PoolAllocation.allocated pool
             + Qsum (map AllocationEntry.allocatedTokens
                         (PoolAllocation.participants pool'))
       /\ PoolAllocation.totalTokens pool' = PoolAllocation.totalTokens pool
       /\ totalWeight
          = fold_left fadd (map AllocationEntry.weight participants) 0)
  /\ (exists pool' a b,
        poolOf "L" guaranteed (executeGuaranteedPool 0 "L" weights_10_5_requested)
        = Some pool'
        /\ PoolAllocation.participants pool' = [a; b]
        /\ PoolAllocation.totalTokens pool' == 300000
        /\ AllocationEntry.weight a == 10
        /\ AllocationEntry.weight b == 5
        /\ AllocationEntry.allocatedTokens a == 200000
        /\ AllocationEntry.allocatedTokens b == 100000
        /\ AllocationEntry.allocatedTokens a
           < floorQ (fdiv (AllocationEntry.requestedAmount a) (1 # 16))
        /\ AllocationEntry.allocatedTokens b
           < floorQ (fdiv (AllocationEntry.requestedAmount b) (1 # 16))
        /\ AllocationEntry.status a = EntryStatus.filled
        /\ AllocationEntry.status b = EntryStatus.filled).
Proof.
  split.
  - intros now launchId st launch pool participants totalWeight tokenPrice
      Hl _ _.
    rewrite (poolOf_executeGuaranteedPool now launchId st launch guaranteed Hl).
    eexists. split; [reflexivity |].
    destruct participants as [| p ps] eqn:Hps.
    + rewrite (executeGuaranteedPoolOn_empty now launch Hps). fold pool.
      subst participants. rewrite Hps.
      split; [constructor |]. split; [cbn; ring |]. split; [reflexivity |].
      subst totalWeight. cbn. reflexivity.
    + assert (Hne : PoolAllocation.participants pool <> [])
        by (subst participants; congruence).
      rewrite (executeGuaranteedPoolOn_pool now launch Hne).
      fold pool. cbn [PoolAllocation.participants PoolAllocation.allocated
                      PoolAllocation.totalTokens].
      subst participants. rewrite Hps. fold totalWeight tokenPrice.
      split; [| split; [| split]].
      * apply Forall2_fmap_r, Forall_Forall2_diag, Forall_forall.
        intros x _. apply fillGuaranteed_entry.
      * rewrite distributeGuaranteed_snd, allocatedTokens_fillGuaranteed.
        reflexivity.
      * reflexivity.
      * apply totalWeightOf_fadd.
  - eexists _, _, _. split; [vm_compute; reflexivity |].
    split; [reflexivity |]. vm_compute. repeat split.
Qed.

Lemma guaranteed_prorata_witness :
  exists pool' a b,
    poolOf "L" guaranteed (executeGuaranteedPool 0 "L" rounded_share_request)
    = Some pool'
    /\ PoolAllocation.participants pool' = [a; b]
    /\ AllocationEntry.allocatedTokens a
       = Qmin (floorQ (fmul 23 (fdiv (25 # 2) (fadd (fadd 0 (25 # 2)) (65 # 4)))))
              (floorQ (fdiv 25000 1))
    /\ AllocationEntry.allocatedTokens b
       = Qmin (floorQ (fmul 23 (fdiv (65 # 4) (fadd (fadd 0 (25 # 2)) (65 # 4)))))
              (floorQ (fdiv 25000 1))
    /\ PoolAllocation.allocated pool'
       == 0 + Qsum (map AllocationEntry.allocatedTokens
                        (PoolAllocation.participants pool')).
Proof.
  edestruct (proj1 guaranteed_prorata 0%Z "L" rounded_share_request)
    as (pool' & Hpool & Hall & Hallocated & _).
  - vm_compute. reflexivity.
  - vm_compute. reflexivity.
  - intros _. vm_compute. discriminate.
  - apply Forall2_cons_inv_l in Hall as (a & rest & (Ha & _) & Hrest & Hps).
    apply Forall2_cons_inv_l in Hrest as (b & rest' & (Hb & _) & Hnil & ->).
    apply Forall2_nil_inv_l in Hnil as ->.
    exists pool', a, b. split; [exact Hpool |]. split; [exact Hps |].
    split; [exact Ha |]. split; [exact Hb | exact Hallocated].
Defined.

(** C3, as stated, fails: with weights 12.5 and 16.25 on a pool of 23 tokens
    the exact shares are 10 and 13 tokens, and neither participant is
    capped; the code computes [16.25 / 28.75] and then the product with 23
    in binary64, gets a number just below 13, and awards 12 tokens. *)
Lemma guaranteed_prorata_counterexample :
  exists pool' a b,
    poolOf "L" guaranteed (executeGuaranteedPool 0 "L" rounded_share_request)
    = Some pool'
    /\ PoolAllocation.participants pool' = [a; b]
    /\ PoolAllocation.totalTokens pool' == 23
    /\ AllocationEntry.weight a == 25 # 2
    /\ AllocationEntry.weight b == 65 # 4
    /\ 23 * (AllocationEntry.weight a
             / (AllocationEntry.weight a + AllocationEntry.weight b)) == 10
    /\ 23 * (AllocationEntry.weight b
             / (AllocationEntry.weight a + AllocationEntry.weight b)) == 13
    /\ floorQ (AllocationEntry.requestedAmount b / 1) == 25000
    /\ AllocationEntry.allocatedTokens a == 10
    /\ AllocationEntry.allocatedTokens b == 12
    /\ ~ AllocationEntry.allocatedTokens b
         == Qmin (floorQ (23 * (AllocationEntry.weight b
                                / (AllocationEntry.weight a
                                   + AllocationEntry.weight b))))
                 (floorQ (AllocationEntry.requestedAmount b / 1)).
Proof.
  eexists _, _, _. split; [vm_compute; reflexivity |].
  split; [reflexivity |]. vm_compute. repeat split; discriminate.
Qed.

End GuaranteedPool.

Section PoolLifecycle.
Import AllocationManager.

#[local] Arguments set_pool : simpl never.

Lemma set_pool_same (pool : AllocationPool) (pa : PoolAllocation.t)
    (launch : LaunchAllocation.t) :
  LaunchAllocation.pools (set_pool pool pa launch) pool = pa.
Proof.
  unfold set_pool. cbn. destruct (decide (pool = pool)); [reflexivity | congruence].
Qed.

Lemma set_pool_other (pool q : AllocationPool) (pa : PoolAllocation.t)
    (launch : LaunchAllocation.t) :
  q <> pool ->
  LaunchAllocation.pools (set_pool pool pa launch) q = LaunchAllocation.pools launch q.
Proof.
  intros H. unfold set_pool. cbn. destruct (decide (q = pool)); [congruence | reflexivity].
Qed.

Lemma poolOf_lookup (launchId : string) (pool : AllocationPool)
    (st : ManagerState.t) (launch : LaunchAllocation.t) :
  ManagerState.launches st !! launchId = Some launch ->
  poolOf launchId pool st = Some (LaunchAllocation.pools launch pool).
Proof. intros H. unfold poolOf. now rewrite H. Qed.












End PoolLifecycle.

Section RepeatedDistribution.
Import AllocationManager.

#[local] Arguments set_pool : simpl never.




Lemma launches_executeGuaranteedPool (now : Z) (launchId : string)
    (st : ManagerState.t) (launch : LaunchAllocation.t) :
  ManagerState.launches st !! launchId = Some launch ->
  ManagerState.launches (executeGuaranteedPool now launchId st) !! launchId
  = Some (executeGuaranteedPoolOn now launch).
Proof.
  intros Hl. unfold executeGuaranteedPool. rewrite Hl. cbn.
  apply lookup_insert_eq.
Qed.





End RepeatedDistribution.

Section Conservation.
Import AllocationManager.

#[local] Arguments set_pool : simpl never.

Lemma Qsum_cons (x : Q) (l : list Q) : Qsum (x :: l) = x + Qsum l.
Proof. reflexivity. Qed.

(** The exact shares sum to the pool. *)
Lemma shares_sum (poolTokens totalWeight : Q)
    (participants : list AllocationEntry.t) :
  Qsum (map (fun p => poolTokens * (AllocationEntry.weight p / totalWeight))
            participants)
  == poolTokens * (Qsum (map AllocationEntry.weight participants) / totalWeight).
Proof.
  induction participants as [| p ps IH]; cbn [map].
  - unfold Qsum, Qdiv. cbn [fold_right]. ring.
  - rewrite !Qsum_cons, IH. unfold Qdiv. ring.
Qed.

(** The drawing loop moves tokens from [remainingTokens] to [allocated] and
    never draws more than remain. *)
Lemma drawWinners_conserves (now : Z) (poolConfig : PoolConfig.t) (tokenPrice : Q)
    (tickets : list string) (d : Draw.t) :
  0 <= Draw.remainingTokens d ->
  let d' := drawWinners now poolConfig tokenPrice tickets d in
  0 <= Draw.remainingTokens d'
  /\ Draw.allocated d' + Draw.remainingTokens d'
     == Draw.allocated d + Draw.remainingTokens d.
Proof.
  cbn zeta. revert d. induction tickets as [| wallet rest IH]; intros d Hd.
  - cbn [drawWinners]. split; [exact Hd | reflexivity].
  - cbn [drawWinners].
    destruct (Qle_bool (Draw.remainingTokens d) 0);
      [split; [exact Hd | reflexivity] |].
    destruct (bool_decide (wallet ∈ Draw.winners d)); [now apply IH |].
    destruct (list_find _ (Draw.participants d)) as [[idx participant] |];
      [| now apply IH].
    set (award := AllocationEntry.allocatedTokens _).
    assert (Haward : award <= Draw.remainingTokens d)
      by (subst award; cbn [AllocationEntry.allocatedTokens winLottery];
          apply Q.le_min_r).
    match goal with
    | |- context [drawWinners _ _ _ rest ?d1] =>
        destruct (IH d1) as [H1 H2]; [cbn [Draw.remainingTokens]; lra |];
        split; [exact H1 |];
        rewrite H2; cbn [Draw.allocated Draw.remainingTokens]; ring
    end.
Qed.

Lemma serveFCFS_conserves (poolConfig : PoolConfig.t) (tokenPrice : Q)
    (fcfsRequests : list AllocationRequest.t) (d : Draw.t) :
  0 <= Draw.remainingTokens d ->
  let d' := serveFCFS poolConfig tokenPrice fcfsRequests d in
  0 <= Draw.remainingTokens d'
  /\ Draw.allocated d' + Draw.remainingTokens d'
     == Draw.allocated d + Draw.remainingTokens d.
Proof.
  cbn zeta. revert d. induction fcfsRequests as [| request rest IH]; intros d Hd.
  - cbn [serveFCFS]. split; [exact Hd | reflexivity].
  - cbn [serveFCFS].
    destruct (Qle_bool (Draw.remainingTokens d) 0);
      [split; [exact Hd | reflexivity] |].
    destruct (list_find _ (Draw.participants d)) as [[idx participant] |];
      [| now apply IH].
    set (award := Qmin _ (Draw.remainingTokens d)).
    assert (Haward : award <= Draw.remainingTokens d) by apply Q.le_min_r.
    match goal with
    | |- context [serveFCFS _ _ rest ?d1] =>
        destruct (IH d1) as [H1 H2]; [cbn [Draw.remainingTokens]; lra |];
        split; [exact H1 |];
        rewrite H2; cbn [Draw.allocated Draw.remainingTokens]; ring
    end.
Qed.

(** One lottery distribution adds at most the pool to [allocated]. *)
Lemma executeLotteryPoolOn_conserves (now : Z) (random : nat -> Q)
    (pool : AllocationPool) (launch : LaunchAllocation.t) :
  let poolData := LaunchAllocation.pools launch pool in
  let poolData' :=
    LaunchAllocation.pools (executeLotteryPoolOn now random pool launch) pool in
  0 <= PoolAllocation.totalTokens poolData ->
  PoolAllocation.totalTokens poolData' = PoolAllocation.totalTokens poolData
  /\ PoolAllocation.allocated poolData'
     <= PoolAllocation.allocated poolData + PoolAllocation.totalTokens poolData.
Proof.
  intros poolData poolData' HT. subst poolData'. unfold executeLotteryPoolOn.
  fold poolData.
  destruct (PoolAllocation.participants poolData) as [| p ps] eqn:Hps.
  - fold poolData. split; [reflexivity | lra].
  - rewrite set_pool_same.
    cbn [PoolAllocation.totalTokens PoolAllocation.allocated].
    split; [reflexivity |].
    match goal with
    | |- context [drawWinners ?n ?c ?pr ?t ?d0] =>
        destruct (drawWinners_conserves n c pr t d0 HT) as [H1 H2];
        cbn [Draw.allocated Draw.remainingTokens] in H2
    end.
    lra.
Qed.

Lemma executeFCFSPoolOn_conserves (requests : list AllocationRequest.t)
    (launch : LaunchAllocation.t) :
  let pool := LaunchAllocation.pools launch fcfs in
  let pool' := LaunchAllocation.pools (executeFCFSPoolOn requests launch) fcfs in
  0 <= PoolAllocation.totalTokens pool ->
  PoolAllocation.totalTokens pool' = PoolAllocation.totalTokens pool
  /\ PoolAllocation.allocated pool'
     <= PoolAllocation.allocated pool + PoolAllocation.totalTokens pool.
Proof.
  intros pool pool' HT. subst pool'. unfold executeFCFSPoolOn. fold pool.
  rewrite set_pool_same.
  cbn [PoolAllocation.totalTokens PoolAllocation.allocated].
  split; [reflexivity |].
  match goal with
  | |- context [serveFCFS ?c ?pr ?rs ?d0] =>
      destruct (serveFCFS_conserves c pr rs d0 HT) as [H1 H2];
      cbn [Draw.allocated Draw.remainingTokens] in H2
  end.
  lra.
Qed.

Lemma launches_executeLotteryPool (now : Z) (random : nat -> Q)
    (launchId : string) (pool : AllocationPool) (st : ManagerState.t)
    (launch : LaunchAllocation.t) :
  ManagerState.launches st !! launchId = Some launch ->
  ManagerState.launches (executeLotteryPool now random launchId pool st) !! launchId
  = Some (executeLotteryPoolOn now random pool launch).
Proof.
  intros Hl. unfold executeLotteryPool. rewrite Hl. cbn.
  apply lookup_insert_eq.
Qed.

Lemma launches_executeFCFSPool (launchId : string) (st : ManagerState.t)
    (launch : LaunchAllocation.t) :
  ManagerState.launches st !! launchId = Some launch ->
  ManagerState.launches (executeFCFSPool launchId st) !! launchId
  = Some (executeFCFSPoolOn (default [] (ManagerState.requests st !! launchId))
            launch).
Proof.
  intros Hl. unfold executeFCFSPool. rewrite Hl. cbn.
  apply lookup_insert_eq.
Qed.

(** A distribution writes to its own pool only. *)
Lemma executeGuaranteedPoolOn_other (now : Z) (launch : LaunchAllocation.t)
    (q : AllocationPool) :
  q <> guaranteed ->
  LaunchAllocation.pools (executeGuaranteedPoolOn now launch) q
  = LaunchAllocation.pools launch q.
Proof.
  intros Hq. unfold executeGuaranteedPoolOn.
  destruct (PoolAllocation.participants _); [reflexivity |].
  destruct (distributeGuaranteed _ _ _ _ _ _). now apply set_pool_other.
Qed.

Lemma executeLotteryPoolOn_other (now : Z) (random : nat -> Q)
    (pool : AllocationPool) (launch : LaunchAllocation.t) (q : AllocationPool) :
  q <> pool ->
  LaunchAllocation.pools (executeLotteryPoolOn now random pool launch) q
  = LaunchAllocation.pools launch q.
Proof.
  intros Hq. unfold executeLotteryPoolOn.
  destruct (PoolAllocation.participants _); [reflexivity |].
  now apply set_pool_other.
Qed.

Lemma executeFCFSPoolOn_other (requests : list AllocationRequest.t)
    (launch : LaunchAllocation.t) (q : AllocationPool) :
  q <> fcfs ->
  LaunchAllocation.pools (executeFCFSPoolOn requests launch) q
  = LaunchAllocation.pools launch q.
Proof. intros Hq. unfold executeFCFSPoolOn. now apply set_pool_other. Qed.

Lemma floorQ_nonneg (q : Q) : 0 <= q -> 0 <= floorQ q.
Proof.
  intros H. unfold floorQ. change 0 with (inject_Z 0).
  rewrite <- Zle_Qle. change 0%Z with (Qfloor 0). now apply Qfloor_resp_le.
Qed.

(** The launch that [executeAllPools] leaves: the five distributions in their
    fixed order, then the participant count. *)
Lemma launches_executeAllPools (now : Z) (randomW randomP randomF : nat -> Q)
    (launchId : string) (st : ManagerState.t) (launch : LaunchAllocation.t) :
  ManagerState.launches st !! launchId = Some launch ->
  exists participantCount requests,
    ManagerState.launches
      (executeAllPools now randomW randomP randomF launchId st) !! launchId
    = Some (set_participantCount participantCount
              (executeFCFSPoolOn requests
                 (executeLotteryPoolOn now randomF flipper
                    (executeLotteryPoolOn now randomP public_lottery
                       (executeLotteryPoolOn now randomW weighted_lottery
                          (executeGuaranteedPoolOn now launch)))))).
Proof.
  intros Hl. unfold executeAllPools.
  pose proof (launches_executeGuaranteedPool now launchId st launch Hl) as H1.
  pose proof (launches_executeLotteryPool now randomW launchId weighted_lottery
                _ _ H1) as H2.
  pose proof (launches_executeLotteryPool now randomP launchId public_lottery
                _ _ H2) as H3.
  pose proof (launches_executeLotteryPool now randomF launchId flipper
                _ _ H3) as H4.
  pose proof (launches_executeFCFSPool launchId _ _ H4) as H5.
  cbn zeta. rewrite H5. unfold set_launches. cbn [ManagerState.launches].
  rewrite lookup_insert_eq. eexists _, _. reflexivity.
Qed.

End Conservation.

(** * Further properties of the staking tiers *)

Section ScoreMultiplier.
Import StakingTierManager.

Lemma shsToMultiplier_le (s1 s2 : Q) :
  s1 <= s2 -> shsToMultiplier s1 <= shsToMultiplier s2.
Proof.
  intros H. unfold shsToMultiplier, fadd, fmul, fdiv. cbn zeta.
  apply round64_monotone.
  assert (Hd : round64 (s1 / 100) <= round64 (s2 / 100)).
  { apply round64_monotone. unfold Qdiv.
    apply Qmult_le_compat_r; [exact H | discriminate]. }
  assert (Hm : round64 (round64 (s1 / 100)
                        * fsub SHS_MAX_MULTIPLIER SHS_MIN_MULTIPLIER)
               <= round64 (round64 (s2 / 100)
                           * fsub SHS_MAX_MULTIPLIER SHS_MIN_MULTIPLIER)).
  { apply round64_monotone.
    apply Qmult_le_compat_r; [exact Hd | vm_compute; discriminate]. }
  lra.
Qed.

Lemma shsToMultiplier_bounds (shs : Q) :
  0 <= shs <= 100 ->
  SHS_MIN_MULTIPLIER <= shsToMultiplier shs <= SHS_MAX_MULTIPLIER.
Proof.
  intros [H0 H100].
  pose proof (shsToMultiplier_le 0 shs H0) as Hlo.
  pose proof (shsToMultiplier_le shs 100 H100) as Hhi.
  assert (E0 : shsToMultiplier 0 == SHS_MIN_MULTIPLIER) by reflexivity.
  assert (E100 : shsToMultiplier 100 == SHS_MAX_MULTIPLIER) by reflexivity.
  split; lra.
Qed.

(** [shsToMultiplier] is non-decreasing, maps 0 to 0.5 and 100 to 2.0, and
    keeps a score of [0, 100] within [SHS_MIN_MULTIPLIER, SHS_MAX_MULTIPLIER]. *)
Theorem shsToMultiplier_range :
  (forall s1 s2, s1 <= s2 -> shsToMultiplier s1 <= shsToMultiplier s2)
  /\ (forall shs,
        0 <= shs <= 100 ->
        SHS_MIN_MULTIPLIER <= shsToMultiplier shs <= SHS_MAX_MULTIPLIER)
  /\ shsToMultiplier 0 == SHS_MIN_MULTIPLIER
  /\ shsToMultiplier 100 == SHS_MAX_MULTIPLIER.
Proof.
  split; [| split; [| split]].
  - exact shsToMultiplier_le.
  - exact shsToMultiplier_bounds.
  - reflexivity.
  - reflexivity.
Qed.

Lemma shsToMultiplier_range_witness :
  SHS_MIN_MULTIPLIER <= shsToMultiplier 50 <= SHS_MAX_MULTIPLIER.
Proof.
  apply (proj1 (proj2 shsToMultiplier_range) 50). split; discriminate.
Defined.

Lemma allocationWeight_pos (tier : StakingTier) :
  0 < TierConfig.allocationWeight (TIER_CONFIG tier).
Proof. destruct tier; reflexivity. Qed.

(** The effective weight of a tier never decreases when the score grows, and
    for a score of [0, 100] it lies between half and twice the weight of the
    tier. *)
Theorem getEffectiveWeight_monotone (tier : StakingTier) (s1 s2 : Q) :
  s1 <= s2 ->
  getEffectiveWeight tier s1 <= getEffectiveWeight tier s2
  /\ (0 <= s1 -> s2 <= 100 ->
      TierConfig.allocationWeight (TIER_CONFIG tier) * (1 # 2)
      <= getEffectiveWeight tier s1
      /\ getEffectiveWeight tier s2
         <= TierConfig.allocationWeight (TIER_CONFIG tier) * 2).
Proof.
  intros H. unfold getEffectiveWeight, fmul. cbn zeta.
  pose proof (allocationWeight_pos tier) as Hw.
  pose proof (shsToMultiplier_le s1 s2 H) as Hm.
  split; [| intros H0 H100; split].
  - apply round64_monotone.
    rewrite !(Qmult_comm (TierConfig.allocationWeight (TIER_CONFIG tier))).
    apply Qmult_le_compat_r; [exact Hm | now apply Qlt_le_weak].
  - pose proof (shsToMultiplier_le 0 s1 H0) as Hlo.
    assert (E : TierConfig.allocationWeight (TIER_CONFIG tier) * (1 # 2)
                == round64 (TierConfig.allocationWeight (TIER_CONFIG tier)
                            * shsToMultiplier 0))
      by (destruct tier; reflexivity).
    rewrite E. apply round64_monotone.
    rewrite !(Qmult_comm (TierConfig.allocationWeight (TIER_CONFIG tier))).
    apply Qmult_le_compat_r; [exact Hlo | now apply Qlt_le_weak].
  - pose proof (shsToMultiplier_le s2 100 H100) as Hhi.
    assert (E : TierConfig.allocationWeight (TIER_CONFIG tier) * 2
                == round64 (TierConfig.allocationWeight (TIER_CONFIG tier)
                            * shsToMultiplier 100))
      by (destruct tier; reflexivity).
    rewrite E. apply round64_monotone.
    rewrite !(Qmult_comm (TierConfig.allocationWeight (TIER_CONFIG tier))).
    apply Qmult_le_compat_r; [exact Hhi | now apply Qlt_le_weak].
Qed.

Lemma getEffectiveWeight_monotone_witness :
  getEffectiveWeight gold 20 <= getEffectiveWeight gold 80.
Proof.
  refine (proj1 (getEffectiveWeight_monotone gold 20 80 _)). discriminate.
Defined.

(** The lottery boost of a wallet: 1 (the public boost) without a position,
    else the boost of the tier scaled by the multiplier of the score, which
    for a score of [0, 100] lies between half and twice the tier boost. *)
Theorem getLotteryBoost_range (wallet : string) (stakers : Stakers) :
  (stakers !! wallet = None -> getLotteryBoost wallet stakers = 1)
  /\ (forall p,
        stakers !! wallet = Some p ->
        0 <= StakerPosition.strongHolderScore p <= 100 ->
        let boost := TierConfig.lotteryBoost (TIER_CONFIG (StakerPosition.tier p)) in
        boost * (1 # 2) <= getLotteryBoost wallet stakers <= boost * 2).
Proof.
  split.
  - intros H. unfold getLotteryBoost. now rewrite H.
  - intros p H [H0 H100] boost. unfold getLotteryBoost, fmul. rewrite H.
    fold boost.
    assert (Hb : 0 < boost)
      by (subst boost; destruct (StakerPosition.tier p); reflexivity).
    pose proof (shsToMultiplier_le 0 _ H0) as Hlo.
    pose proof (shsToMultiplier_le _ 100 H100) as Hhi.
    assert (E0 : boost * (1 # 2) == round64 (boost * shsToMultiplier 0))
      by (subst boost; destruct (StakerPosition.tier p); reflexivity).
    assert (E100 : boost * 2 == round64 (boost * shsToMultiplier 100))
      by (subst boost; destruct (StakerPosition.tier p); reflexivity).
    rewrite E0, E100. split; apply round64_monotone;
      rewrite !(Qmult_comm boost);
      (apply Qmult_le_compat_r; [assumption | now apply Qlt_le_weak]).
Qed.

Lemma getLotteryBoost_range_witness :
  getLotteryBoost "B" ledger_A_100 = 1.
Proof.
  apply (proj1 (getLotteryBoost_range "B" ledger_A_100)).
  vm_compute. reflexivity.
Defined.

End ScoreMultiplier.

Section Ledger.
Import StakingTierManager.

(** [stake], [unstake] and [updateSHS] store positions whose weight is the
    weight of their tier and score: a ledger whose positions all have that
    property keeps it. *)
Theorem effectiveWeight_invariant (stakers : Stakers) :
  weight_consistent stakers ->
  (forall now request, weight_consistent (snd (stake now request stakers)))
  /\ (forall now request, weight_consistent (snd (unstake now request stakers)))
  /\ (forall wallet newSHS, weight_consistent (updateSHS wallet newSHS stakers)).
Proof.
  intros Hinv. split; [| split].
  - intros now request. unfold stake. cbn [snd].
    apply map_Forall_insert_2; [reflexivity | exact Hinv].
  - intros now request. unfold unstake.
    destruct (stakers !! UnstakeRequest.wallet request) as [p |]; [| exact Hinv].
    destruct (Qlt_bool _ _); [exact Hinv |].
    destruct (UnstakeRequest.early request && isAfter (StakerPosition.lockEndDate p) now);
      destruct (Qle_bool _ 0); cbn [snd];
      solve [ apply map_Forall_delete; exact Hinv
            | apply map_Forall_insert_2; [reflexivity | exact Hinv] ].
  - intros wallet newSHS. unfold updateSHS.
    destruct (stakers !! wallet) as [p |]; [| exact Hinv].
    apply map_Forall_insert_2; [reflexivity | exact Hinv].
Qed.

Lemma effectiveWeight_invariant_witness :
  weight_consistent (updateSHS "A" 80 ledger_A_100).
Proof.
  refine (proj2 (proj2 (effectiveWeight_invariant ledger_A_100 _)) "A" 80).
  unfold ledger_A_100, stake. cbn [snd].
  apply map_Forall_insert_2; [reflexivity | apply map_Forall_empty].
Defined.

Lemma stake_other (now : Z) (request : StakeRequest.t) (stakers : Stakers)
    (other : string) :
  StakeRequest.wallet request <> other ->
  snd (stake now request stakers) !! other = stakers !! other.
Proof. intros Hne. unfold stake. cbn [snd]. now apply lookup_insert_ne. Qed.

Lemma unstake_other (now : Z) (request : UnstakeRequest.t) (stakers : Stakers)
    (other : string) :
  UnstakeRequest.wallet request <> other ->
  snd (unstake now request stakers) !! other = stakers !! other.
Proof.
  intros Hne. unfold unstake.
  destruct (stakers !! UnstakeRequest.wallet request) as [p |]; [| reflexivity].
  destruct (Qlt_bool _ _); [reflexivity |].
  destruct (UnstakeRequest.early request && isAfter (StakerPosition.lockEndDate p) now);
    destruct (Qle_bool _ 0); cbn [snd];
    solve [ now apply lookup_delete_ne | now apply lookup_insert_ne ].
Qed.

Lemma updateSHS_other (wallet : string) (newSHS : Q) (stakers : Stakers)
    (other : string) :
  wallet <> other ->
  updateSHS wallet newSHS stakers !! other = stakers !! other.
Proof.
  intros Hne. unfold updateSHS.
  destruct (stakers !! wallet) as [p |]; [| reflexivity].
  now apply lookup_insert_ne.
Qed.

(** [stake], [unstake] and [updateSHS] read and write the position of their
    own wallet only. *)
Theorem staking_frame (other : string) (stakers : Stakers) :
  (forall now request,
     StakeRequest.wallet request <> other ->
     snd (stake now request stakers) !! other = stakers !! other)
  /\ (forall now request,
        UnstakeRequest.wallet request <> other ->
        snd (unstake now request stakers) !! other = stakers !! other)
  /\ (forall wallet newSHS,
        wallet <> other ->
        updateSHS wallet newSHS stakers !! other = stakers !! other).
Proof.
  split; [| split].
  - intros now request Hne. now apply stake_other.
  - intros now request Hne. now apply unstake_other.
  - intros wallet newSHS Hne. now apply updateSHS_other.
Qed.

Lemma staking_frame_witness :
  snd (unstake 1000 (UnstakeRequest.mk "B" 5 true) ledger_A_100) !! "A"
  = ledger_A_100 !! "A".
Proof.
  refine (proj1 (proj2 (staking_frame "A" ledger_A_100)) 1000%Z
            (UnstakeRequest.mk "B" 5 true) _).
  discriminate.
Defined.

(** [stake] on a wallet without a position creates one: balance as
    requested, staked now, tier from the request, score 50 and hence a
    weight of 1.25 times the weight of the tier, no allocation received yet.
    The lock end is the [Date] made from [now + lockDays]: that time,
    truncated to milliseconds, when it is within the range of time values,
    and the Invalid Date beyond it. *)
Theorem stake_new_position (now : Z) (request : StakeRequest.t) (stakers : Stakers) :
  let time := lockEndTime now (StakeRequest.lockDays request) in
  stakers !! StakeRequest.wallet request = None ->
  exists p,
    stake now request stakers
    = (Returned p, <[StakeRequest.wallet request := p]> stakers)
    /\ StakerPosition.wallet p = StakeRequest.wallet request
    /\ StakerPosition.stakedAmount p = StakeRequest.amount request
    /\ StakerPosition.stakedAt p = ValidDate now
    /\ StakerPosition.lockEndDate p
       = lockEndFrom now (StakeRequest.lockDays request)
    /\ (Qabs time <= MAX_TIME ->
        StakerPosition.lockEndDate p = ValidDate (Qtrunc time))
    /\ (MAX_TIME < Qabs time -> StakerPosition.lockEndDate p = InvalidDate)
    /\ StakerPosition.tier p
       = getTierForStake (StakeRequest.amount request)
           (StakeRequest.lockDays request)
    /\ StakerPosition.strongHolderScore p = 50
    /\ StakerPosition.effectiveWeight p
       == TierConfig.allocationWeight (TIER_CONFIG (StakerPosition.tier p))
          * (5 # 4)
    /\ StakerPosition.totalAllocationsReceived p = 0
    /\ StakerPosition.totalAllocationsValue p = 0
    /\ StakerPosition.loyaltyStreak p = 0.
Proof.
  intros time H. unfold stake. rewrite H. eexists. split; [reflexivity |].
  cbn [set_effectiveWeight StakerPosition.wallet StakerPosition.stakedAmount
       StakerPosition.stakedAt StakerPosition.lockEndDate StakerPosition.tier
       StakerPosition.strongHolderScore StakerPosition.effectiveWeight
       StakerPosition.totalAllocationsReceived
       StakerPosition.totalAllocationsValue StakerPosition.loyaltyStreak].
  fold time.
  repeat (split; [reflexivity |]).
  split; [apply makeDate_valid |]. split; [apply makeDate_invalid |].
  repeat (split; [reflexivity |]).
  split; [| repeat split].
  destruct (getTierForStake _ _); reflexivity.
Qed.

Lemma stake_new_position_witness :
  exists p,
    stake 0 (StakeRequest.mk "A" 100000 180) ∅
    = (Returned p, <["A" := p]> ∅)
    /\ StakerPosition.lockEndDate p = ValidDate 15552000000
    /\ StakerPosition.tier p = getTierForStake 100000 180
    /\ StakerPosition.effectiveWeight p
       == TierConfig.allocationWeight (TIER_CONFIG (StakerPosition.tier p))
          * (5 # 4).
Proof.
  destruct (stake_new_position 0 (StakeRequest.mk "A" 100000 180) ∅)
    as (p & Hrun & _ & _ & _ & _ & Hdate & _ & Htier & _ & Hw & _).
  - reflexivity.
  - exists p. split; [exact Hrun |]. split; [| split; [exact Htier | exact Hw]].
    rewrite Hdate; [reflexivity |]. vm_compute. discriminate.
Defined.

(** An accepted [unstake] that is not early, or that comes when the lock has
    ended or the lock end is the Invalid Date, returns the whole amount and
    applies no penalty. *)
Theorem unstake_without_penalty (now : Z) (request : UnstakeRequest.t)
    (stakers : Stakers) (p : StakerPosition.t) :
  stakers !! UnstakeRequest.wallet request = Some p ->
  UnstakeRequest.amount request <= StakerPosition.stakedAmount p ->
  UnstakeRequest.early request = false
  \/ (forall lockEnd,
        StakerPosition.lockEndDate p = ValidDate lockEnd -> (lockEnd <= now)%Z) ->
  exists result,
    fst (unstake now request stakers) = Returned result
    /\ UnstakeResult.penaltyApplied result = 0
    /\ UnstakeResult.amountReturned result = UnstakeRequest.amount request.
Proof.
  intros Hp Hle Hcase. unfold unstake. rewrite Hp.
  apply Qlt_bool_false in Hle. rewrite Hle.
  assert (Hno : UnstakeRequest.early request
                && isAfter (StakerPosition.lockEndDate p) now = false).
  { destruct Hcase as [-> | Hlock]; [reflexivity |].
    destruct (StakerPosition.lockEndDate p) as [lockEnd |];
      [| apply andb_false_r].
    specialize (Hlock lockEnd eq_refl). cbn [isAfter].
    apply Z.ltb_ge in Hlock. rewrite Hlock. apply andb_false_r. }
  rewrite Hno.
  destruct (Qle_bool _ 0); eexists; repeat split.
Qed.

Lemma unstake_without_penalty_witness :
  exists result,
    fst (unstake 1000 (UnstakeRequest.mk "A" 40 false) ledger_A_100)
    = Returned result
    /\ UnstakeResult.penaltyApplied result = 0
    /\ UnstakeResult.amountReturned result = 40.
Proof.
  refine (unstake_without_penalty 1000 (UnstakeRequest.mk "A" 40 false)
            ledger_A_100
            (StakerPosition.mk "A" 100 (ValidDate 0) (ValidDate 2592000000)
               public 50 (getEffectiveWeight public 50) 0 0 0) _ _ _).
  - vm_compute. reflexivity.
  - vm_compute. discriminate.
  - left. reflexivity.
Defined.

(** Withdrawing the whole balance deletes the position and returns no new
    position; staking on a wallet without a position and unstaking the same
    amount gives the ledger back. *)
Theorem unstake_whole_balance :
  (forall now request stakers p,
     stakers !! UnstakeRequest.wallet request = Some p ->
     UnstakeRequest.amount request == StakerPosition.stakedAmount p ->
     exists result,
       unstake now request stakers
       = (Returned result, delete (UnstakeRequest.wallet request) stakers)
       /\ UnstakeResult.newPosition result = None)
  /\ (forall now now' wallet amount lockDays early stakers,
        stakers !! wallet = None ->
        snd (unstake now' (UnstakeRequest.mk wallet amount early)
               (snd (stake now (StakeRequest.mk wallet amount lockDays) stakers)))
        = stakers).
Proof.
  assert (Hwhole : forall now request stakers p,
     stakers !! UnstakeRequest.wallet request = Some p ->
     UnstakeRequest.amount request == StakerPosition.stakedAmount p ->
     exists result,
       unstake now request stakers
       = (Returned result, delete (UnstakeRequest.wallet request) stakers)
       /\ UnstakeResult.newPosition result = None).
  { intros now request stakers p Hp Heq. unfold unstake. rewrite Hp.
    assert (H1 : Qlt_bool (StakerPosition.stakedAmount p)
                          (UnstakeRequest.amount request) = false)
      by (apply Qlt_bool_false; lra).
    assert (H2 : Qle_bool (StakerPosition.stakedAmount p
                           - UnstakeRequest.amount request) 0 = true)
      by (apply Qle_bool_iff; lra).
    rewrite H1.
    destruct (UnstakeRequest.early request && isAfter (StakerPosition.lockEndDate p) now);
      rewrite H2; eexists; split; reflexivity. }
  split; [exact Hwhole |].
  intros now now' wallet amount lockDays early stakers Hnone.
  unfold stake. cbn [StakeRequest.wallet StakeRequest.amount StakeRequest.lockDays].
  rewrite Hnone. cbn [snd].
  match goal with
  | |- context [<[wallet := ?q]> stakers] =>
      destruct (Hwhole now' (UnstakeRequest.mk wallet amount early)
                  (<[wallet := q]> stakers) q) as (result & Hun & _)
  end.
  - cbn [UnstakeRequest.wallet]. apply lookup_insert_eq.
  - cbn. reflexivity.
  - rewrite Hun. cbn [snd UnstakeRequest.wallet]. now apply delete_insert_id.
Qed.

Lemma unstake_whole_balance_witness :
  snd (unstake 7 (UnstakeRequest.mk "B" 300 true)
         (snd (stake 0 (StakeRequest.mk "B" 300 30) ledger_A_100)))
  = ledger_A_100.
Proof.
  refine (proj2 unstake_whole_balance 0%Z 7%Z "B" 300 30 true ledger_A_100 _).
  vm_compute. reflexivity.
Defined.

(** A valid lock end of a wallet never moves back: after [stake] a valid
    lock end is at or after the valid lock end before; [stake] makes the
    lock end the Invalid Date when the time it computes is beyond the range
    of time values, and it keeps an invalid lock end invalid; [unstake] and
    [updateSHS] leave the lock end as it is, for as long as the position
    exists. *)
Theorem lockEndDate_monotone (wallet : string) (stakers : Stakers)
    (p p' : StakerPosition.t) :
  stakers !! wallet = Some p ->
  (forall now request lockEnd lockEnd',
     snd (stake now request stakers) !! wallet = Some p' ->
     StakerPosition.lockEndDate p = ValidDate lockEnd ->
     StakerPosition.lockEndDate p' = ValidDate lockEnd' ->
     (lockEnd <= lockEnd')%Z)
  /\ (forall now request,
        snd (stake now request stakers) !! wallet = Some p' ->
        StakerPosition.lockEndDate p = InvalidDate ->
        StakerPosition.lockEndDate p' = InvalidDate)
  /\ (forall now request,
        snd (unstake now request stakers) !! wallet = Some p' ->
        StakerPosition.lockEndDate p' = StakerPosition.lockEndDate p)
  /\ (forall target newSHS,
        updateSHS target newSHS stakers !! wallet = Some p' ->
        StakerPosition.lockEndDate p' = StakerPosition.lockEndDate p).
Proof.
  intros Hp. split; [| split; [| split]].
  - intros now request lockEnd lockEnd' H Hold Hnew.
    destruct (decide (StakeRequest.wallet request = wallet)) as [Heq | Hne].
    + revert H. unfold stake. cbn [snd]. rewrite Heq, lookup_insert_eq, Hp.
      intros [= <-]. revert Hnew.
      cbn [set_effectiveWeight StakerPosition.lockEndDate].
      rewrite Hold. cbn [laterDate]. unfold makeDate.
      destruct (Qle_bool _ MAX_TIME); [| discriminate].
      intros [= <-]. rewrite Qtrunc_max. lia.
    + rewrite (stake_other now request stakers wallet Hne), Hp in H.
      injection H as <-. rewrite Hold in Hnew. injection Hnew as <-. lia.
  - intros now request H Hold.
    destruct (decide (StakeRequest.wallet request = wallet)) as [Heq | Hne].
    + revert H. unfold stake. cbn [snd]. rewrite Heq, lookup_insert_eq, Hp.
      intros [= <-]. cbn [set_effectiveWeight StakerPosition.lockEndDate].
      now rewrite Hold.
    + rewrite (stake_other now request stakers wallet Hne), Hp in H.
      now injection H as <-.
  - intros now request H.
    destruct (decide (UnstakeRequest.wallet request = wallet)) as [Heq | Hne].
    + revert H. unfold unstake. rewrite Heq, Hp.
      destruct (Qlt_bool _ _); [cbn [snd]; rewrite Hp; now intros [= <-] |].
      destruct (UnstakeRequest.early request && isAfter (StakerPosition.lockEndDate p) now);
        destruct (Qle_bool _ 0); cbn [snd];
        rewrite ?lookup_delete_eq, ?lookup_insert_eq;
        solve [ discriminate | now intros [= <-] ].
    + rewrite (unstake_other now request stakers wallet Hne), Hp in H.
      now injection H as <-.
  - intros target newSHS H.
    destruct (decide (target = wallet)) as [Heq | Hne].
    + revert H. unfold updateSHS. rewrite Heq, Hp, lookup_insert_eq.
      now intros [= <-].
    + rewrite (updateSHS_other target newSHS stakers wallet Hne), Hp in H.
      now injection H as <-.
Qed.

Lemma lockEndDate_monotone_witness :
  exists lockEnd',
    StakerPosition.lockEndDate
      <$> (snd (stake 1000 (StakeRequest.mk "A" 1 30) ledger_A_100) !! "A")
    = Some (ValidDate lockEnd')
    /\ (2592000000 <= lockEnd')%Z.
Proof.
  exists 2592001000%Z. split; [vm_compute; reflexivity |].
  refine (proj1 (lockEndDate_monotone "A" ledger_A_100
                   (StakerPosition.mk "A" 100 (ValidDate 0) (ValidDate 2592000000)
                      public 50 (getEffectiveWeight public 50) 0 0 0)
                   (StakerPosition.mk "A" (100 + 1) (ValidDate 0)
                      (ValidDate 2592001000) public 50
                      (getEffectiveWeight public 50) 0 0 0) _)
            1000%Z (StakeRequest.mk "A" 1 30) 2592000000%Z 2592001000%Z _ _ _).
  - vm_compute. reflexivity.
  - vm_compute. reflexivity.
  - reflexivity.
  - reflexivity.
Defined.

End Ledger.

Section TierAndScore.
Import StakingTierManager.

(** [getTierForStake] returns the highest tier whose two minimums are both
    met: the minimums of the returned tier are met unless it is [public],
    and no tier above the returned one has both of its minimums met. *)
Theorem getTierForStake_highest (amount days : Q) :
  let t := getTierForStake amount days in
  (t <> public ->
   TierConfig.minStake (TIER_CONFIG t) <= amount
   /\ TierConfig.lockDays (TIER_CONFIG t) <= days)
  /\ (forall t',
        TierConfig.minStake (TIER_CONFIG t') <= amount ->
        TierConfig.lockDays (TIER_CONFIG t') <= days ->
        tier_le t' t).
Proof.
  cbn zeta. split.
  - intros Hne.
    assert (H : tier_le (getTierForStake amount days) (getTierForStake amount days))
      by (unfold tier_le; lia).
    apply getTierForStake_rank in H as [H | H]; [exact H | contradiction].
  - intros t' H1 H2. apply getTierForStake_rank. left. now split.
Qed.

Lemma getTierForStake_highest_witness :
  tier_le silver (getTierForStake 60000 75).
Proof.
  refine (proj2 (getTierForStake_highest 60000 75) silver _ _); discriminate.
Defined.

Lemma Qdiv_le_compat (a b d : Q) : 0 < d -> a <= b -> a / d <= b / d.
Proof.
  intros Hd Hab. unfold Qdiv. apply Qmult_le_compat_r; [exact Hab |].
  apply Qinv_le_0_compat. lra.
Qed.

(** The score never drops when, for the same number of launches, the holder
    holds longer, holds more launches long, flips fewer, provides liquidity
    or votes more. *)
Theorem calculateSHS_monotone (h1 h2 : HoldHistory.t) :
  HoldHistory.launchesParticipated h1 = HoldHistory.launchesParticipated h2 ->
  HoldHistory.holdDuration h1 <= HoldHistory.holdDuration h2 ->
  HoldHistory.launchesHeldLong h1 <= HoldHistory.launchesHeldLong h2 ->
  HoldHistory.quickFlips h2 <= HoldHistory.quickFlips h1 ->
  (HoldHistory.lpProvided h1 = true -> HoldHistory.lpProvided h2 = true) ->
  HoldHistory.governanceVotes h1 <= HoldHistory.governanceVotes h2 ->
  calculateSHS h1 <= calculateSHS h2.
Proof.
  intros Hn Hhold Hlong Hflip Hlp Hvotes. unfold calculateSHS. cbn zeta.
  rewrite <- Hn.
  set (d := Qmax (HoldHistory.launchesParticipated h1) 1).
  assert (Hd : 0 < d)
    by (pose proof (Q.le_max_r (HoldHistory.launchesParticipated h1) 1);
        fold d in H; lra).
  assert (HA : Qmin (HoldHistory.holdDuration h1 / 90) 1
               <= Qmin (HoldHistory.holdDuration h2 / 90) 1)
    by (apply Q.min_le_compat_r, Qdiv_le_compat; [reflexivity | exact Hhold]).
  pose proof (Qdiv_le_compat _ _ d Hd Hlong) as HL.
  pose proof (Qdiv_le_compat _ _ d Hd Hflip) as HF.
  assert (HV : Qmin (HoldHistory.governanceVotes h1) 5
               <= Qmin (HoldHistory.governanceVotes h2) 5)
    by (apply Q.min_le_compat_r; exact Hvotes).
  apply Q.max_le_compat_l, Q.min_le_compat_l.
  repeat match goal with
         | |- context [?a / ?b] =>
             let x := fresh "x" in set (x := a / b) in *; clearbody x
         end.
  destruct (HoldHistory.lpProvided h1), (HoldHistory.lpProvided h2);
    try (specialize (Hlp eq_refl); discriminate); lra.
Qed.

Lemma calculateSHS_monotone_witness :
  calculateSHS (HoldHistory.mk 10 4 1 3 false 0)
  <= calculateSHS (HoldHistory.mk 45 4 2 1 true 7).
Proof.
  apply calculateSHS_monotone; cbn; try reflexivity; try discriminate.
Defined.

Lemma tier_count_partition (l : list StakerPosition.t) :
  (length (List.filter (fun s => bool_decide (StakerPosition.tier s = diamond)) l)
   + length (List.filter (fun s => bool_decide (StakerPosition.tier s = gold)) l)
   + length (List.filter (fun s => bool_decide (StakerPosition.tier s = silver)) l)
   + length (List.filter (fun s => bool_decide (StakerPosition.tier s = bronze)) l)
   + length (List.filter (fun s => bool_decide (StakerPosition.tier s = public)) l)
   = length l)%nat.
Proof.
  induction l as [| p l IH]; [reflexivity |].
  cbn [List.filter].
  repeat match goal with
         | |- context [List.filter ?f l] =>
             let x := fresh "x" in set (x := List.filter f l) in *; clearbody x
         end.
  destruct (StakerPosition.tier p);
    repeat (case_bool_decide; try congruence); cbn [length]; lia.
Qed.

Lemma In_stakerValues (stakers : Stakers) (p : StakerPosition.t) :
  In p (stakerValues stakers) <-> exists wallet, stakers !! wallet = Some p.
Proof.
  unfold stakerValues. rewrite in_map_iff. split.
  - intros ([w q] & <- & Hin). exists w.
    apply list_elem_of_In in Hin. now apply elem_of_map_to_list in Hin.
  - intros (w & Hw). exists (w, p). split; [reflexivity |].
    apply list_elem_of_In. now apply elem_of_map_to_list.
Qed.

(** The statistics by tier partition the ledger: a position is listed under
    a tier exactly when it is stored with that tier, [getTierStats] has one
    row per tier, each with the size of its list, the counts add up to the
    number of stakers, and the average score of a tier without stakers is 0. *)
Theorem getTierStats_partition (stakers : Stakers) :
  (forall tier p,
     In p (getStakersByTier tier stakers)
     <-> (exists wallet, stakers !! wallet = Some p)
         /\ StakerPosition.tier p = tier)
  /\ map TierStats.tier (getTierStats stakers)
     = [diamond; gold; silver; bronze; public]
  /\ map TierStats.count (getTierStats stakers)
     = map (fun tier => length (getStakersByTier tier stakers))
           [diamond; gold; silver; bronze; public]
  /\ fold_right Nat.add 0%nat (map TierStats.count (getTierStats stakers))
     = size stakers
  /\ Forall (fun row => TierStats.count row = 0%nat -> TierStats.avgSHS row = 0)
            (getTierStats stakers).
Proof.
  split; [| split; [| split; [| split]]].
  - intros tier p. unfold getStakersByTier. rewrite filter_In, In_stakerValues.
    rewrite bool_decide_eq_true. reflexivity.
  - reflexivity.
  - reflexivity.
  - unfold getTierStats. cbn [map TierStats.count fold_right].
    unfold getStakersByTier.
    pose proof (tier_count_partition (stakerValues stakers)) as H.
    unfold stakerValues in *. rewrite length_map, length_map_to_list in H.
    lia.
  - unfold getTierStats. cbn [map].
    repeat constructor; cbn [TierStats.count TierStats.avgSHS];
      intros ->; reflexivity.
Qed.

Lemma getTierStats_partition_witness :
  In (StakerPosition.mk "A" 100 (ValidDate 0) (ValidDate 2592000000) public 50
        (getEffectiveWeight public 50) 0 0 0)
     (getStakersByTier public ledger_A_100).
Proof.
  apply (proj1 (getTierStats_partition ledger_A_100)).
  split; [exists "A"; vm_compute; reflexivity | reflexivity].
Defined.

End TierAndScore.

(** * Further properties of the allocation pools *)

Section Intake.
Import AllocationManager.

#[local] Arguments set_pool : simpl never.

(** [initializeLaunch] stores a launch whose seven pools are pending, empty
    and untouched, each of the floored share of the supply that
    [POOL_CONFIG] gives it; the percentages add up to 100, so the pools
    together hold at most the supply and fall short of it by less than one
    token per pool; the request log of the launch is empty and the other
    launches are as before. *)
Theorem initializeLaunch_partition (launchId : string) (totalTokens tokenPrice : Q)
    (st : ManagerState.t) :
  let launch := fst (initializeLaunch launchId totalTokens tokenPrice st) in
  let st' := snd (initializeLaunch launchId totalTokens tokenPrice st) in
  let poolTokens pool :=
    PoolAllocation.totalTokens (LaunchAllocation.pools launch pool) in
  ManagerState.launches st' !! launchId = Some launch
  /\ ManagerState.requests st' !! launchId = Some []
  /\ (forall other,
        other <> launchId ->
        ManagerState.launches st' !! other = ManagerState.launches st !! other
        /\ ManagerState.requests st' !! other = ManagerState.requests st !! other)
  /\ (forall pool,
        LaunchAllocation.pools launch pool
        = PoolAllocation.mk pool
            (floorQ (totalTokens * (PoolConfig.percent (POOL_CONFIG pool) / 100)))
            (poolTokens pool * tokenPrice) 0 (poolTokens pool) []
            PoolStatus.pending)
  /\ Qsum (map (fun pool => PoolConfig.percent (POOL_CONFIG pool)) ALL_POOLS)
     == 100
  /\ Qsum (map poolTokens ALL_POOLS) <= totalTokens
  /\ totalTokens - 7 < Qsum (map poolTokens ALL_POOLS).
Proof.
  cbn zeta. unfold initializeLaunch. cbn [fst snd ManagerState.launches
                                          ManagerState.requests
                                          LaunchAllocation.pools
                                          PoolAllocation.totalTokens].
  split; [apply lookup_insert_eq |]. split; [apply lookup_insert_eq |].
  split; [intros other Hne; split; now apply lookup_insert_ne |].
  split; [reflexivity |]. split; [reflexivity |].
  unfold ALL_POOLS, Qsum.
  cbn [map fold_right POOL_CONFIG PoolConfig.percent].
  repeat match goal with
         | |- context [floorQ ?x] =>
             pose proof (floorQ_le x); pose proof (floorQ_lt x);
             let f := fresh "f" in set (f := floorQ x) in *; clearbody f
         end.
  assert (E : totalTokens * (30 / 100) + totalTokens * (25 / 100)
              + totalTokens * (10 / 100) + totalTokens * (5 / 100)
              + totalTokens * (5 / 100) + totalTokens * (15 / 100)
              + totalTokens * (10 / 100) == totalTokens) by field.
  repeat match goal with
         | H : context [totalTokens * ?c] |- _ =>
             let y := fresh "y" in set (y := totalTokens * c) in *; clearbody y
         end.
  split; lra.
Qed.

Lemma initializeLaunch_partition_witness :
  ManagerState.launches
    (snd (initializeLaunch "M" 1000000 (1 # 1000) lottery_request)) !! "L"
  = ManagerState.launches lottery_request !! "L".
Proof.
  refine (proj1 (proj1 (proj2 (proj2
            (initializeLaunch_partition "M" 1000000 (1 # 1000) lottery_request)))
            "L" _)).
  discriminate.
Defined.

Lemma validateRequest_no_staking (stakers : Stakers) (request : AllocationRequest.t)
    (pool : AllocationPool) :
  PoolConfig.requiresStaking (POOL_CONFIG pool) = false ->
  validateRequest stakers request (POOL_CONFIG pool) = None.
Proof. intros H. unfold validateRequest. now rewrite H. Qed.

(** The staking gate of the pools.  The pools that do not require staking
    accept every wallet; the guaranteed pool accepts exactly the wallets for
    which [hasGuaranteedAllocation] holds (gold and diamond); the weighted
    lottery accepts exactly the wallets with a position above [public]. *)
Theorem validateRequest_gate (stakers : Stakers) (request : AllocationRequest.t) :
  let wallet := AllocationRequest.wallet request in
  (forall pool,
     pool <> guaranteed -> pool <> weighted_lottery ->
     validateRequest stakers request (POOL_CONFIG pool) = None)
  /\ (validateRequest stakers request (POOL_CONFIG guaranteed) = None
      <-> StakingTierManager.hasGuaranteedAllocation wallet stakers = true)
  /\ (validateRequest stakers request (POOL_CONFIG weighted_lottery) = None
      <-> exists p, stakers !! wallet = Some p /\ StakerPosition.tier p <> public)
  /\ (stakers !! wallet = None ->
      validateRequest stakers request (POOL_CONFIG guaranteed)
      = Some "Staking required for this pool"
      /\ validateRequest stakers request (POOL_CONFIG weighted_lottery)
         = Some "Staking required for this pool").
Proof.
  cbn zeta. split; [| split; [| split]].
  - intros pool H1 H2. apply validateRequest_no_staking.
    destruct pool; try reflexivity; congruence.
  - unfold validateRequest, StakingTierManager.hasGuaranteedAllocation,
      StakingTierManager.getPosition.
    cbn [POOL_CONFIG PoolConfig.requiresStaking PoolConfig.minTier].
    destruct (stakers !! AllocationRequest.wallet request) as [p |];
      [| split; discriminate].
    destruct (StakerPosition.tier p); cbn; split; (reflexivity || discriminate).
  - unfold validateRequest, StakingTierManager.getPosition.
    cbn [POOL_CONFIG PoolConfig.requiresStaking PoolConfig.minTier].
    destruct (stakers !! AllocationRequest.wallet request) as [p |].
    + destruct (StakerPosition.tier p) eqn:E; cbn; split;
        try discriminate; try reflexivity.
      all: try (intros _; exists p; split; [reflexivity | congruence]).
      intros (q & [= <-] & Hq). congruence.
    + split; [discriminate | intros (q & Hq & _); discriminate].
  - intros H. unfold validateRequest, StakingTierManager.getPosition.
    cbn [POOL_CONFIG PoolConfig.requiresStaking]. rewrite H. split; reflexivity.
Qed.

Lemma validateRequest_gate_witness :
  validateRequest ledger_A_100 (AllocationRequest.mk "A" "L" fcfs 10)
    (POOL_CONFIG fcfs) = None
  /\ validateRequest ledger_A_100 (AllocationRequest.mk "B" "L" guaranteed 10)
       (POOL_CONFIG guaranteed) = Some "Staking required for this pool".
Proof.
  split.
  - apply (proj1 (validateRequest_gate ledger_A_100
                    (AllocationRequest.mk "A" "L" fcfs 10)) fcfs); discriminate.
  - apply (proj2 (proj2 (proj2 (validateRequest_gate ledger_A_100
                    (AllocationRequest.mk "B" "L" guaranteed 10))))).
    vm_compute. reflexivity.
Defined.

(** A rejected [submitRequest] writes nothing: it returns [success: false]
    with an error message and no entry, and both maps of the manager are as
    before.  It is rejected for an unknown launch, for a pool that is not
    open, and for a wallet that fails the staking gate, with the messages of
    the source. *)
Theorem submitRequest_rejected (stakers : Stakers) (request : AllocationRequest.t)
    (st : ManagerState.t) :
  let res := submitRequest stakers request st in
  let launchId := AllocationRequest.launchId request in
  let pool := AllocationRequest.pool request in
  (SubmitResult.success (fst res) = false ->
   snd res = st
   /\ SubmitResult.entry (fst res) = None
   /\ exists error, SubmitResult.error (fst res) = Some error)
  /\ (ManagerState.launches st !! launchId = None ->
      fst res = failure "Launch not found")
  /\ (forall launch,
        ManagerState.launches st !! launchId = Some launch ->
        PoolAllocation.status (LaunchAllocation.pools launch pool)
        <> PoolStatus.open ->
        fst res = failure "Pool not open for requests")
  /\ (forall launch error,
        ManagerState.launches st !! launchId = Some launch ->
        PoolAllocation.status (LaunchAllocation.pools launch pool)
        = PoolStatus.open ->
        validateRequest stakers request (POOL_CONFIG pool) = Some error ->
        fst res = failure error).
Proof.
  cbn zeta. unfold submitRequest. split; [| split; [| split]].
  - destruct (ManagerState.launches st !! AllocationRequest.launchId request)
      as [launch |]; [| intros _; cbn; eauto].
    destruct (negb _); [intros _; cbn; eauto |].
    destruct (validateRequest _ _ _) as [error |]; [intros _; cbn; eauto |].
    cbn. discriminate.
  - intros H. now rewrite H.
  - intros launch Hl Hs. rewrite Hl.
    now rewrite (bool_decide_eq_false_2 _ Hs).
  - intros launch error Hl Hs Hv. rewrite Hl, Hv.
    now rewrite (bool_decide_eq_true_2 _ Hs).
Qed.

Lemma submitRequest_rejected_witness :
  fst (submitRequest single_staker (AllocationRequest.mk "A" "L" guaranteed 10)
         single_request)
  = failure "Pool not open for requests".
Proof.
  edestruct (submitRequest_rejected single_staker
               (AllocationRequest.mk "A" "L" guaranteed 10) single_request)
    as (_ & _ & Hclosed & _).
  eapply Hclosed.
  - vm_compute. reflexivity.
  - vm_compute. discriminate.
Defined.

(** An accepted [submitRequest] appends one pending entry, with nothing
    allocated and no schedule, to the participants of its pool and the
    request to the log of the launch.  The entry asks for the requested
    amount clamped to [maxPerWallet]; its ticket count is the floor of the
    product, rounded to binary64, of that amount and the lottery boost of the
    wallet; its weight is the effective weight of the position, or the
    public weight when there is no position or the stored weight is 0, so it
    is never 0.  The counters and the status of the pool, and the other
    pools, are as before; nothing prevents a wallet from entering the same
    pool again. *)
Theorem submitRequest_accepted (stakers : Stakers) (request : AllocationRequest.t)
    (st : ManagerState.t) (launch : LaunchAllocation.t) :
  let res := submitRequest stakers request st in
  let launchId := AllocationRequest.launchId request in
  let pool := AllocationRequest.pool request in
  let poolData := LaunchAllocation.pools launch pool in
  let maxPerWallet := PoolConfig.maxPerWallet (POOL_CONFIG pool) in
  ManagerState.launches st !! launchId = Some launch ->
  PoolAllocation.status poolData = PoolStatus.open ->
  validateRequest stakers request (POOL_CONFIG pool) = None ->
  exists entry launch',
    fst res = SubmitResult.mk true None (Some entry)
    /\ ManagerState.launches (snd res) !! launchId = Some launch'
    /\ LaunchAllocation.pools launch' pool
       = PoolAllocation.mk (PoolAllocation.pool poolData)
           (PoolAllocation.totalTokens poolData)
           (PoolAllocation.totalValueUSD poolData)
           (PoolAllocation.allocated poolData) (PoolAllocation.remaining poolData)
           (PoolAllocation.participants poolData ++ [entry])
           (PoolAllocation.status poolData)
    /\ (forall q, q <> pool ->
         LaunchAllocation.pools launch' q = LaunchAllocation.pools launch q)
    /\ ManagerState.requests (snd res) !! launchId
       = Some (default [] (ManagerState.requests st !! launchId)
               ++ [AllocationRequest.mk (AllocationRequest.wallet request)
                     launchId pool (AllocationEntry.requestedAmount entry)])
    /\ AllocationEntry.wallet entry = AllocationRequest.wallet request
    /\ AllocationEntry.pool entry = pool
    /\ AllocationEntry.status entry = EntryStatus.pending
    /\ AllocationEntry.allocatedTokens entry = 0
    /\ AllocationEntry.allocatedValueUSD entry = 0
    /\ AllocationEntry.vestingSchedule entry = None
    /\ AllocationEntry.requestedAmount entry
       == Qmin (AllocationRequest.amountUSD request) maxPerWallet
    /\ AllocationEntry.lotteryTickets entry
       = floorQ (fmul (AllocationEntry.requestedAmount entry)
                      (StakingTierManager.getLotteryBoost
                         (AllocationRequest.wallet request) stakers))
    /\ ~ AllocationEntry.weight entry == 0.
Proof.
  intros res launchId pool poolData maxPerWallet Hl Hs Hv.
  subst res. unfold submitRequest. fold launchId pool.
  rewrite Hl. fold poolData. rewrite (bool_decide_eq_true_2 _ Hs), Hv.
  cbn [negb fst snd ManagerState.launches ManagerState.requests].
  eexists _, _. split; [reflexivity |].
  split; [apply lookup_insert_eq |].
  split; [now rewrite set_pool_same |].
  split; [intros q Hq; now apply set_pool_other |].
  split; [rewrite lookup_insert_eq; reflexivity |].
  cbn [AllocationEntry.wallet AllocationEntry.pool AllocationEntry.status
       AllocationEntry.allocatedTokens AllocationEntry.allocatedValueUSD
       AllocationEntry.vestingSchedule AllocationEntry.requestedAmount
       AllocationEntry.lotteryTickets AllocationEntry.weight].
  repeat (split; [reflexivity |]).
  split; [| split; [reflexivity |]].
  - fold maxPerWallet.
    destruct (Qlt_bool maxPerWallet (AllocationRequest.amountUSD request)) eqn:E.
    + apply Qlt_bool_true in E. symmetry. apply Q.min_r. lra.
    + apply Qlt_bool_false in E. symmetry. now apply Q.min_l.
  - unfold StakingTierManager.getPosition.
    destruct (stakers !! AllocationRequest.wallet request) as [p |];
      [| discriminate].
    destruct (Qeq_bool (StakerPosition.effectiveWeight p) 0) eqn:E;
      [discriminate |].
    intros H. apply Qeq_bool_iff in H. congruence.
Qed.

Lemma submitRequest_accepted_witness :
  exists entry,
    fst (submitRequest single_staker
           (AllocationRequest.mk "A" "L" guaranteed 30000)
           (openPool "L" guaranteed single_request))
    = SubmitResult.mk true None (Some entry)
    /\ AllocationEntry.requestedAmount entry == Qmin 30000 25000.
Proof.
  edestruct (submitRequest_accepted single_staker
               (AllocationRequest.mk "A" "L" guaranteed 30000)
               (openPool "L" guaranteed single_request))
    as (entry & launch' & Hres & H).
  - vm_compute. reflexivity.
  - vm_compute. reflexivity.
  - vm_compute. reflexivity.
  - exists entry. split; [exact Hres |].
    destruct H as (_ & _ & _ & _ & _ & _ & _ & _ & _ & _ & Hamount & _).
    exact Hamount.
Defined.

(** The ticket count follows the binary64 arithmetic of the boost: a diamond
    staker with score 12 has the multiplier 0.6799999999999999 and the boost
    3.3999999999999995, and gets 339 tickets for $100, not 340. *)
Example tickets_of_score_12 :
  exists entry,
    SubmitResult.entry
      (fst (submitRequest
              (StakingTierManager.updateSHS "A" 12 single_staker)
              (AllocationRequest.mk "A" "L" weighted_lottery 100)
              (openPool "L" weighted_lottery single_request)))
    = Some entry
    /\ AllocationEntry.lotteryTickets entry == 339
    /\ floorQ (100 * (5 * ((1 # 2) + (12 / 100) * (3 # 2)))) == 340.
Proof.
  eexists. split; [vm_compute; reflexivity |]. split; reflexivity.
Qed.

(** Every operation of the manager on a launch that does not exist leaves
    the manager as it is; [getUserAllocation] then reports nothing and
    [getLaunchStatus] nothing. *)
Theorem unknown_launch (launchId : string) (st : ManagerState.t) :
  ManagerState.launches st !! launchId = None ->
  (forall pool, openPool launchId pool st = st)
  /\ (forall pool, closePool launchId pool st = st)
  /\ (forall now, executeGuaranteedPool now launchId st = st)
  /\ (forall now random pool, executeLotteryPool now random launchId pool st = st)
  /\ executeFCFSPool launchId st = st
  /\ (forall now randomW randomP randomF,
        executeAllPools now randomW randomP randomF launchId st = st)
  /\ (forall stakers wallet pool amountUSD,
        submitRequest stakers (AllocationRequest.mk wallet launchId pool amountUSD) st
        = (failure "Launch not found", st))
  /\ (forall wallet,
        getUserAllocation launchId wallet st = UserAllocation.mk 0 0 [])
  /\ getLaunchStatus launchId st = None.
Proof.
  intros H.
  assert (HG : forall now, executeGuaranteedPool now launchId st = st)
    by (intros; unfold executeGuaranteedPool; now rewrite H).
  assert (HL : forall now random pool,
             executeLotteryPool now random launchId pool st = st)
    by (intros; unfold executeLotteryPool; now rewrite H).
  assert (HF : executeFCFSPool launchId st = st)
    by (unfold executeFCFSPool; now rewrite H).
  repeat split; try assumption.
  - intros pool. unfold openPool. now rewrite H.
  - intros pool. unfold closePool. now rewrite H.
  - intros now randomW randomP randomF. unfold executeAllPools.
    rewrite HG, !HL, HF, H. reflexivity.
  - intros stakers wallet pool amountUSD. unfold submitRequest. cbn.
    now rewrite H.
  - intros wallet. unfold getUserAllocation. now rewrite H.
Qed.

Lemma unknown_launch_witness :
  executeAllPools 0 (fun _ => 0) (fun _ => 0) (fun _ => 0) "M" single_request
  = single_request.
Proof.
  edestruct (unknown_launch "M" single_request) as (_ & _ & _ & _ & _ & H & _).
  - vm_compute. reflexivity.
  - apply H.
Defined.

End Intake.

Section Tickets.
Import AllocationManager.

Lemma insert_head_perm (l : list string) (j : nat) (a y : string) :
  l !! j = Some y -> y :: <[j := a]> l ≡ₚ a :: l.
Proof.
  revert j. induction l as [| b l IH]; intros j H; [discriminate |].
  destruct j as [| j]; cbn in *.
  - injection H as ->. apply perm_swap.
  - rewrite (perm_swap b y), (IH j H). apply perm_swap.
Qed.

Lemma list_swap_perm (l : list string) (i j : nat) (x y : string) :
  l !! i = Some x -> l !! j = Some y -> <[j := x]> (<[i := y]> l) ≡ₚ l.
Proof.
  revert i j. induction l as [| a l IH]; intros i j Hi Hj; [discriminate |].
  destruct i as [| i], j as [| j]; cbn in *.
  - injection Hi as ->. injection Hj as ->. reflexivity.
  - injection Hi as ->. now apply insert_head_perm.
  - injection Hj as ->. now apply insert_head_perm.
  - f_equiv. now apply IH.
Qed.

Lemma swapTickets_perm (i j : nat) (tickets : list string) :
  swapTickets i j tickets ≡ₚ tickets.
Proof.
  unfold swapTickets.
  destruct (tickets !! i) as [ti |] eqn:Hi; [| reflexivity].
  destruct (tickets !! j) as [tj |] eqn:Hj; [| reflexivity].
  now apply list_swap_perm.
Qed.

Lemma shuffleFrom_perm (random : nat -> Q) (i k : nat) (tickets : list string) :
  shuffleFrom random i k tickets ≡ₚ tickets.
Proof.
  revert k tickets. induction i as [| i IH]; intros k tickets; [reflexivity |].
  cbn [shuffleFrom]. rewrite IH. apply swapTickets_perm.
Qed.

(** Whatever the random source returns, the shuffle of the lottery only
    reorders the tickets: the shuffled list is a permutation of the ticket
    list, so every wallet keeps its number of tickets. *)
Theorem shuffleTickets_permutation (random : nat -> Q) (tickets : list string) :
  shuffleTickets random tickets ≡ₚ tickets
  /\ length (shuffleTickets random tickets) = length tickets
  /\ (forall wallet,
        In wallet (shuffleTickets random tickets) <-> In wallet tickets).
Proof.
  assert (H : shuffleTickets random tickets ≡ₚ tickets)
    by apply shuffleFrom_perm.
  split; [exact H |]. split; [now rewrite H |].
  intros wallet. rewrite <- !list_elem_of_In. now rewrite H.
Qed.

Lemma shuffleTickets_permutation_witness :
  In "B" (shuffleTickets (fun k => 1 # 2) ["A"; "B"; "B"; "C"]).
Proof.
  apply (proj2 (proj2 (shuffleTickets_permutation (fun k => 1 # 2)
                         ["A"; "B"; "B"; "C"])) "B").
  right. left. reflexivity.
Defined.

Lemma Qceiling_pos (q : Q) : (0 < Z.to_nat (Qceiling q))%nat <-> 0 < q.
Proof.
  pose proof (Qle_ceiling q) as Hle. pose proof (Qceiling_lt q) as Hlt.
  split; intros H.
  - assert (Hz : (0 <= Qceiling q - 1)%Z) by lia.
    rewrite Zle_Qle in Hz. change (inject_Z 0) with 0 in Hz.
    eapply Qle_lt_trans; [exact Hz | exact Hlt].
  - assert (Hz : (0 < Qceiling q)%Z).
    { rewrite Zlt_Qlt. change (inject_Z 0) with 0.
      eapply Qlt_le_trans; [exact H | exact Hle]. }
    lia.
Qed.

(** The drawing loop writes only entries whose wallet is on a ticket. *)
Lemma drawWinners_untouched (now : Z) (poolConfig : PoolConfig.t) (tokenPrice : Q)
    (tickets : list string) (d : Draw.t) (i : nat) (p : AllocationEntry.t) :
  Draw.participants d !! i = Some p ->
  ~ In (AllocationEntry.wallet p) tickets ->
  Draw.participants (drawWinners now poolConfig tokenPrice tickets d) !! i
  = Some p.
Proof.
  revert d. induction tickets as [| wallet rest IH]; intros d Hi Hnot;
    [exact Hi |].
  assert (Hrest : ~ In (AllocationEntry.wallet p) rest)
    by (intros H; apply Hnot; now right).
  assert (Hw : wallet <> AllocationEntry.wallet p)
    by (intros H; apply Hnot; now left).
  cbn [drawWinners].
  destruct (Qle_bool (Draw.remainingTokens d) 0); [exact Hi |].
  destruct (bool_decide (wallet ∈ Draw.winners d)); [now apply IH |].
  destruct (list_find _ (Draw.participants d)) as [[idx q] |] eqn:Hfind;
    [| now apply IH].
  apply list_find_Some in Hfind as (Hidx & Hq & _).
  apply IH; [| exact Hrest]. cbn [Draw.participants].
  rewrite list_lookup_insert_ne; [exact Hi |].
  intros ->. rewrite Hi in Hidx. injection Hidx as <-. congruence.
Qed.

(** The ticket list holds a wallet exactly when some entry of that wallet
    has a positive ticket count: tickets stand for wallets, not for
    entries.  The entries of a wallet that is on no ticket are not drawn: a
    lottery leaves each of them as it was, marked [lost] if it was
    pending. *)
Theorem buildTickets_wallets (participants : list AllocationEntry.t)
    (wallet : string) :
  (In wallet (buildTickets participants)
   <-> exists p,
         In p participants
         /\ AllocationEntry.wallet p = wallet
         /\ 0 < AllocationEntry.lotteryTickets p)
  /\ (forall now random pool launch i p,
        PoolAllocation.participants (LaunchAllocation.pools launch pool)
        = participants ->
        participants !! i = Some p ->
        AllocationEntry.wallet p = wallet ->
        ~ In wallet (buildTickets participants) ->
        PoolAllocation.participants
          (LaunchAllocation.pools
             (executeLotteryPoolOn now random pool launch) pool) !! i
        = Some (markLost p)).
Proof.
  split.
  - unfold buildTickets. rewrite in_flat_map. split.
    + intros (p & Hp & Hin). exists p. split; [exact Hp |].
      pose proof (repeat_spec _ _ _ Hin) as Hw. split; [now symmetry |].
      apply Qceiling_pos.
      destruct (Z.to_nat (Qceiling (AllocationEntry.lotteryTickets p)));
        [destruct Hin | lia].
    + intros (p & Hp & Hw & Hpos). exists p. split; [exact Hp |].
      apply Qceiling_pos in Hpos.
      destruct (Z.to_nat (Qceiling (AllocationEntry.lotteryTickets p)));
        [lia | left; exact Hw].
  - intros now random pool launch i p Hps Hi Hw Hnot.
    unfold executeLotteryPoolOn. rewrite Hps.
    destruct participants as [| q qs] eqn:E; [discriminate |].
    unfold set_pool. cbn [LaunchAllocation.pools].
    destruct (decide (pool = pool)); [| congruence].
    cbn [PoolAllocation.participants].
    match goal with
    | |- map markLost ?l !! i = _ =>
        change (map markLost l) with (markLost <$> l)
    end.
    rewrite list_lookup_fmap.
    rewrite (drawWinners_untouched _ _ _ _ _ i p); [reflexivity | exact Hi |].
    cbn [Draw.participants] in *. rewrite Hw. intros Hin. apply Hnot.
    apply list_elem_of_In in Hin.
    assert (Hperm : shuffleTickets random (buildTickets (q :: qs))
                    ≡ₚ buildTickets (q :: qs)) by apply shuffleFrom_perm.
    rewrite Hperm in Hin. now apply list_elem_of_In.
Qed.

Lemma buildTickets_wallets_witness :
  In "A" (buildTickets
            [AllocationEntry.mk "A" public_lottery 500 0 0 (1 # 4) 2 None
               EntryStatus.pending;
             AllocationEntry.mk "B" public_lottery 300 0 0 (1 # 4) 0 None
               EntryStatus.pending]).
Proof.
  apply (proj2 (proj1 (buildTickets_wallets _ "A"))).
  eexists. split; [left; reflexivity |]. split; reflexivity.
Defined.

(** An entry without tickets is awarded when its wallet was drawn on the
    ticket of a later entry: the draw awards the first entry of the
    wallet. *)
Example award_through_another_entry :
  map (fun p => (AllocationEntry.lotteryTickets p, AllocationEntry.status p))
      (Draw.participants
         (drawWinners 0 (POOL_CONFIG public_lottery) 1 ["A"]
            (Draw.mk
               [AllocationEntry.mk "A" public_lottery 500 0 0 (1 # 4) 0 None
                  EntryStatus.pending;
                AllocationEntry.mk "A" public_lottery 300 0 0 (1 # 4) 2 None
                  EntryStatus.pending]
               0 100 ∅)))
  = [(0, EntryStatus.won); (2, EntryStatus.pending)].
Proof. vm_compute. reflexivity. Qed.

End Tickets.

Section Draws.
Import AllocationManager.

#[local] Arguments set_pool : simpl never.

Lemma map_insert_same {A B : Type} (f : A -> B) (l : list A) (i : nat) (x y : A) :
  l !! i = Some x -> f y = f x -> map f (<[i := y]> l) = map f l.
Proof.
  revert i. induction l as [| a l IH]; intros i Hi Hf; [reflexivity |].
  destruct i as [| i]; cbn in *.
  - injection Hi as ->. now rewrite Hf.
  - f_equal. now apply IH.
Qed.

Lemma list_find_wallet (wallet : string) (participants : list AllocationEntry.t)
    (idx : nat) (p : AllocationEntry.t) :
  list_find (fun q => AllocationEntry.wallet q = wallet) participants
  = Some (idx, p) ->
  participants !! idx = Some p /\ AllocationEntry.wallet p = wallet.
Proof. intros H. apply list_find_Some in H as (H1 & H2 & _). now split. Qed.

(** The drawing loop writes awards, it never changes what was requested. *)
Lemma drawWinners_static (now : Z) (poolConfig : PoolConfig.t) (tokenPrice : Q)
    (tickets : list string) (d : Draw.t) :
  map entryRequest (Draw.participants (drawWinners now poolConfig tokenPrice tickets d))
  = map entryRequest (Draw.participants d).
Proof.
  revert d. induction tickets as [| wallet rest IH]; intros d; [reflexivity |].
  cbn [drawWinners].
  destruct (Qle_bool (Draw.remainingTokens d) 0); [reflexivity |].
  destruct (bool_decide (wallet ∈ Draw.winners d)); [apply IH |].
  destruct (list_find _ (Draw.participants d)) as [[idx p] |] eqn:Hfind;
    [| apply IH].
  rewrite IH. cbn [Draw.participants].
  apply list_find_wallet in Hfind as [Hidx _].
  now apply map_insert_same with (x := p).
Qed.

Lemma drawWinners_sum (now : Z) (poolConfig : PoolConfig.t) (tokenPrice : Q)
    (tickets : list string) (d : Draw.t) :
  let d' := drawWinners now poolConfig tokenPrice tickets d in
  Draw.allocated d' + Draw.remainingTokens d'
  == Draw.allocated d + Draw.remainingTokens d.
Proof.
  cbn zeta. revert d. induction tickets as [| wallet rest IH]; intros d;
    [reflexivity |].
  cbn [drawWinners].
  destruct (Qle_bool (Draw.remainingTokens d) 0); [reflexivity |].
  destruct (bool_decide (wallet ∈ Draw.winners d)); [apply IH |].
  destruct (list_find _ (Draw.participants d)) as [[idx p] |]; [| apply IH].
  rewrite IH. cbn [Draw.allocated Draw.remainingTokens]. ring.
Qed.

Lemma drawWinners_caps (now : Z) (poolConfig : PoolConfig.t) (tokenPrice : Q)
    (tickets : list string) (d : Draw.t) :
  Forall (winnerWithinCaps (PoolConfig.maxPerWallet poolConfig) tokenPrice)
         (Draw.participants d) ->
  Forall (winnerWithinCaps (PoolConfig.maxPerWallet poolConfig) tokenPrice)
         (Draw.participants (drawWinners now poolConfig tokenPrice tickets d)).
Proof.
  revert d. induction tickets as [| wallet rest IH]; intros d Hd; [exact Hd |].
  cbn [drawWinners].
  destruct (Qle_bool (Draw.remainingTokens d) 0); [exact Hd |].
  destruct (bool_decide (wallet ∈ Draw.winners d)); [now apply IH |].
  destruct (list_find _ (Draw.participants d)) as [[idx p] |]; [| now apply IH].
  apply IH. cbn [Draw.participants]. apply Forall_insert; [exact Hd |].
  intros _. cbn [AllocationEntry.allocatedTokens AllocationEntry.requestedAmount
                 winLottery].
  split.
  - eapply Qle_trans; [apply Q.le_min_l | apply Q.le_min_l].
  - eapply Qle_trans; [apply Q.le_min_l | apply Q.le_min_r].
Qed.

Lemma markLost_static (participants : list AllocationEntry.t) :
  map entryRequest (map markLost participants) = map entryRequest participants
  /\ map AllocationEntry.vestingSchedule (map markLost participants)
     = map AllocationEntry.vestingSchedule participants
  /\ map AllocationEntry.allocatedTokens (map markLost participants)
     = map AllocationEntry.allocatedTokens participants.
Proof.
  rewrite !map_map. repeat split; apply map_ext; intros p; unfold markLost;
    now destruct (bool_decide _).
Qed.

Lemma markLost_not_pending (participants : list AllocationEntry.t) :
  Forall (fun p => AllocationEntry.status p <> EntryStatus.pending)
         (map markLost participants).
Proof.
  apply Forall_forall. intros p' Hin.
  apply list_elem_of_In, in_map_iff in Hin as (p & <- & _).
  unfold markLost. case_bool_decide; [discriminate | assumption].
Qed.

Lemma markLost_caps (maxPerWallet tokenPrice : Q)
    (participants : list AllocationEntry.t) :
  Forall (winnerWithinCaps maxPerWallet tokenPrice) participants ->
  Forall (winnerWithinCaps maxPerWallet tokenPrice) (map markLost participants).
Proof.
  intros H. apply Forall_forall. intros p' Hin.
  apply list_elem_of_In, in_map_iff in Hin as (p & <- & Hp).
  rewrite Forall_forall in H. apply list_elem_of_In in Hp. specialize (H p Hp).
  unfold markLost. case_bool_decide; [intros Hw; discriminate Hw | exact H].
Qed.

(** A lottery distribution of a pool with participants marks the pool
    [distributed], leaves no entry pending, keeps every entry in its place
    with the request it recorded, and moves tokens from the pool to the
    winners only: [allocated] and [remaining] then add up to what was
    allocated before plus the pool, and [remaining] is not negative for a
    pool of non-negative size. *)
Theorem lottery_outcome (now : Z) (random : nat -> Q) (pool : AllocationPool)
    (launch : LaunchAllocation.t) :
  let poolData := LaunchAllocation.pools launch pool in
  let poolData' :=
    LaunchAllocation.pools (executeLotteryPoolOn now random pool launch) pool in
  PoolAllocation.participants poolData <> [] ->
  PoolAllocation.status poolData' = PoolStatus.distributed
  /\ map entryRequest (PoolAllocation.participants poolData')
     = map entryRequest (PoolAllocation.participants poolData)
  /\ Forall (fun p => AllocationEntry.status p <> EntryStatus.pending)
            (PoolAllocation.participants poolData')
  /\ PoolAllocation.totalTokens poolData' = PoolAllocation.totalTokens poolData
  /\ PoolAllocation.allocated poolData' + PoolAllocation.remaining poolData'
     == PoolAllocation.allocated poolData + PoolAllocation.totalTokens poolData
  /\ (0 <= PoolAllocation.totalTokens poolData ->
      0 <= PoolAllocation.remaining poolData').
Proof.
  intros poolData poolData' Hne. subst poolData'. unfold executeLotteryPoolOn.
  fold poolData.
  destruct (PoolAllocation.participants poolData) as [| p ps] eqn:Hps;
    [congruence |].
  rewrite set_pool_same.
  cbn [PoolAllocation.status PoolAllocation.participants
       PoolAllocation.totalTokens PoolAllocation.allocated
       PoolAllocation.remaining].
  split; [reflexivity |].
  split; [rewrite (proj1 (markLost_static _)), drawWinners_static; reflexivity |].
  split; [apply markLost_not_pending |].
  split; [reflexivity |].
  split; [rewrite drawWinners_sum; reflexivity |].
  intros HT.
  match goal with
  | |- context [drawWinners ?n ?c ?pr ?t ?d0] =>
      exact (proj1 (drawWinners_conserves n c pr t d0 HT))
  end.
Qed.

Lemma lottery_outcome_witness :
  PoolAllocation.status
    (LaunchAllocation.pools
       (executeLotteryPoolOn 0 (fun _ => 0) public_lottery lottery_launch)
       public_lottery)
  = PoolStatus.distributed.
Proof.
  apply (lottery_outcome 0 (fun _ => 0) public_lottery lottery_launch).
  vm_compute. discriminate.
Defined.

(** After a lottery distribution of a pool that had no winner yet, every
    winner holds at most [floor(maxPerWallet / tokenPrice)] tokens and at most
    the tokens it asked for, [floor(requestedAmount / tokenPrice)]: tickets
    change the odds, not the size of an award. *)
Theorem lottery_award_cap (now : Z) (random : nat -> Q) (pool : AllocationPool)
    (launch : LaunchAllocation.t) :
  let poolData := LaunchAllocation.pools launch pool in
  let poolData' :=
    LaunchAllocation.pools (executeLotteryPoolOn now random pool launch) pool in
  Forall (fun p => AllocationEntry.status p <> EntryStatus.won)
         (PoolAllocation.participants poolData) ->
  Forall (winnerWithinCaps (PoolConfig.maxPerWallet (POOL_CONFIG pool))
            (LaunchAllocation.tokenPrice launch))
         (PoolAllocation.participants poolData').
Proof.
  intros poolData poolData' Hnone. subst poolData'.
  assert (H0 : Forall (winnerWithinCaps (PoolConfig.maxPerWallet (POOL_CONFIG pool))
                         (LaunchAllocation.tokenPrice launch))
                      (PoolAllocation.participants poolData)).
  { eapply Forall_impl; [exact Hnone |]. intros p Hp Hw. contradiction. }
  unfold executeLotteryPoolOn. fold poolData.
  destruct (PoolAllocation.participants poolData) as [| p ps] eqn:Hps.
  - fold poolData. rewrite Hps. constructor.
  - rewrite set_pool_same. cbn [PoolAllocation.participants].
    apply markLost_caps, drawWinners_caps. exact H0.
Qed.

Lemma lottery_award_cap_witness :
  Forall (winnerWithinCaps (PoolConfig.maxPerWallet (POOL_CONFIG public_lottery))
            (LaunchAllocation.tokenPrice lottery_launch))
         (PoolAllocation.participants
            (LaunchAllocation.pools
               (executeLotteryPoolOn 0 (fun _ => 0) public_lottery lottery_launch)
               public_lottery)).
Proof.
  apply (lottery_award_cap 0 (fun _ => 0) public_lottery lottery_launch).
  vm_compute. repeat constructor; discriminate.
Defined.

Lemma serveFCFS_static (poolConfig : PoolConfig.t) (tokenPrice : Q)
    (fcfsRequests : list AllocationRequest.t) (d : Draw.t) :
  let d' := serveFCFS poolConfig tokenPrice fcfsRequests d in
  map entryRequest (Draw.participants d') = map entryRequest (Draw.participants d)
  /\ map AllocationEntry.vestingSchedule (Draw.participants d')
     = map AllocationEntry.vestingSchedule (Draw.participants d)
  /\ Draw.allocated d' + Draw.remainingTokens d'
     == Draw.allocated d + Draw.remainingTokens d.
Proof.
  cbn zeta. revert d. induction fcfsRequests as [| request rest IH]; intros d;
    [repeat split; reflexivity |].
  cbn [serveFCFS].
  destruct (Qle_bool (Draw.remainingTokens d) 0); [repeat split; reflexivity |].
  destruct (list_find _ (Draw.participants d)) as [[idx p] |] eqn:Hfind;
    [| apply IH].
  apply list_find_wallet in Hfind as [Hidx _].
  match goal with
  | |- context [serveFCFS _ _ rest ?d1] => destruct (IH d1) as (H1 & H2 & H3)
  end.
  rewrite H1, H2, H3. cbn [Draw.participants Draw.allocated Draw.remainingTokens].
  split; [now apply map_insert_same with (x := p) |].
  split; [now apply map_insert_same with (x := p) | ring].
Qed.

Lemma filter_fcfs_none (requests : list AllocationRequest.t) :
  Forall (fun r => AllocationRequest.pool r <> fcfs) requests ->
  List.filter (fun r => bool_decide (AllocationRequest.pool r = fcfs)) requests = [].
Proof.
  induction 1 as [| r rs Hr _ IH]; [reflexivity |].
  cbn [List.filter]. now rewrite (bool_decide_eq_false_2 _ Hr).
Qed.

(** The FCFS distribution always marks its pool [distributed], also without
    participants or requests.  It leaves no entry pending, keeps every entry
    in its place with the request it recorded, and attaches no vesting
    schedule: the schedule of every entry is the one it had.  [allocated] and
    [remaining] then add up to what was allocated before plus the pool.
    When the log holds no FCFS request nothing is allocated and the whole
    pool remains. *)
Theorem fcfs_outcome (requests : list AllocationRequest.t)
    (launch : LaunchAllocation.t) :
  let pool := LaunchAllocation.pools launch fcfs in
  let pool' := LaunchAllocation.pools (executeFCFSPoolOn requests launch) fcfs in
  PoolAllocation.status pool' = PoolStatus.distributed
  /\ map entryRequest (PoolAllocation.participants pool')
     = map entryRequest (PoolAllocation.participants pool)
  /\ map AllocationEntry.vestingSchedule (PoolAllocation.participants pool')
     = map AllocationEntry.vestingSchedule (PoolAllocation.participants pool)
  /\ Forall (fun p => AllocationEntry.status p <> EntryStatus.pending)
            (PoolAllocation.participants pool')
  /\ PoolAllocation.totalTokens pool' = PoolAllocation.totalTokens pool
  /\ PoolAllocation.allocated pool' + PoolAllocation.remaining pool'
     == PoolAllocation.allocated pool + PoolAllocation.totalTokens pool
  /\ (Forall (fun r => AllocationRequest.pool r <> fcfs) requests ->
      PoolAllocation.allocated pool' = PoolAllocation.allocated pool
      /\ PoolAllocation.remaining pool' = PoolAllocation.totalTokens pool
      /\ PoolAllocation.participants pool'
         = map markLost (PoolAllocation.participants pool)).
Proof.
  intros pool pool'. subst pool'. unfold executeFCFSPoolOn. fold pool.
  rewrite set_pool_same.
  cbn [PoolAllocation.status PoolAllocation.participants
       PoolAllocation.totalTokens PoolAllocation.allocated
       PoolAllocation.remaining].
  match goal with
  | |- context [serveFCFS ?c ?pr ?rs ?d0] =>
      destruct (serveFCFS_static c pr rs d0) as (H1 & H2 & H3)
  end.
  cbn [Draw.participants Draw.allocated Draw.remainingTokens] in H1, H2, H3.
  split; [reflexivity |].
  split; [rewrite (proj1 (markLost_static _)); exact H1 |].
  split; [rewrite (proj1 (proj2 (markLost_static _))); exact H2 |].
  split; [apply markLost_not_pending |].
  split; [reflexivity |].
  split; [exact H3 |].
  intros Hnone. rewrite (filter_fcfs_none requests Hnone).
  cbn [serveFCFS Draw.allocated Draw.remainingTokens Draw.participants].
  repeat split.
Qed.

Lemma fcfs_outcome_witness :
  PoolAllocation.remaining
    (LaunchAllocation.pools (executeFCFSPoolOn [] lottery_launch) fcfs)
  = PoolAllocation.totalTokens (LaunchAllocation.pools lottery_launch fcfs).
Proof.
  refine (proj1 (proj2
            (proj2 (proj2 (proj2 (proj2 (proj2 (proj2
               (fcfs_outcome [] lottery_launch)))))) _))).
  constructor.
Defined.

End Draws.

Section WholeLaunch.
Import AllocationManager.

#[local] Arguments set_pool : simpl never.

(** Strips the distributions that do not write to the pool looked at. *)
Ltac untouched_pool :=
  repeat first
    [ rewrite executeFCFSPoolOn_other by discriminate
    | rewrite executeLotteryPoolOn_other by discriminate
    | rewrite executeGuaranteedPoolOn_other by discriminate ].

(** The number of awarded ([filled] or [won]) entries of a launch. *)
Lemma participantCount_flat (launch : LaunchAllocation.t) :
  fold_left
    (fun sum pool =>
       sum
       + inject_Z
           (Z.of_nat
              (length
                 (List.filter isAwarded
                    (PoolAllocation.participants
                       (LaunchAllocation.pools launch pool))))))
    ALL_POOLS 0
  == inject_Z
       (Z.of_nat
          (length
             (List.filter isAwarded
                (flat_map
                   (fun pool =>
                      PoolAllocation.participants
                        (LaunchAllocation.pools launch pool))
                   ALL_POOLS)))).
Proof.
  unfold ALL_POOLS. cbn [fold_left flat_map].
  rewrite !List.filter_app, !List.length_app, !Nat2Z.inj_add, !inject_Z_plus.
  cbn [List.filter length Z.of_nat]. change (inject_Z 0) with 0. ring.
Qed.

(** A distribution writes neither the supply nor the price of the launch. *)
Lemma executeGuaranteedPoolOn_supply (now : Z) (launch : LaunchAllocation.t) :
  LaunchAllocation.totalTokens (executeGuaranteedPoolOn now launch)
  = LaunchAllocation.totalTokens launch
  /\ LaunchAllocation.tokenPrice (executeGuaranteedPoolOn now launch)
     = LaunchAllocation.tokenPrice launch.
Proof.
  unfold executeGuaranteedPoolOn.
  destruct (PoolAllocation.participants _); [now split |].
  destruct (distributeGuaranteed _ _ _ _ _ _). now split.
Qed.

Lemma executeLotteryPoolOn_supply (now : Z) (random : nat -> Q)
    (pool : AllocationPool) (launch : LaunchAllocation.t) :
  LaunchAllocation.totalTokens (executeLotteryPoolOn now random pool launch)
  = LaunchAllocation.totalTokens launch
  /\ LaunchAllocation.tokenPrice (executeLotteryPoolOn now random pool launch)
     = LaunchAllocation.tokenPrice launch.
Proof.
  unfold executeLotteryPoolOn.
  destruct (PoolAllocation.participants _); now split.
Qed.

Lemma executeFCFSPoolOn_supply (requests : list AllocationRequest.t)
    (launch : LaunchAllocation.t) :
  LaunchAllocation.totalTokens (executeFCFSPoolOn requests launch)
  = LaunchAllocation.totalTokens launch
  /\ LaunchAllocation.tokenPrice (executeFCFSPoolOn requests launch)
     = LaunchAllocation.tokenPrice launch.
Proof. unfold executeFCFSPoolOn. now split. Qed.

Lemma requests_executeGuaranteedPool (now : Z) (launchId : string)
    (st : ManagerState.t) :
  ManagerState.requests (executeGuaranteedPool now launchId st)
  = ManagerState.requests st.
Proof.
  unfold executeGuaranteedPool.
  now destruct (ManagerState.launches st !! launchId).
Qed.

Lemma requests_executeLotteryPool (now : Z) (random : nat -> Q)
    (launchId : string) (pool : AllocationPool) (st : ManagerState.t) :
  ManagerState.requests (executeLotteryPool now random launchId pool st)
  = ManagerState.requests st.
Proof.
  unfold executeLotteryPool.
  now destruct (ManagerState.launches st !! launchId).
Qed.

Lemma requests_executeFCFSPool (launchId : string) (st : ManagerState.t) :
  ManagerState.requests (executeFCFSPool launchId st) = ManagerState.requests st.
Proof.
  unfold executeFCFSPool.
  now destruct (ManagerState.launches st !! launchId).
Qed.

Lemma launches_other_executeGuaranteedPool (now : Z) (launchId other : string)
    (st : ManagerState.t) :
  other <> launchId ->
  ManagerState.launches (executeGuaranteedPool now launchId st) !! other
  = ManagerState.launches st !! other.
Proof.
  intros Hne. unfold executeGuaranteedPool.
  destruct (ManagerState.launches st !! launchId); [| reflexivity].
  cbn. now apply lookup_insert_ne.
Qed.

Lemma launches_other_executeLotteryPool (now : Z) (random : nat -> Q)
    (launchId other : string) (pool : AllocationPool) (st : ManagerState.t) :
  other <> launchId ->
  ManagerState.launches (executeLotteryPool now random launchId pool st) !! other
  = ManagerState.launches st !! other.
Proof.
  intros Hne. unfold executeLotteryPool.
  destruct (ManagerState.launches st !! launchId); [| reflexivity].
  cbn. now apply lookup_insert_ne.
Qed.

Lemma launches_other_executeFCFSPool (launchId other : string)
    (st : ManagerState.t) :
  other <> launchId ->
  ManagerState.launches (executeFCFSPool launchId st) !! other
  = ManagerState.launches st !! other.
Proof.
  intros Hne. unfold executeFCFSPool.
  destruct (ManagerState.launches st !! launchId); [| reflexivity].
  cbn. now apply lookup_insert_ne.
Qed.

(** [executeAllPools] on an existing launch runs the five participant-driven
    distributions and nothing else: the liquidity and trader-rewards pools
    are as they were, the FCFS pool is [distributed], the supply and the
    price are unchanged, [participantCount] is the number of [filled] or
    [won] entries over all pools, and the request log and the other launches
    are untouched. *)
Theorem executeAllPools_result (now : Z) (randomW randomP randomF : nat -> Q)
    (launchId : string) (st : ManagerState.t) (launch : LaunchAllocation.t) :
  let st' := executeAllPools now randomW randomP randomF launchId st in
  ManagerState.launches st !! launchId = Some launch ->
  exists launch',
    ManagerState.launches st' !! launchId = Some launch'
    /\ LaunchAllocation.pools launch' liquidity
       = LaunchAllocation.pools launch liquidity
    /\ LaunchAllocation.pools launch' trader_rewards
       = LaunchAllocation.pools launch trader_rewards
    /\ PoolAllocation.status (LaunchAllocation.pools launch' fcfs)
       = PoolStatus.distributed
    /\ LaunchAllocation.totalTokens launch' = LaunchAllocation.totalTokens launch
    /\ LaunchAllocation.tokenPrice launch' = LaunchAllocation.tokenPrice launch
    /\ LaunchAllocation.participantCount launch'
       == inject_Z
            (Z.of_nat
               (length
                  (List.filter isAwarded
                     (flat_map
                        (fun pool =>
                           PoolAllocation.participants
                             (LaunchAllocation.pools launch' pool))
                        ALL_POOLS))))
    /\ ManagerState.requests st' = ManagerState.requests st
    /\ (forall other,
          other <> launchId ->
          ManagerState.launches st' !! other = ManagerState.launches st !! other).
Proof.
  intros st' Hl. subst st'. unfold executeAllPools.
  pose proof (launches_executeGuaranteedPool now launchId st launch Hl) as H1.
  pose proof (launches_executeLotteryPool now randomW launchId weighted_lottery
                _ _ H1) as H2.
  pose proof (launches_executeLotteryPool now randomP launchId public_lottery
                _ _ H2) as H3.
  pose proof (launches_executeLotteryPool now randomF launchId flipper
                _ _ H3) as H4.
  pose proof (launches_executeFCFSPool launchId _ _ H4) as H5.
  cbn zeta. rewrite H5. unfold set_launches.
  cbn [ManagerState.launches ManagerState.requests].
  rewrite lookup_insert_eq. eexists. split; [reflexivity |].
  cbn [set_participantCount LaunchAllocation.pools LaunchAllocation.totalTokens
       LaunchAllocation.tokenPrice LaunchAllocation.participantCount].
  split; [now untouched_pool |]. split; [now untouched_pool |].
  split; [unfold executeFCFSPoolOn; now rewrite set_pool_same |].
  split.
  { now rewrite (proj1 (executeFCFSPoolOn_supply _ _)),
      !(proj1 (executeLotteryPoolOn_supply _ _ _ _)),
      (proj1 (executeGuaranteedPoolOn_supply _ _)). }
  split.
  { now rewrite (proj2 (executeFCFSPoolOn_supply _ _)),
      !(proj2 (executeLotteryPoolOn_supply _ _ _ _)),
      (proj2 (executeGuaranteedPoolOn_supply _ _)). }
  split; [apply participantCount_flat |].
  split.
  { now rewrite requests_executeFCFSPool, !requests_executeLotteryPool,
      requests_executeGuaranteedPool. }
  intros other Hne. rewrite lookup_insert_ne by congruence.
  now rewrite launches_other_executeFCFSPool,
    !launches_other_executeLotteryPool, launches_other_executeGuaranteedPool.
Qed.

Lemma executeAllPools_result_witness :
  exists launch',
    ManagerState.launches
      (executeAllPools 0 (fun _ => 0) (fun _ => 0) (fun _ => 0) "L"
         lottery_request) !! "L" = Some launch'
    /\ PoolAllocation.status (LaunchAllocation.pools launch' fcfs)
       = PoolStatus.distributed.
Proof.
  edestruct (executeAllPools_result 0 (fun _ => 0) (fun _ => 0) (fun _ => 0)
               "L" lottery_request) as (launch' & Hl & _ & _ & Hs & _).
  - vm_compute. reflexivity.
  - exists launch'. split; [exact Hl | exact Hs].
Defined.

Lemma Qsum_snoc (l : list Q) (x : Q) : Qsum (l ++ [x]) == Qsum l + x.
Proof.
  unfold Qsum. induction l as [| a l IH]; cbn [app fold_right]; [ring |].
  rewrite IH. ring.
Qed.

Lemma isAwarded_status (entry : AllocationEntry.t) :
  isAwarded entry = true
  <-> AllocationEntry.status entry = EntryStatus.filled
      \/ AllocationEntry.status entry = EntryStatus.won.
Proof.
  unfold isAwarded. rewrite orb_true_iff, !bool_decide_eq_true. reflexivity.
Qed.

(** What the loop of [getUserAllocation] keeps true of its accumulator. *)
Lemma addUserAllocation_fold (wallet : string) (launch : LaunchAllocation.t)
    (pools : list AllocationPool) (acc : UserAllocation.t) :
  let P (r : UserAllocation.t) :=
    UserAllocation.totalTokens r
    == Qsum (map AllocationEntry.allocatedTokens (UserAllocation.allocations r))
    /\ UserAllocation.totalValueUSD r
       == Qsum (map AllocationEntry.allocatedValueUSD (UserAllocation.allocations r))
    /\ Forall (fun e =>
                 AllocationEntry.wallet e = wallet
                 /\ (AllocationEntry.status e = EntryStatus.filled
                     \/ AllocationEntry.status e = EntryStatus.won)
                 /\ exists pool,
                      In e (PoolAllocation.participants
                              (LaunchAllocation.pools launch pool)))
              (UserAllocation.allocations r) in
  let r := fold_left (addUserAllocation wallet launch) pools acc in
  P acc ->
  P r
  /\ (length (UserAllocation.allocations r)
      <= length (UserAllocation.allocations acc) + length pools)%nat
  /\ ((forall pool,
         Forall (fun e => AllocationEntry.status e = EntryStatus.pending)
                (PoolAllocation.participants (LaunchAllocation.pools launch pool))) ->
      r = acc).
Proof.
  cbn zeta. revert acc. induction pools as [| pool pools IH]; intros acc Hacc.
  - cbn [fold_left length]. split; [exact Hacc |]. split; [lia | reflexivity].
  - cbn [fold_left length].
    assert (Hstep :
      (addUserAllocation wallet launch acc pool = acc)
      \/ exists entry,
           In entry (PoolAllocation.participants (LaunchAllocation.pools launch pool))
           /\ AllocationEntry.wallet entry = wallet
           /\ isAwarded entry = true
           /\ addUserAllocation wallet launch acc pool
              = UserAllocation.mk
                  (UserAllocation.totalTokens acc
                   + AllocationEntry.allocatedTokens entry)
                  (UserAllocation.totalValueUSD acc
                   + AllocationEntry.allocatedValueUSD entry)
                  (UserAllocation.allocations acc ++ [entry])).
    { unfold addUserAllocation.
      destruct (List.find _ _) as [entry |] eqn:Hfind; [| now left].
      destruct (isAwarded entry) eqn:Haw; [| now left].
      apply List.find_some in Hfind as [Hin Hw].
      apply bool_decide_eq_true in Hw. right. exists entry. now repeat split. }
    destruct Hstep as [-> | (entry & Hin & Hw & Haw & ->)].
    + destruct (IH acc Hacc) as (H1 & H2 & H3).
      split; [exact H1 |]. split; [lia | exact H3].
    + destruct Hacc as (Ht & Hv & Hall).
      match goal with
      | |- context [fold_left _ pools ?a] => destruct (IH a) as (H1 & H2 & H3)
      end.
      { cbn [UserAllocation.totalTokens UserAllocation.totalValueUSD
             UserAllocation.allocations].
        rewrite !map_app. cbn [map]. rewrite !Qsum_snoc, <- Ht, <- Hv.
        split; [reflexivity |]. split; [reflexivity |].
        apply Forall_app. split; [exact Hall |].
        constructor; [| constructor].
        split; [exact Hw |]. split; [now apply isAwarded_status | now exists pool]. }
      split; [exact H1 |].
      cbn [UserAllocation.allocations] in H2. rewrite length_app in H2.
      cbn [length] in H2.
      split; [lia |].
      intros Hpending. exfalso.
      specialize (Hpending pool). rewrite Forall_forall in Hpending.
      apply list_elem_of_In in Hin. specialize (Hpending entry Hin).
      apply isAwarded_status in Haw as [Haw | Haw]; congruence.
Qed.

(** [getUserAllocation] reports at most one entry per pool, each an entry of
    the wallet that is [filled] or [won] and that stands in a pool of the
    launch; the two totals are the sums over the reported entries; while
    every entry of the launch is pending it reports nothing. *)
Theorem getUserAllocation_totals (launchId wallet : string) (st : ManagerState.t) :
  let r := getUserAllocation launchId wallet st in
  UserAllocation.totalTokens r
  == Qsum (map AllocationEntry.allocatedTokens (UserAllocation.allocations r))
  /\ UserAllocation.totalValueUSD r
     == Qsum (map AllocationEntry.allocatedValueUSD (UserAllocation.allocations r))
  /\ Forall (fun e =>
               AllocationEntry.wallet e = wallet
               /\ (AllocationEntry.status e = EntryStatus.filled
                   \/ AllocationEntry.status e = EntryStatus.won)
               /\ exists launch pool,
                    ManagerState.launches st !! launchId = Some launch
                    /\ In e (PoolAllocation.participants
                               (LaunchAllocation.pools launch pool)))
            (UserAllocation.allocations r)
  /\ (length (UserAllocation.allocations r) <= 7)%nat
  /\ (forall launch,
        ManagerState.launches st !! launchId = Some launch ->
        (forall pool,
           Forall (fun e => AllocationEntry.status e = EntryStatus.pending)
                  (PoolAllocation.participants
                     (LaunchAllocation.pools launch pool))) ->
        r = UserAllocation.mk 0 0 []).
Proof.
  cbn zeta. unfold getUserAllocation.
  destruct (ManagerState.launches st !! launchId) as [launch |] eqn:Hl.
  - destruct (addUserAllocation_fold wallet launch ALL_POOLS
                (UserAllocation.mk 0 0 [])) as ((H1 & H2 & H3) & H4 & H5).
    { cbn. repeat split; constructor. }
    split; [exact H1 |]. split; [exact H2 |].
    split.
    { eapply Forall_impl; [exact H3 |].
      intros e (Hw & Hs & pool & Hin). split; [exact Hw |]. split; [exact Hs |].
      now exists launch, pool. }
    split; [exact H4 |].
    intros launch' [= <-] Hpending. now apply H5.
  - cbn. split; [reflexivity |]. split; [reflexivity |].
    split; [constructor |]. split; [lia |]. discriminate.
Qed.

Lemma getUserAllocation_totals_witness :
  getUserAllocation "L" "A" lottery_request = UserAllocation.mk 0 0 [].
Proof.
  edestruct (getUserAllocation_totals "L" "A" lottery_request)
    as (_ & _ & _ & _ & H).
  eapply H.
  - vm_compute. reflexivity.
  - intros pool. destruct pool; vm_compute; repeat constructor.
Defined.

(** [openPool] and [closePool] write the status of their pool and nothing
    else: its counters and participants, the other pools, the request log
    and the other launches are as they were. *)
Theorem openPool_closePool_frame (launchId : string) (pool : AllocationPool)
    (st : ManagerState.t) (launch : LaunchAllocation.t) :
  let poolData := LaunchAllocation.pools launch pool in
  let written (status : PoolStatus.t) (st' : ManagerState.t) :=
    (exists launch',
       ManagerState.launches st' !! launchId = Some launch'
       /\ LaunchAllocation.pools launch' pool
          = PoolAllocation.mk (PoolAllocation.pool poolData)
              (PoolAllocation.totalTokens poolData)
              (PoolAllocation.totalValueUSD poolData)
              (PoolAllocation.allocated poolData)
              (PoolAllocation.remaining poolData)
              (PoolAllocation.participants poolData) status
       /\ forall q, q <> pool ->
                    LaunchAllocation.pools launch' q = LaunchAllocation.pools launch q)
    /\ ManagerState.requests st' = ManagerState.requests st
    /\ forall other,
         other <> launchId ->
         ManagerState.launches st' !! other = ManagerState.launches st !! other in
  ManagerState.launches st !! launchId = Some launch ->
  written PoolStatus.open (openPool launchId pool st)
  /\ written PoolStatus.closed (closePool launchId pool st).
Proof.
  intros poolData written Hl. subst written. cbn beta.
  unfold openPool, closePool. rewrite Hl. unfold set_launches.
  cbn [ManagerState.launches ManagerState.requests].
  split.
  - split; [| split; [reflexivity | intros; now apply lookup_insert_ne]].
    eexists. split; [apply lookup_insert_eq |].
    split; [now rewrite set_pool_same | intros q Hq; now apply set_pool_other].
  - split; [| split; [reflexivity | intros; now apply lookup_insert_ne]].
    eexists. split; [apply lookup_insert_eq |].
    split; [now rewrite set_pool_same | intros q Hq; now apply set_pool_other].
Qed.

Lemma openPool_closePool_frame_witness :
  ManagerState.requests (openPool "L" fcfs lottery_request)
  = ManagerState.requests lottery_request.
Proof.
  edestruct (openPool_closePool_frame "L" fcfs lottery_request) as [Hopen _].
  - vm_compute. reflexivity.
  - exact (proj1 (proj2 Hopen)).
Defined.

(** Requests enter a pool only while it is open: a pool of a launch that was
    just initialised, and a pool that was closed, reject every request with
    ['Pool not open for requests'] and keep the manager as it is. *)
Theorem intake_window (stakers : Stakers) (request : AllocationRequest.t)
    (st : ManagerState.t) :
  let launchId := AllocationRequest.launchId request in
  let pool := AllocationRequest.pool request in
  (forall totalTokens tokenPrice,
     let st' := snd (initializeLaunch launchId totalTokens tokenPrice st) in
     submitRequest stakers request st'
     = (failure "Pool not open for requests", st'))
  /\ (forall launch,
        ManagerState.launches st !! launchId = Some launch ->
        let st' := closePool launchId pool st in
        submitRequest stakers request st'
        = (failure "Pool not open for requests", st')).
Proof.
  cbn zeta. split.
  - intros totalTokens tokenPrice. unfold submitRequest, initializeLaunch.
    cbn [snd ManagerState.launches]. rewrite lookup_insert_eq. reflexivity.
  - intros launch Hl. unfold submitRequest, closePool. rewrite Hl.
    unfold set_launches. cbn [ManagerState.launches].
    rewrite lookup_insert_eq, set_pool_same. reflexivity.
Qed.

Lemma intake_window_witness :
  submitRequest ∅ (AllocationRequest.mk "D" "L" public_lottery 10)
    (closePool "L" public_lottery lottery_request)
  = (failure "Pool not open for requests",
     closePool "L" public_lottery lottery_request).
Proof.
  edestruct (intake_window ∅ (AllocationRequest.mk "D" "L" public_lottery 10)
               lottery_request) as [_ H].
  eapply H. vm_compute. reflexivity.
Defined.

End WholeLaunch.

Section VestingCalendar.
Import AllocationManager.

Lemma Qtrunc_offset (now z : Z) (c : Q) :
  c == inject_Z z -> Qtrunc (inject_Z now + c) = (now + z)%Z.
Proof.
  intros H. rewrite (Qtrunc_comp _ (inject_Z (now + z))).
  - apply Qtrunc_inject_Z.
  - rewrite inject_Z_plus, H. reflexivity.
Qed.

(** The calendar of a schedule.  Up to $500 there is one release, at the
    start.  Above $500 the TGE release is at the start and the four tranches
    follow at [cliffDays + k * vestingDays / 4] days for k = 1..4: after
    7.5, 15, 22.5 and 30 days up to $2,000; after 22, 37, 52 and 67 days up to
    $10,000; after 36.5, 59, 81.5 and 104 days above. *)
Theorem vesting_release_dates (now : Z) (amountUSD tokens : Q) :
  let schedule := createVestingSchedule now amountUSD tokens in
  VestingSchedule.startDate schedule = now
  /\ (amountUSD <= 500 ->
      map Release.date (VestingSchedule.releases schedule) = [now]
      /\ VestingSchedule.cliffDays schedule = 0
      /\ VestingSchedule.vestingDays schedule = 0)
  /\ (500 < amountUSD ->
      map Release.date (VestingSchedule.releases schedule)
      = map (Z.add now) (releaseOffsets amountUSD)).
Proof.
  cbn zeta. split; [| split].
  - unfold createVestingSchedule. now destruct (Qeq_bool _ 0).
  - intros H. rewrite (createVestingSchedule_immediate now amountUSD tokens H).
    repeat split.
  - intros H. unfold createVestingSchedule, releaseOffsets.
    cbn [VESTING_TIERS List.find VestingTier.maxUSD].
    destruct (Qle_bool amountUSD 500) eqn:E500;
      [apply Qle_bool_iff in E500; lra |].
    destruct (Qle_bool amountUSD 2000);
      [| destruct (Qle_bool amountUSD 10000)];
      cbn [from_option id VestingTier.vestingDays VestingTier.cliffDays
           VestingTier.tgePercent];
      match goal with
      | |- context [Qeq_bool ?a 0] => change (Qeq_bool a 0) with false
      end;
      cbn [VestingSchedule.releases map seq Release.date];
      rewrite Z.add_0_r;
      repeat match goal with
             | |- context [Qtrunc (inject_Z now + ?c)] =>
                 let z := eval vm_compute in (Qtrunc c) in
                 rewrite (Qtrunc_offset now z c) by (vm_compute; reflexivity)
             end;
      reflexivity.
Qed.

Lemma vesting_release_dates_witness :
  map Release.date (VestingSchedule.releases (createVestingSchedule 1000 1500 900))
  = map (Z.add 1000) [0; 648000000; 1296000000; 1944000000; 2592000000]%Z.
Proof.
  refine (proj2 (proj2 (vesting_release_dates 1000 1500 900)) _).
  reflexivity.
Defined.

Lemma tgePercent_bounds (amountUSD : Q) :
  0 <= tgePercentAbove500 amountUSD / 100 <= 1.
Proof.
  unfold tgePercentAbove500.
  destruct (Qle_bool amountUSD 2000); [| destruct (Qle_bool amountUSD 10000)];
    split; discriminate.
Qed.

(** No release of a schedule for a non-negative token count is negative,
    and the TGE release is at most the token count. *)
Theorem vesting_amounts_nonneg (now : Z) (amountUSD tokens : Q) :
  0 <= tokens ->
  let schedule := createVestingSchedule now amountUSD tokens in
  Forall (fun r => 0 <= Release.amount r <= tokens)
         (VestingSchedule.releases schedule).
Proof.
  intros Htok. cbn zeta.
  destruct (Qlt_le_dec 500 amountUSD) as [Hgt | Hle].
  - pose proof (createVestingSchedule_vested now amountUSD tokens Hgt)
      as (Hamounts & _ & _). cbn zeta in Hamounts.
    pose proof (tgePercent_bounds amountUSD) as [Hp0 Hp1].
    set (p := tgePercentAbove500 amountUSD / 100) in *.
    assert (Hx0 : 0 <= tokens * p) by now apply Qmult_le_0_compat.
    assert (Hx1 : tokens * p <= tokens) by nra.
    pose proof (floorQ_nonneg _ Hx0) as Ht0.
    pose proof (floorQ_le (tokens * p)) as Ht1.
    set (tge := floorQ (tokens * p)) in *.
    assert (Hq : (tokens - tge) == 4 * ((tokens - tge) / 4)) by field.
    assert (Hv0 : 0 <= (tokens - tge) / 4) by lra.
    pose proof (floorQ_nonneg _ Hv0) as Hr0.
    pose proof (floorQ_le ((tokens - tge) / 4)) as Hr1.
    set (q := (tokens - tge) / 4) in *. set (r := floorQ q) in *.
    assert (Hall : Forall (fun a => 0 <= a <= tokens)
                     (map Release.amount
                          (VestingSchedule.releases
                             (createVestingSchedule now amountUSD tokens)))).
    { rewrite Hamounts. repeat constructor; lra. }
    apply Forall_forall. intros x Hx. rewrite Forall_forall in Hall.
    apply Hall. apply list_elem_of_In, in_map, list_elem_of_In. exact Hx.
  - rewrite (createVestingSchedule_immediate now amountUSD tokens Hle).
    repeat constructor; cbn; lra.
Qed.

Lemma vesting_amounts_nonneg_witness :
  Forall (fun r => 0 <= Release.amount r <= 1003)
         (VestingSchedule.releases (createVestingSchedule 0 1500 1003)).
Proof.
  apply (vesting_amounts_nonneg 0 1500 1003). discriminate.
Defined.

End VestingCalendar.

(** * Repeated distributions and conservation *)

Section RepeatedRuns.
Import AllocationManager.

#[local] Arguments set_pool : simpl never.





Lemma entryRequest_weights (ps qs : list AllocationEntry.t) :
  map entryRequest ps = map entryRequest qs ->
  map AllocationEntry.weight ps = map AllocationEntry.weight qs
  /\ length ps = length qs.
Proof.
  intros H. split.
  - assert (E : forall l, map AllocationEntry.weight l
                          = map (fun r => snd (fst r)) (map entryRequest l)).
    { intros l. rewrite map_map. reflexivity. }
    now rewrite !E, H.
  - now rewrite <- (length_map entryRequest ps), H, length_map.
Qed.

Lemma Forall_weight_map (ps : list AllocationEntry.t) :
  Forall (fun p => 0 < AllocationEntry.weight p) ps
  <-> Forall (fun w => 0 < w) (map AllocationEntry.weight ps).
Proof.
  induction ps as [| p ps IH]; cbn [map].
  - split; constructor.
  - split; intros H; inversion H; subst; constructor; tauto.
Qed.

Lemma entryRequest_fillGuaranteed (now : Z) (poolTokens totalWeight tokenPrice : Q)
    (participants : list AllocationEntry.t) :
  map entryRequest
      (map (fillGuaranteed now poolTokens totalWeight tokenPrice) participants)
  = map entryRequest participants.
Proof. rewrite map_map. reflexivity. Qed.

Lemma entryRequest_executeLotteryPoolOn (now : Z) (random : nat -> Q)
    (pool : AllocationPool) (launch : LaunchAllocation.t) (q : AllocationPool) :
  map entryRequest
      (PoolAllocation.participants
         (LaunchAllocation.pools (executeLotteryPoolOn now random pool launch) q))
  = map entryRequest
      (PoolAllocation.participants (LaunchAllocation.pools launch q)).
Proof.
  destruct (decide (q = pool)) as [-> | Hq];
    [| now rewrite executeLotteryPoolOn_other].
  unfold executeLotteryPoolOn.
  destruct (PoolAllocation.participants (LaunchAllocation.pools launch pool))
    as [| p ps] eqn:Hps; [now rewrite Hps |].
  rewrite set_pool_same. cbn [PoolAllocation.participants].
  now rewrite (proj1 (markLost_static _)), drawWinners_static.
Qed.

Lemma entryRequest_executeFCFSPoolOn (requests : list AllocationRequest.t)
    (launch : LaunchAllocation.t) (q : AllocationPool) :
  map entryRequest
      (PoolAllocation.participants
         (LaunchAllocation.pools (executeFCFSPoolOn requests launch) q))
  = map entryRequest
      (PoolAllocation.participants (LaunchAllocation.pools launch q)).
Proof.
  destruct (decide (q = fcfs)) as [-> | Hq];
    [| now rewrite executeFCFSPoolOn_other].
  unfold executeFCFSPoolOn. rewrite set_pool_same.
  cbn [PoolAllocation.participants].
  rewrite (proj1 (markLost_static _)).
  match goal with
  | |- context [serveFCFS ?c ?pr ?rs ?d0] =>
      exact (proj1 (serveFCFS_static c pr rs d0))
  end.
Qed.

Lemma entryRequest_executeGuaranteedPoolOn (now : Z) (launch : LaunchAllocation.t)
    (q : AllocationPool) :
  map entryRequest
      (PoolAllocation.participants
         (LaunchAllocation.pools (executeGuaranteedPoolOn now launch) q))
  = map entryRequest
      (PoolAllocation.participants (LaunchAllocation.pools launch q)).
Proof.
  destruct (decide (q = guaranteed)) as [-> | Hq];
    [| now rewrite executeGuaranteedPoolOn_other].
  destruct (PoolAllocation.participants (LaunchAllocation.pools launch guaranteed))
    as [| p ps] eqn:Hps.
  - now rewrite (executeGuaranteedPoolOn_empty now launch Hps), Hps.
  - rewrite (executeGuaranteedPoolOn_pool now launch) by (rewrite Hps; discriminate).
    cbn [PoolAllocation.participants]. rewrite Hps.
    apply entryRequest_fillGuaranteed.
Qed.







End RepeatedRuns.

Section PoolBounds.
Import AllocationManager.

#[local] Arguments set_pool : simpl never.

Lemma HALF_ULP_pos : 0 < HALF_ULP.
Proof. reflexivity. Qed.

Lemma HALF_ULP_lt_1 : HALF_ULP < 1.
Proof. reflexivity. Qed.

Lemma Qsum_nonneg (l : list Q) : Forall (fun w => 0 < w) l -> 0 <= Qsum l.
Proof.
  induction 1 as [| w l Hw _ IH]; [discriminate |].
  rewrite Qsum_cons. lra.
Qed.

Lemma Qsum_pos (l : list Q) : Forall (fun w => 0 < w) l -> l <> [] -> 0 < Qsum l.
Proof.
  intros H Hne. destruct H as [| w l Hw Hl]; [congruence |].
  rewrite Qsum_cons. pose proof (Qsum_nonneg l Hl). lra.
Qed.

(** The binary64 sum of positive numbers is below their exact sum by a
    relative error of at most [2^-53] per addition. *)
Lemma fold_fadd_lower (ws : list Q) (acc : Q) :
  Forall (fun w => 0 < w) ws ->
  0 <= acc ->
  inject_Z (Z.of_nat (length ws)) * HALF_ULP <= 1 ->
  (1 - inject_Z (Z.of_nat (length ws)) * HALF_ULP) * (acc + Qsum ws)
  <= fold_left fadd ws acc.
Proof.
  intros Hws. revert acc. induction Hws as [| w l Hw Hl IH]; intros acc Hacc Hn.
  - unfold Qsum. cbn [fold_left length fold_right Z.of_nat].
    change (inject_Z (Z.of_nat 0)) with 0. nra.
  - cbn [fold_left]. rewrite Qsum_cons.
    cbn [length] in Hn. rewrite Nat2Z.inj_succ, <- Z.add_1_r, inject_Z_plus in Hn.
    cbn [length]. rewrite Nat2Z.inj_succ, <- Z.add_1_r, inject_Z_plus.
    change (inject_Z 1) with 1 in *.
    pose proof HALF_ULP_pos as Hu.
    assert (Hsum : 0 <= acc + w) by lra.
    destruct (round64_error (acc + w) Hsum) as [Hlo _].
    pose proof (round64_nonneg (acc + w) Hsum) as Hpos.
    fold (fadd acc w) in Hlo, Hpos.
    set (u := HALF_ULP) in *. clearbody u.
    set (n := inject_Z (Z.of_nat (length l))) in *.
    assert (Hn0 : 0 <= n).
    { subst n. change 0 with (inject_Z 0). rewrite <- Zle_Qle. lia. }
    specialize (IH (fadd acc w) Hpos).
    assert (Hnl : n * u <= 1) by nra.
    specialize (IH Hnl).
    pose proof (Qsum_nonneg l Hl) as Hs.
    eapply Qle_trans; [| exact IH].
    clearbody n. set (f := fadd acc w) in *. clearbody f.
    set (s := Qsum l) in *. clearbody s.
    assert (H1 : (1 - n * u) * ((1 - u) * (acc + w) + (1 - u) * s)
                 <= (1 - n * u) * (f + s)).
    { rewrite !(Qmult_comm (1 - n * u)).
      assert (Hus : 0 <= u * s) by (apply Qmult_le_0_compat; lra).
      apply Qmult_le_compat_r; [| lra].
      assert (E : (1 - u) * s == s - u * s) by ring.
      rewrite E. lra. }
    eapply Qle_trans; [| exact H1].
    assert (Hx : 0 <= acc + w + s) by lra.
    set (x := acc + w + s) in *.
    assert (E1 : (1 - n * u) * ((1 - u) * (acc + w) + (1 - u) * s)
                 == (1 - n * u) * (1 - u) * x) by (subst x; ring).
    rewrite E1.
    assert (E2 : (1 - n * u) * (1 - u) == (1 - (n + 1) * u) + n * u * u) by ring.
    rewrite E2.
    assert (Hnu : 0 <= n * u * u).
    { apply Qmult_le_0_compat; [apply Qmult_le_0_compat |]; lra. }
    assert (E3 : (1 - (n + 1) * u + n * u * u) * x
                 == (1 - (n + 1) * u) * (acc + (w + s)) + n * u * u * x)
      by (subst x; ring).
    rewrite E3.
    assert (H2 : 0 <= n * u * u * x) by (apply Qmult_le_0_compat; lra).
    lra.
Qed.

(** The award of a participant, times the total weight, is at most the
    pool times the weight, up to two roundings. *)
Lemma guaranteedFinalTokens_weighted (poolTokens totalWeight tokenPrice : Q)
    (p : AllocationEntry.t) :
  0 <= poolTokens -> 0 < totalWeight -> 0 <= AllocationEntry.weight p ->
  guaranteedFinalTokens poolTokens totalWeight tokenPrice p * totalWeight
  <= (1 + HALF_ULP) * (1 + HALF_ULP) * poolTokens * AllocationEntry.weight p.
Proof.
  intros HT HW Hw. unfold guaranteedFinalTokens, fmul, fdiv. cbn zeta.
  set (w := AllocationEntry.weight p) in *.
  set (cap := floorQ (round64 (AllocationEntry.requestedAmount p / tokenPrice))).
  assert (Hq : 0 <= w / totalWeight).
  { unfold Qdiv. apply Qmult_le_0_compat; [exact Hw |].
    apply Qinv_le_0_compat. lra. }
  destruct (round64_error (w / totalWeight) Hq) as [_ Hh].
  pose proof (round64_nonneg (w / totalWeight) Hq) as Hh0.
  set (h := round64 (w / totalWeight)) in *.
  assert (Hp : 0 <= poolTokens * h) by (apply Qmult_le_0_compat; lra).
  destruct (round64_error (poolTokens * h) Hp) as [_ Hx].
  set (x := round64 (poolTokens * h)) in *.
  pose proof (floorQ_le x) as Hfl.
  pose proof (Q.le_min_l (floorQ x) cap) as Hmin.
  set (a := Qmin (floorQ x) cap) in *.
  pose proof HALF_ULP_pos as Hu. set (u := HALF_ULP) in *.
  assert (HhW : h * totalWeight <= (1 + u) * w).
  { assert (E : (1 + u) * (w / totalWeight) * totalWeight == (1 + u) * w)
      by (field; lra).
    rewrite <- E. apply Qmult_le_compat_r; [exact Hh | lra]. }
  assert (H1 : a * totalWeight <= (1 + u) * (poolTokens * h) * totalWeight).
  { apply Qmult_le_compat_r; lra. }
  assert (H2 : (1 + u) * poolTokens * (h * totalWeight)
               <= (1 + u) * poolTokens * ((1 + u) * w)).
  { rewrite !(Qmult_comm ((1 + u) * poolTokens)).
    apply Qmult_le_compat_r; [exact HhW |].
    apply Qmult_le_0_compat; lra. }
  assert (E1 : (1 + u) * (poolTokens * h) * totalWeight
               == (1 + u) * poolTokens * (h * totalWeight)) by ring.
  assert (E2 : (1 + u) * poolTokens * ((1 + u) * w)
               == (1 + u) * (1 + u) * poolTokens * w) by ring.
  lra.
Qed.

Lemma guaranteed_sum_weighted (poolTokens totalWeight tokenPrice : Q)
    (participants : list AllocationEntry.t) :
  0 <= poolTokens -> 0 < totalWeight ->
  Forall (fun p => 0 < AllocationEntry.weight p) participants ->
  Qsum (map (guaranteedFinalTokens poolTokens totalWeight tokenPrice) participants)
  * totalWeight
  <= (1 + HALF_ULP) * (1 + HALF_ULP) * poolTokens
     * Qsum (map AllocationEntry.weight participants).
Proof.
  intros HT HW Hall. induction Hall as [| p ps Hp _ IH]; cbn [map].
  - unfold Qsum. cbn [fold_right]. lra.
  - rewrite !Qsum_cons.
    pose proof (guaranteedFinalTokens_weighted poolTokens totalWeight tokenPrice p
                  HT HW (Qlt_le_weak _ _ Hp)) as H.
    set (a := guaranteedFinalTokens poolTokens totalWeight tokenPrice p) in *.
    set (A := Qsum (map _ ps)) in *.
    set (S := Qsum (map AllocationEntry.weight ps)) in *.
    set (c := (1 + HALF_ULP) * (1 + HALF_ULP) * poolTokens) in *.
    assert (E1 : (a + A) * totalWeight == a * totalWeight + A * totalWeight) by ring.
    assert (E2 : c * (AllocationEntry.weight p + S)
                 == c * AllocationEntry.weight p + c * S) by ring.
    lra.
Qed.

(** The awards are whole numbers. *)
Lemma guaranteed_sum_whole (poolTokens totalWeight tokenPrice : Q)
    (participants : list AllocationEntry.t) :
  exists z : Z,
    Qsum (map (guaranteedFinalTokens poolTokens totalWeight tokenPrice) participants)
    == inject_Z z.
Proof.
  induction participants as [| p ps [z IH]]; cbn [map].
  - exists 0%Z. reflexivity.
  - assert (Ha : exists a : Z,
               guaranteedFinalTokens poolTokens totalWeight tokenPrice p
               == inject_Z a).
    { unfold guaranteedFinalTokens, floorQ. cbn zeta.
      match goal with
      | |- context [Qmin (inject_Z ?x) (inject_Z ?y)] =>
          destruct (Q.min_spec (inject_Z x) (inject_Z y)) as [[_ H] | [_ H]];
          [exists x | exists y]; exact H
      end. }
    destruct Ha as [a Ha]. exists (a + z)%Z.
    rewrite Qsum_cons, IH, Ha, inject_Z_plus. reflexivity.
Qed.

(** One guaranteed distribution awards at most the pool, for a pool of a
    whole number of tokens and participants of positive weight, when the
    pool and the number of participants are far below [2^53]. *)
Lemma guaranteed_sum_bounded (poolSize : Z) (tokenPrice : Q)
    (participants : list AllocationEntry.t) :
  (0 <= poolSize)%Z ->
  Forall (fun p => 0 < AllocationEntry.weight p) participants ->
  ((poolSize + 1) * (Z.of_nat (length participants) + 3) < 2 ^ 53)%Z ->
  Qsum (map (guaranteedFinalTokens (inject_Z poolSize)
               (totalWeightOf participants) tokenPrice) participants)
  <= inject_Z poolSize.
Proof.
  intros Hsize Hall Hbound.
  destruct participants as [| p0 ps0] eqn:Hps.
  { unfold Qsum. cbn [map fold_right]. change 0 with (inject_Z 0).
    now rewrite <- Zle_Qle. }
  rewrite <- Hps in *.
  assert (Hne : participants <> []) by (rewrite Hps; discriminate).
  clear Hps p0 ps0.
  set (T := inject_Z poolSize).
  set (n := inject_Z (Z.of_nat (length participants))).
  assert (HT : 0 <= T).
  { subst T. change 0 with (inject_Z 0). now rewrite <- Zle_Qle. }
  assert (Hn : 0 <= n).
  { subst n. change 0 with (inject_Z 0). rewrite <- Zle_Qle. lia. }
  assert (HB : (T + 1) * (n + 3) * HALF_ULP < 1).
  { assert (H : (T + 1) * (n + 3) < inject_Z (2 ^ 53)).
    { subst T n. change 1 with (inject_Z 1). change 3 with (inject_Z 3).
      rewrite <- !inject_Z_plus, <- inject_Z_mult, <- Zlt_Qlt. exact Hbound. }
    assert (E : inject_Z (2 ^ 53) * HALF_ULP == 1) by reflexivity.
    apply Qlt_le_trans with (inject_Z (2 ^ 53) * HALF_ULP);
      [apply Qmult_lt_compat_r; [reflexivity | exact H] | rewrite E; lra]. }
  pose proof HALF_ULP_pos as Hu.
  assert (Hws : Forall (fun w => 0 < w) (map AllocationEntry.weight participants)).
  { apply Forall_forall. intros w Hw.
    apply list_elem_of_In, in_map_iff in Hw as (p & <- & Hp).
    rewrite Forall_forall in Hall. apply Hall. now apply list_elem_of_In. }
  pose proof (Qsum_pos _ Hws) as HS.
  assert (Hnu : n * HALF_ULP <= 1).
  { assert (H : n * HALF_ULP <= (T + 1) * (n + 3) * HALF_ULP).
    { apply Qmult_le_compat_r; [| lra].
      assert (E : (T + 1) * (n + 3) == n + (T * n + 3 * T + 3)) by ring.
      rewrite E.
      assert (0 <= T * n) by (apply Qmult_le_0_compat; lra). lra. }
    lra. }
  pose proof (fold_fadd_lower (map AllocationEntry.weight participants) 0 Hws
                (Qle_refl 0)) as HW.
  rewrite length_map in HW. fold n in HW. specialize (HW Hnu).
  rewrite <- totalWeightOf_fadd in HW.
  destruct (guaranteed_sum_whole T (totalWeightOf participants) tokenPrice
              participants) as [z Hz].
  assert (HS' : 0 < Qsum (map AllocationEntry.weight participants)).
  { apply HS. destruct participants; [congruence | discriminate]. }
  set (S := Qsum (map AllocationEntry.weight participants)) in *.
  set (W := totalWeightOf participants) in *.
  assert (Hn1 : 0 < 1 - n * HALF_ULP).
  { assert (H : n * HALF_ULP < (T + 1) * (n + 3) * HALF_ULP).
    { apply Qmult_lt_compat_r; [exact Hu |].
      assert (E : (T + 1) * (n + 3) == n + (T * n + 3 * T + 3)) by ring.
      rewrite E.
      assert (0 <= T * n) by (apply Qmult_le_0_compat; lra). lra. }
    lra. }
  assert (HWpos : 0 < W).
  { assert (H : 0 < (1 - n * HALF_ULP) * (0 + S)).
    { apply Qmult_lt_0_compat; lra. }
    lra. }
  pose proof (guaranteed_sum_weighted T W tokenPrice participants HT HWpos Hall)
    as HA. fold S in HA.
  set (A := Qsum (map (guaranteedFinalTokens T W tokenPrice) participants)) in *.
  destruct (Z_le_gt_dec z poolSize) as [Hle | Hgt];
    [rewrite Hz; unfold T; now rewrite <- Zle_Qle | exfalso].
  assert (HzT : T + 1 <= A).
  { rewrite Hz. subst T. change 1 with (inject_Z 1).
    rewrite <- inject_Z_plus, <- Zle_Qle. lia. }
  set (u := HALF_ULP) in *. clearbody u A S W T n.
  (* A (1 - n u) S <= A W <= (1+u)^2 T S *)
  assert (H1 : A * ((1 - n * u) * (0 + S)) <= A * W).
  { rewrite !(Qmult_comm A). apply Qmult_le_compat_r; lra. }
  assert (H2 : (T + 1) * (1 - n * u) * S <= A * (1 - n * u) * S).
  { apply Qmult_le_compat_r; [| lra].
    apply Qmult_le_compat_r; lra. }
  assert (H3 : (T + 1) * (1 - n * u) * S <= (1 + u) * (1 + u) * T * S).
  { assert (E : A * ((1 - n * u) * (0 + S)) == A * (1 - n * u) * S) by ring.
    lra. }
  assert (H4 : (T + 1) * (1 - n * u) <= (1 + u) * (1 + u) * T).
  { apply (Qmult_le_r _ _ S); [exact HS' | exact H3]. }
  assert (H5 : 0 <= u * u * T).
  { apply Qmult_le_0_compat; [apply Qmult_le_0_compat |]; lra. }
  assert (H6 : 0 <= T * n) by (apply Qmult_le_0_compat; lra).
  assert (H7 : u * u * T <= u * T).
  { assert (Hu1 : (T + 1) * (n + 3) * u == (T * n + n + 3 * T + 3) * u) by ring.
    assert (Hu2 : u <= 1).
    { assert (H : 1 * u <= (T * n + n + 3 * T + 3) * u).
      { apply Qmult_le_compat_r; lra. }
      lra. }
    assert (E : u * u * T == u * (u * T)) by ring. rewrite E.
    assert (H : u * (u * T) <= 1 * (u * T)).
    { apply Qmult_le_compat_r; [exact Hu2 |]. apply Qmult_le_0_compat; lra. }
    lra. }
  assert (E4 : (T + 1) * (1 - n * u) == T + 1 - (T * n + n) * u) by ring.
  assert (E5 : (1 + u) * (1 + u) * T == T + 2 * (u * T) + u * u * T) by ring.
  assert (E6 : (T + 1) * (n + 3) * u == (T * n + n) * u + 3 * (u * T) + 3 * u) by ring.
  lra.
Qed.

(** Either a participant is capped or floored, or the awards make up for the
    exact shares. *)
Lemma guaranteed_short_cause (poolTokens tokenPrice : Q)
    (all participants : list AllocationEntry.t) :
  Exists (cappedOrFloored poolTokens tokenPrice all) participants
  \/ Qsum (map (fun p => poolTokens
                         * (AllocationEntry.weight p
                            / Qsum (map AllocationEntry.weight all)))
               participants)
     <= Qsum (map (guaranteedFinalTokens poolTokens (totalWeightOf all) tokenPrice)
                  participants).
Proof.
  induction participants as [| p ps IH]; cbn [map]; [right; apply Qle_refl |].
  destruct IH as [IH | IH]; [left; now apply Exists_cons_tl |].
  set (share := floorQ (fmul poolTokens
                          (fdiv (AllocationEntry.weight p) (totalWeightOf all)))).
  set (cap := floorQ (fdiv (AllocationEntry.requestedAmount p) tokenPrice)).
  set (exact := poolTokens
                * (AllocationEntry.weight p / Qsum (map AllocationEntry.weight all))).
  destruct (Qlt_le_dec cap share) as [Hcap | Hcap].
  { left. apply Exists_cons_hd. now left. }
  destruct (Qlt_le_dec share exact) as [Hfl | Hfl].
  { left. apply Exists_cons_hd. now right. }
  right. rewrite !Qsum_cons. fold exact.
  assert (H : guaranteedFinalTokens poolTokens (totalWeightOf all) tokenPrice p
              == share).
  { unfold guaranteedFinalTokens. fold share cap. now apply Q.min_l. }
  rewrite H. lra.
Qed.

Lemma exact_shares_sum (poolTokens : Q) (participants : list AllocationEntry.t) :
  ~ Qsum (map AllocationEntry.weight participants) == 0 ->
  Qsum (map (fun p => poolTokens
                      * (AllocationEntry.weight p
                         / Qsum (map AllocationEntry.weight participants)))
            participants)
  == poolTokens.
Proof.
  intros HS. rewrite shares_sum. field. exact HS.
Qed.

Section Runs.

Variable launch0 : LaunchAllocation.t.
Variable poolSize : Z.

Hypothesis pools_nonneg :
  forall pool,
    0 <= PoolAllocation.totalTokens (LaunchAllocation.pools launch0 pool).
Hypothesis guaranteed_whole :
  PoolAllocation.totalTokens (LaunchAllocation.pools launch0 guaranteed)
  = inject_Z poolSize.
Hypothesis weights_positive :
  Forall (fun p => 0 < AllocationEntry.weight p)
         (PoolAllocation.participants (LaunchAllocation.pools launch0 guaranteed)).
Hypothesis size_bound :
  ((poolSize + 1)
   * (Z.of_nat
        (length (PoolAllocation.participants
                   (LaunchAllocation.pools launch0 guaranteed))) + 3)
   < 2 ^ 53)%Z.

Lemma poolSize_nonneg : (0 <= poolSize)%Z.
Proof.
  pose proof (pools_nonneg guaranteed) as H. rewrite guaranteed_whole in H.
  change 0 with (inject_Z 0) in H. now rewrite <- Zle_Qle in H.
Qed.

(** One guaranteed distribution adds at most the pool to [allocated]. *)
Lemma executeGuaranteedPoolOn_bounded (now : Z) (launch : LaunchAllocation.t) :
  sameSetting launch0 launch ->
  PoolAllocation.allocated
    (LaunchAllocation.pools (executeGuaranteedPoolOn now launch) guaranteed)
  <= PoolAllocation.allocated (LaunchAllocation.pools launch guaranteed)
     + PoolAllocation.totalTokens (LaunchAllocation.pools launch0 guaranteed).
Proof.
  intros [HT Hps].
  pose proof (pools_nonneg guaranteed) as H0.
  destruct (PoolAllocation.participants (LaunchAllocation.pools launch guaranteed))
    as [| p ps] eqn:E.
  - rewrite (executeGuaranteedPoolOn_empty now launch E). lra.
  - rewrite (executeGuaranteedPoolOn_pool now launch) by (rewrite E; discriminate).
    cbn [PoolAllocation.allocated]. rewrite distributeGuaranteed_snd.
    rewrite (HT guaranteed), guaranteed_whole, E.
    destruct (entryRequest_weights _ _ Hps) as [Hw Hlen].
    pose proof (guaranteed_sum_bounded poolSize (LaunchAllocation.tokenPrice launch)
                  (p :: ps) poolSize_nonneg) as Hsum.
    rewrite Hlen in Hsum.
    assert (Hpos : Forall (fun p => 0 < AllocationEntry.weight p) (p :: ps)).
    { apply Forall_weight_map. rewrite Hw. now apply Forall_weight_map. }
    specialize (Hsum Hpos size_bound). lra.
Qed.

(** A distribution call keeps the setting and adds at most the pool to the
    counter of the pool it distributes, nothing to the others. *)
Lemma runDistributionOn_step (requests : list AllocationRequest.t)
    (launch : LaunchAllocation.t) (d : Distribution) (pool : AllocationPool) :
  sameSetting launch0 launch ->
  sameSetting launch0 (runDistributionOn requests launch d)
  /\ PoolAllocation.allocated
       (LaunchAllocation.pools (runDistributionOn requests launch d) pool)
     <= PoolAllocation.allocated (LaunchAllocation.pools launch pool)
        + (if bool_decide (distributedPool d = pool)
           then PoolAllocation.totalTokens (LaunchAllocation.pools launch0 pool)
           else 0).
Proof.
  intros Hsame. pose proof Hsame as [HT Hps]. split.
  - split.
    + intros q. rewrite <- (HT q). destruct d as [now | now random pool' |];
        cbn [runDistributionOn].
      * destruct (decide (q = guaranteed)) as [-> | Hq];
          [| now rewrite executeGuaranteedPoolOn_other].
        destruct (PoolAllocation.participants
                    (LaunchAllocation.pools launch guaranteed)) eqn:E.
        -- now rewrite (executeGuaranteedPoolOn_empty now launch E).
        -- now rewrite (executeGuaranteedPoolOn_pool now launch)
             by (rewrite E; discriminate).
      * destruct (decide (q = pool')) as [-> | Hq];
          [| now rewrite executeLotteryPoolOn_other].
        unfold executeLotteryPoolOn.
        destruct (PoolAllocation.participants (LaunchAllocation.pools launch pool'));
          [reflexivity |].
        now rewrite set_pool_same.
      * destruct (decide (q = fcfs)) as [-> | Hq];
          [| now rewrite executeFCFSPoolOn_other].
        unfold executeFCFSPoolOn. now rewrite set_pool_same.
    + rewrite <- Hps. destruct d as [now | now random pool' |];
        cbn [runDistributionOn].
      * apply entryRequest_executeGuaranteedPoolOn.
      * apply entryRequest_executeLotteryPoolOn.
      * apply entryRequest_executeFCFSPoolOn.
  - pose proof (pools_nonneg pool) as H0.
    case_bool_decide as Hd.
    + subst pool. destruct d as [now | now random pool' |];
        cbn [runDistributionOn distributedPool] in *.
      * now apply executeGuaranteedPoolOn_bounded.
      * rewrite <- (HT pool'). rewrite <- (HT pool') in H0.
        exact (proj2 (executeLotteryPoolOn_conserves now random pool' launch H0)).
      * rewrite <- (HT fcfs). rewrite <- (HT fcfs) in H0.
        exact (proj2 (executeFCFSPoolOn_conserves requests launch H0)).
    + destruct d as [now | now random pool' |];
        cbn [runDistributionOn distributedPool] in *.
      * rewrite executeGuaranteedPoolOn_other by congruence. lra.
      * rewrite executeLotteryPoolOn_other by congruence. lra.
      * rewrite executeFCFSPoolOn_other by congruence. lra.
Qed.

Lemma runDistributionsOn_bounded (requests : list AllocationRequest.t)
    (ds : list Distribution) (launch : LaunchAllocation.t) (pool : AllocationPool) :
  sameSetting launch0 launch ->
  let launch' := fold_left (runDistributionOn requests) ds launch in
  sameSetting launch0 launch'
  /\ PoolAllocation.allocated (LaunchAllocation.pools launch' pool)
     <= PoolAllocation.allocated (LaunchAllocation.pools launch pool)
        + inject_Z (Z.of_nat (timesDistributed pool ds))
          * PoolAllocation.totalTokens (LaunchAllocation.pools launch0 pool).
Proof.
  cbn zeta. revert launch. induction ds as [| d ds IH]; intros launch Hsame.
  - unfold timesDistributed. cbn [fold_left List.filter length].
    change (inject_Z (Z.of_nat 0)) with 0. split; [exact Hsame |].
    rewrite Qmult_0_l. lra.
  - cbn [fold_left].
    destruct (runDistributionOn_step requests launch d pool Hsame) as [H1 H2].
    destruct (IH _ H1) as [H3 H4]. split; [exact H3 |].
    unfold timesDistributed in *. cbn [List.filter].
    pose proof (pools_nonneg pool) as H0.
    set (T := PoolAllocation.totalTokens (LaunchAllocation.pools launch0 pool)) in *.
    destruct (bool_decide (distributedPool d = pool)).
    + cbn [length]. rewrite Nat2Z.inj_succ, <- Z.add_1_r, inject_Z_plus.
      change (inject_Z 1) with 1.
      set (k := inject_Z (Z.of_nat (length _))) in *.
      assert (E : (k + 1) * T == k * T + T) by ring. lra.
    + lra.
Qed.

End Runs.

Lemma sameSetting_refl (launch : LaunchAllocation.t) : sameSetting launch launch.
Proof. split; reflexivity. Qed.

Lemma requests_runDistributions (launchId : string) (ds : list Distribution)
    (st : ManagerState.t) :
  ManagerState.requests (runDistributions launchId ds st)
  = ManagerState.requests st.
Proof.
  unfold runDistributions. revert st.
  induction ds as [| d ds IH]; intros st; [reflexivity |].
  cbn [fold_left]. rewrite IH. destruct d; cbn [runDistribution].
  - apply requests_executeGuaranteedPool.
  - apply requests_executeLotteryPool.
  - apply requests_executeFCFSPool.
Qed.

(** A sequence of distribution calls on the manager is the sequence of their
    effects on the launch object. *)
Lemma launches_runDistributions (launchId : string) (ds : list Distribution)
    (st : ManagerState.t) (launch : LaunchAllocation.t) :
  ManagerState.launches st !! launchId = Some launch ->
  ManagerState.launches (runDistributions launchId ds st) !! launchId
  = Some (fold_left
            (runDistributionOn (default [] (ManagerState.requests st !! launchId)))
            ds launch).
Proof.
  unfold runDistributions. revert st launch.
  induction ds as [| d ds IH]; intros st launch Hl; [exact Hl |].
  cbn [fold_left].
  assert (Hstep : ManagerState.launches (runDistribution launchId st d) !! launchId
                  = Some (runDistributionOn
                            (default [] (ManagerState.requests st !! launchId))
                            launch d)
                  /\ ManagerState.requests (runDistribution launchId st d)
                     = ManagerState.requests st).
  { destruct d; cbn [runDistribution runDistributionOn].
    - split; [now apply launches_executeGuaranteedPool
             | apply requests_executeGuaranteedPool].
    - split; [now apply launches_executeLotteryPool
             | apply requests_executeLotteryPool].
    - split; [now apply launches_executeFCFSPool
             | apply requests_executeFCFSPool]. }
  destruct Hstep as [H1 H2]. rewrite (IH _ _ H1), H2. reflexivity.
Qed.

(** C1, as the code has it.  Take a launch whose pools have a non-negative
    size, the guaranteed pool a whole number [T] of tokens, at a positive
    token price, whose guaranteed participants have positive weights and
    are [n] with [(T + 1) * (n + 3) < 2^53].  After any sequence of
    distribution calls, [allocated] of a pool exceeds what it was before the
    sequence by at most [totalTokens] times the number of calls that
    distribute this pool; so a pool with nothing allocated that is
    distributed at most once, as by [executeAllPools], ends with
    [allocated <= totalTokens], and nothing bounds [allocated] by
    [totalTokens] across repeated distributions.  After one guaranteed
    distribution with participants and nothing allocated before,
    [allocated < totalTokens] only if some participant was capped by the
    requested tokens or has a floored share below the exact pro-rata share
    (a fraction lost to the floor, or a product rounded below a whole
    number). *)
Theorem allocation_conservation (launchId : string) (st : ManagerState.t)
    (launch : LaunchAllocation.t) (poolSize : Z) :
  let participants :=
    PoolAllocation.participants (LaunchAllocation.pools launch guaranteed) in
  ManagerState.launches st !! launchId = Some launch ->
  (forall pool,
     0 <= PoolAllocation.totalTokens (LaunchAllocation.pools launch pool)) ->
  PoolAllocation.totalTokens (LaunchAllocation.pools launch guaranteed)
  = inject_Z poolSize ->
  0 < LaunchAllocation.tokenPrice launch ->
  Forall (fun p => 0 < AllocationEntry.weight p) participants ->
  ((poolSize + 1) * (Z.of_nat (length participants) + 3) < 2 ^ 53)%Z ->
  (forall ds pool,
     exists pool',
       poolOf launchId pool (runDistributions launchId ds st) = Some pool'
       /\ PoolAllocation.totalTokens pool'
          = PoolAllocation.totalTokens (LaunchAllocation.pools launch pool)
       /\ PoolAllocation.allocated pool'
          <= PoolAllocation.allocated (LaunchAllocation.pools launch pool)
             + inject_Z (Z.of_nat (timesDistributed pool ds))
               * PoolAllocation.totalTokens pool'
       /\ (PoolAllocation.allocated (LaunchAllocation.pools launch pool) == 0 ->
           (timesDistributed pool ds <= 1)%nat ->
           PoolAllocation.allocated pool' <= PoolAllocation.totalTokens pool'))
  /\ (forall now randomW randomP randomF pool,
        PoolAllocation.allocated (LaunchAllocation.pools launch pool) == 0 ->
        exists pool',
          poolOf launchId pool
            (executeAllPools now randomW randomP randomF launchId st) = Some pool'
          /\ PoolAllocation.allocated pool' <= PoolAllocation.totalTokens pool')
  /\ (forall now,
        participants <> [] ->
        PoolAllocation.allocated (LaunchAllocation.pools launch guaranteed) == 0 ->
        exists pool',
          poolOf launchId guaranteed (executeGuaranteedPool now launchId st)
          = Some pool'
          /\ PoolAllocation.allocated pool' <= PoolAllocation.totalTokens pool'
          /\ (PoolAllocation.allocated pool' < PoolAllocation.totalTokens pool' ->
              Exists
                (cappedOrFloored
                   (PoolAllocation.totalTokens
                      (LaunchAllocation.pools launch guaranteed))
                   (LaunchAllocation.tokenPrice launch) participants)
                participants)).
Proof.
  intros participants Hl Hnonneg Hwhole _ Hweights Hsize.
  assert (Hrun : forall requests ds pool,
            let launch' := fold_left (runDistributionOn requests) ds launch in
            PoolAllocation.totalTokens (LaunchAllocation.pools launch' pool)
            = PoolAllocation.totalTokens (LaunchAllocation.pools launch pool)
            /\ PoolAllocation.allocated (LaunchAllocation.pools launch' pool)
               <= PoolAllocation.allocated (LaunchAllocation.pools launch pool)
                  + inject_Z (Z.of_nat (timesDistributed pool ds))
                    * PoolAllocation.totalTokens (LaunchAllocation.pools launch pool)).
  { intros requests ds pool. cbn zeta.
    destruct (runDistributionsOn_bounded launch poolSize Hnonneg Hwhole Hweights
                Hsize requests ds launch pool (sameSetting_refl launch))
      as [[HT _] Hle].
    split; [apply HT | exact Hle]. }
  assert (Honce : forall requests ds pool,
            PoolAllocation.allocated (LaunchAllocation.pools launch pool) == 0 ->
            (timesDistributed pool ds <= 1)%nat ->
            let launch' := fold_left (runDistributionOn requests) ds launch in
            PoolAllocation.allocated (LaunchAllocation.pools launch' pool)
            <= PoolAllocation.totalTokens (LaunchAllocation.pools launch' pool)).
  { intros requests ds pool H0 Hk. cbn zeta.
    destruct (Hrun requests ds pool) as [-> Hle].
    pose proof (Hnonneg pool) as HT.
    set (T := PoolAllocation.totalTokens (LaunchAllocation.pools launch pool)) in *.
    assert (Hk' : inject_Z (Z.of_nat (timesDistributed pool ds)) * T <= 1 * T).
    { apply Qmult_le_compat_r; [| exact HT].
      change 1 with (inject_Z 1). rewrite <- Zle_Qle. lia. }
    lra. }
  split; [| split].
  - intros ds pool.
    rewrite (poolOf_lookup _ pool _ _ (launches_runDistributions launchId ds st launch Hl)).
    eexists. split; [reflexivity |].
    destruct (Hrun (default [] (ManagerState.requests st !! launchId)) ds pool)
      as [HT Hle].
    split; [exact HT |]. split; [now rewrite HT |].
    intros H0 Hk. now apply Honce.
  - intros now randomW randomP randomF pool H0.
    destruct (launches_executeAllPools now randomW randomP randomF launchId st
                launch Hl) as (count & requests & Hall).
    rewrite (poolOf_lookup _ pool _ _ Hall). eexists. split; [reflexivity |].
    cbn [set_participantCount LaunchAllocation.pools].
    apply (Honce requests
             [GuaranteedRun now; LotteryRun now randomW weighted_lottery;
              LotteryRun now randomP public_lottery;
              LotteryRun now randomF flipper; FCFSRun] pool H0).
    destruct pool; vm_compute; lia.
  - intros now Hne H0.
    rewrite (poolOf_executeGuaranteedPool now launchId st launch guaranteed Hl).
    eexists. split; [reflexivity |].
    split.
    { apply (Honce [] [GuaranteedRun now] guaranteed H0). vm_compute. lia. }
    rewrite (executeGuaranteedPoolOn_pool now launch Hne).
    cbn [PoolAllocation.allocated PoolAllocation.totalTokens].
    rewrite distributeGuaranteed_snd. fold participants. intros Hlt.
    destruct (guaranteed_short_cause
                (PoolAllocation.totalTokens (LaunchAllocation.pools launch guaranteed))
                (LaunchAllocation.tokenPrice launch) participants participants)
      as [Hex | Hsum]; [exact Hex | exfalso].
    rewrite exact_shares_sum in Hsum; [lra |].
    assert (HS : 0 < Qsum (map AllocationEntry.weight participants)).
    { apply Qsum_pos; [now apply Forall_weight_map |].
      destruct participants; [congruence | discriminate]. }
    intros E. rewrite E in HS. discriminate.
Qed.

Lemma allocation_conservation_witness :
  exists pool',
    poolOf "L" guaranteed
      (runDistributions "L"
         [GuaranteedRun 0; LotteryRun 0 (fun _ => 0) public_lottery; GuaranteedRun 5]
         floor_loss_request)
    = Some pool'
    /\ PoolAllocation.allocated pool'
       <= 0 + inject_Z 2 * PoolAllocation.totalTokens pool'.
Proof.
  edestruct (allocation_conservation "L" floor_loss_request) as (Hseq & _).
  - vm_compute. reflexivity.
  - intros pool. destruct pool; vm_compute; discriminate.
  - instantiate (1 := 100%Z). vm_compute. reflexivity.
  - vm_compute. reflexivity.
  - repeat constructor.
  - vm_compute. reflexivity.
  - destruct (Hseq [GuaranteedRun 0; LotteryRun 0 (fun _ : nat => 0) public_lottery;
                    GuaranteedRun 5] guaranteed)
      as (pool' & Hpool & _ & Hle & _).
    exists pool'. split; [exact Hpool | exact Hle].
Defined.

(** C1, as stated, fails three times.  A second distribution of the
    guaranteed pool takes [allocated] to 600 in a pool of 300 tokens.  With
    weights 12.5 and 6.25 on a pool of 100 tokens the floors give 66 and 33,
    so [allocated] is 99 although both participants asked for 25,000 tokens
    and neither is capped.  With weights 12.5 and 16.25 on a pool of 23
    tokens the exact shares are the whole numbers 10 and 13, the rounded
    product gives the second participant 12, and [allocated] is 22 with
    nobody capped. *)
Lemma allocation_conservation_counterexample :
  (exists pool',
     poolOf "L" guaranteed
       (executeGuaranteedPool 0 "L" (executeGuaranteedPool 0 "L" single_request))
     = Some pool'
     /\ PoolAllocation.totalTokens pool' == 300
     /\ PoolAllocation.allocated pool' == 600
     /\ ~ PoolAllocation.allocated pool' <= PoolAllocation.totalTokens pool')
  /\ (exists pool' a b,
        poolOf "L" guaranteed (executeGuaranteedPool 0 "L" floor_loss_request)
        = Some pool'
        /\ PoolAllocation.participants pool' = [a; b]
        /\ PoolAllocation.totalTokens pool' == 100
        /\ PoolAllocation.allocated pool' == 99
        /\ PoolAllocation.allocated pool' < PoolAllocation.totalTokens pool'
        /\ AllocationEntry.allocatedTokens a == 66
        /\ AllocationEntry.allocatedTokens b == 33
        /\ AllocationEntry.allocatedTokens a
           < floorQ (fdiv (AllocationEntry.requestedAmount a) 1)
        /\ AllocationEntry.allocatedTokens b
           < floorQ (fdiv (AllocationEntry.requestedAmount b) 1))
  /\ (exists pool' a b,
        poolOf "L" guaranteed (executeGuaranteedPool 0 "L" rounded_share_request)
        = Some pool'
        /\ PoolAllocation.participants pool' = [a; b]
        /\ PoolAllocation.totalTokens pool' == 23
        /\ PoolAllocation.allocated pool' == 22
        /\ PoolAllocation.allocated pool' < PoolAllocation.totalTokens pool'
        /\ AllocationEntry.allocatedTokens a == 10
        /\ AllocationEntry.allocatedTokens b == 12
        /\ 23 * (AllocationEntry.weight a
                 / (AllocationEntry.weight a + AllocationEntry.weight b)) == 10
        /\ 23 * (AllocationEntry.weight b
                 / (AllocationEntry.weight a + AllocationEntry.weight b)) == 13
        /\ AllocationEntry.allocatedTokens a
           < floorQ (fdiv (AllocationEntry.requestedAmount a) 1)
        /\ AllocationEntry.allocatedTokens b
           < floorQ (fdiv (AllocationEntry.requestedAmount b) 1)).
Proof.
  split; [| split].
  - eexists. split; [vm_compute; reflexivity |].
    split; [vm_compute; reflexivity |]. split; [vm_compute; reflexivity |].
    intros H. vm_compute in H. apply H. reflexivity.
  - eexists _, _, _. split; [vm_compute; reflexivity |].
    split; [reflexivity |]. vm_compute. repeat split.
  - eexists _, _, _. split; [vm_compute; reflexivity |].
    split; [reflexivity |]. vm_compute. repeat split.
Qed.

End PoolBounds.
